(** * CodeSync server: session coordinator and bounded code execution

    A shallow embedding of [server/index.js] (the revision with the
    [run-code] handler) and the properties of its room registry, its
    gateway handlers and its process supervisor.

    Conventions of the embedding.
    - JavaScript values that reach the handlers inside event payloads are
      kept dynamically typed ([jsval]): [undefined], [null], booleans,
      numbers and strings. Arrays and objects as field values are not
      part of the payload type; statements that range over all events say
      so where it matters.
    - A JavaScript string is kept as the bytes of its UTF-8 encoding, which
      is how it travels and how the source file spells its literals; its
      [length] in UTF-16 code units is [js_length]. Strings with unpaired
      surrogates have no such encoding and are left out.
    - A JavaScript [Map] is an insertion-ordered association list with
      unique keys ([JsMap]): [set] on a present key overwrites in place,
      on an absent key appends.
    - [new Date()] / [Date.now()] read the clock value carried by the event
      being handled.
    - [Buffer]s are lists of bytes. *)

From Stdlib Require Import ZArith NArith List String Ascii Bool Lia DecimalString Eqdep_dec.
From Stdlib.Strings Require Import Byte.
Import ListNotations.
Local Open Scope string_scope.
Local Open Scope list_scope.
Local Open Scope Z_scope.

(* ================================================================== *)
(** * JavaScript values *)
(* ================================================================== *)

(** Numbers are kept to the integers a double holds exactly
    ([Number.isSafeInteger]); on these [String(n)] is the decimal numeral
    and [===] is equality of the integers. *)
Definition MAX_SAFE_INTEGER : Z := 9007199254740991.

Record SafeInt := mkSafe {
  safe_val : Z;
  safe_ok : (Z.abs safe_val <=? MAX_SAFE_INTEGER) = true
}.

Definition SafeInt_ext (a b : SafeInt) : safe_val a = safe_val b -> a = b.
Proof.
  destruct a as [x Hx], b as [y Hy]; cbn; intros E; subst y.
  f_equal. apply UIP_dec, bool_dec.
Qed.

Definition SafeInt_eq_dec (a b : SafeInt) : {a = b} + {a <> b}.
Proof.
  destruct (Z.eq_dec (safe_val a) (safe_val b)) as [E|N];
    [left; apply SafeInt_ext, E | right; intros H; apply N; rewrite H; reflexivity].
Defined.

Inductive jsval : Type :=
| JUndefined
| JNull
| JBool (b : bool)
| JNum (n : SafeInt)
| JStr (s : string).

Definition jsval_eq_dec (a b : jsval) : {a = b} + {a <> b}.
Proof.
  decide equality; [apply bool_dec | apply SafeInt_eq_dec | apply string_dec].
Defined.

(** [!v] is [negb (truthy v)]. *)
Definition truthy (v : jsval) : bool :=
  match v with
  | JUndefined | JNull => false
  | JBool b => b
  | JNum n => negb (Z.eqb (safe_val n) 0)
  | JStr s => negb (String.eqb s EmptyString)
  end.

(** [String(v)], as used by template literals. *)
Definition js_to_string (v : jsval) : string :=
  match v with
  | JUndefined => "undefined"
  | JNull => "null"
  | JBool true => "true"
  | JBool false => "false"
  | JNum n => NilZero.string_of_int (Z.to_int (safe_val n))
  | JStr s => s
  end.

(** [typeof v === 'string'] *)
Definition is_string (v : jsval) : bool :=
  match v with JStr _ => true | _ => false end.

(* ------------------------------------------------------------------ *)
(** ** Strings *)
(* ------------------------------------------------------------------ *)

(** [s.length]: the UTF-16 code units of the string. A character of one
    to three bytes is one unit, a character of four bytes is two (a
    surrogate pair); continuation bytes count for nothing. *)
Fixpoint js_length (s : string) : nat :=
  match s with
  | EmptyString => 0%nat
  | String c s' =>
      let n := N_of_ascii c in
      ((if (n <? 0x80)%N || (0xC0 <=? n)%N then 1 else 0)
       + (if (0xF0 <=? n)%N then 1 else 0)
       + js_length s')%nat
  end.

(** What [String.prototype.trim] removes: the WhiteSpace and
    LineTerminator code points, here by their encodings. One byte: TAB,
    LF, VT, FF, CR, SP. *)
Definition is_space (c : ascii) : bool :=
  let n := N_of_ascii c in
  ((n =? 0x20) || ((0x09 <=? n) && (n <=? 0x0D)))%N.

(** Two bytes: U+00A0. *)
Definition is_space2 (c1 c2 : ascii) : bool :=
  ((N_of_ascii c1 =? 0xC2) && (N_of_ascii c2 =? 0xA0))%N.

(** Three bytes: U+1680, U+2000..U+200A, U+2028, U+2029, U+202F, U+205F,
    U+3000, U+FEFF. *)
Definition is_space3 (c1 c2 c3 : ascii) : bool :=
  let n1 := N_of_ascii c1 in
  let n2 := N_of_ascii c2 in
  let n3 := N_of_ascii c3 in
  (((n1 =? 0xE1) && (n2 =? 0x9A) && (n3 =? 0x80))
   || ((n1 =? 0xE2) && (n2 =? 0x80)
       && (((0x80 <=? n3) && (n3 <=? 0x8A))
           || (n3 =? 0xA8) || (n3 =? 0xA9) || (n3 =? 0xAF)))
   || ((n1 =? 0xE2) && (n2 =? 0x81) && (n3 =? 0x9F))
   || ((n1 =? 0xE3) && (n2 =? 0x80) && (n3 =? 0x80))
   || ((n1 =? 0xEF) && (n2 =? 0xBB) && (n3 =? 0xBF)))%N.

(** Leading white space removed, the multi-byte characters being told by
    [p2] and [p3]. *)
Fixpoint strip_leading (p2 : ascii -> ascii -> bool)
         (p3 : ascii -> ascii -> ascii -> bool) (s : string) : string :=
  match s with
  | EmptyString => EmptyString
  | String c1 s1 =>
      if is_space c1 then strip_leading p2 p3 s1
      else match s1 with
           | String c2 s2 =>
               if p2 c1 c2 then strip_leading p2 p3 s2
               else match s2 with
                    | String c3 s3 =>
                        if p3 c1 c2 c3 then strip_leading p2 p3 s3 else s
                    | EmptyString => s
                    end
           | EmptyString => s
           end
  end.

Definition trim_start (s : string) : string :=
  strip_leading is_space2 is_space3 s.

Fixpoint string_rev_onto (s acc : string) : string :=
  match s with
  | String c s' => string_rev_onto s' (String c acc)
  | EmptyString => acc
  end.

Definition string_rev (s : string) : string := string_rev_onto s EmptyString.

(** Trailing white space is leading white space of the reversed bytes,
    with the bytes of each character in reverse order. *)
Definition trim_end (s : string) : string :=
  string_rev (strip_leading (fun a b => is_space2 b a)
                            (fun a b c => is_space3 c b a)
                            (string_rev s)).

Definition trim (s : string) : string := trim_end (trim_start s).

(* ================================================================== *)
(** * JavaScript [Map] *)
(* ================================================================== *)

Module JsMap.
Section Ops.
Context {K V : Type}.
Variable K_eq_dec : forall a b : K, {a = b} + {a <> b}.

Definition t := list (K * V).

Fixpoint get (k : K) (m : list (K * V)) : option V :=
  match m with
  | [] => None
  | (k', v) :: m' => if K_eq_dec k k' then Some v else get k m'
  end.

Definition has (k : K) (m : list (K * V)) : bool :=
  match get k m with Some _ => true | None => false end.

Fixpoint set (k : K) (v : V) (m : list (K * V)) : list (K * V) :=
  match m with
  | [] => [(k, v)]
  | (k', v') :: m' =>
      if K_eq_dec k k' then (k', v) :: m' else (k', v') :: set k v m'
  end.

Fixpoint delete (k : K) (m : list (K * V)) : list (K * V) :=
  match m with
  | [] => []
  | (k', v) :: m' =>
      if K_eq_dec k k' then delete k m' else (k', v) :: delete k m'
  end.

Definition size (m : list (K * V)) : Z := Z.of_nat (List.length m).

Definition keys (m : list (K * V)) : list K := map fst m.

Definition values (m : list (K * V)) : list V := map snd m.
End Ops.
End JsMap.

(* ================================================================== *)
(** * Process supervisor: [limitedSpawn] *)
(* ================================================================== *)

Definition EXECUTION_TIMEOUT_MS : Z := 5000.
Definition MAX_OUTPUT_BYTES : Z := 64 * 1024.

Definition Buffer := list byte.

Definition buffer_length (b : Buffer) : Z := Z.of_nat (List.length b).

Arguments MAX_OUTPUT_BYTES : simpl never.
Arguments EXECUTION_TIMEOUT_MS : simpl never.

(** [chunk.slice(0, n)] for [n >= 0]. *)
Definition buffer_slice0 (b : Buffer) (n : Z) : Buffer := firstn (Z.to_nat n) b.

Arguments buffer_slice0 : simpl never.

(** U+FFFD, which a decoder puts in place of what it cannot decode. *)
Definition REPLACEMENT : Buffer := [xef; xbf; xbd].

(** A continuation byte. *)
Definition utf8_cont (b : byte) : bool :=
  ((0x80 <=? Byte.to_N b) && (Byte.to_N b <=? 0xBF))%N.

(** The byte that may follow lead byte [b0]: a continuation byte, within
    the narrower range that rules out overlong forms, surrogates and code
    points above U+10FFFF. *)
Definition utf8_second (b0 b1 : byte) : bool :=
  let n0 := Byte.to_N b0 in
  let lower := (if n0 =? 0xE0 then 0xA0 else if n0 =? 0xF0 then 0x90 else 0x80)%N in
  let upper := (if n0 =? 0xED then 0x9F else if n0 =? 0xF4 then 0x8F else 0xBF)%N in
  ((lower <=? Byte.to_N b1) && (Byte.to_N b1 <=? upper))%N.

(** Decoding as UTF-8: well-formed characters are kept; every maximal
    ill-formed run of bytes (a byte that cannot start a character, or a
    start cut short) becomes one U+FFFD, and decoding resumes at the byte
    that did not fit. *)
Fixpoint utf8_decode (b : Buffer) : Buffer :=
  match b with
  | [] => []
  | b0 :: r =>
      let n0 := Byte.to_N b0 in
      if (n0 <? 0x80)%N then b0 :: utf8_decode r
      else if ((0xC2 <=? n0) && (n0 <=? 0xDF))%N then
        match r with
        | b1 :: r1 =>
            if utf8_second b0 b1 then b0 :: b1 :: utf8_decode r1
            else REPLACEMENT ++ utf8_decode r
        | [] => REPLACEMENT
        end
      else if ((0xE0 <=? n0) && (n0 <=? 0xEF))%N then
        match r with
        | b1 :: r1 =>
            if utf8_second b0 b1 then
              match r1 with
              | b2 :: r2 =>
                  if utf8_cont b2 then b0 :: b1 :: b2 :: utf8_decode r2
                  else REPLACEMENT ++ utf8_decode r1
              | [] => REPLACEMENT
              end
            else REPLACEMENT ++ utf8_decode r
        | [] => REPLACEMENT
        end
      else if ((0xF0 <=? n0) && (n0 <=? 0xF4))%N then
        match r with
        | b1 :: r1 =>
            if utf8_second b0 b1 then
              match r1 with
              | b2 :: r2 =>
                  if utf8_cont b2 then
                    match r2 with
                    | b3 :: r3 =>
                        if utf8_cont b3 then b0 :: b1 :: b2 :: b3 :: utf8_decode r3
                        else REPLACEMENT ++ utf8_decode r2
                    | [] => REPLACEMENT
                    end
                  else REPLACEMENT ++ utf8_decode r1
              | [] => REPLACEMENT
              end
            else REPLACEMENT ++ utf8_decode r
        | [] => REPLACEMENT
        end
      else REPLACEMENT ++ utf8_decode r
  end.

(** [buf.toString('utf8')] *)
Definition toString_utf8 (b : Buffer) : string :=
  string_of_list_byte (utf8_decode b).

(** The variables closed over by the promise executor of [limitedSpawn],
    together with what the executor can tell of the [child] object:
    [killed] is [child.killed]; [running] says that the process has not
    ended, which is when [child.kill] has something to signal;
    [sigkills] counts the SIGKILLs that reached the live process. A
    [child.kill] that comes after the end of the process changes nothing
    that a handler reads to any effect: the few instants in which the
    process is gone and Node has not been told, where [child.killed]
    would still be set, are counted with the time after the end. *)
Module Sup.
Record t := mk {
  stdout : Buffer;
  stderr : Buffer;
  outputTruncated : bool;
  timedOut : bool;
  spawnError : option string;
  killed : bool;
  running : bool;
  sigkills : nat
}.

Definition init (spawned : bool) : t :=
  mk [] [] false false None false spawned 0.
End Sup.

(** The payload [limitedSpawn] resolves with; also the shape the
    adapters return. A field that is [null] or absent is [None]. *)
Module Result.
Record t := mk {
  exitCode : option Z;
  signal : option string;
  stdout : string;
  stderr : string;
  timedOut : bool;
  outputTruncated : bool;
  spawnError : option string
}.
End Result.

(** [killChild] *)
Definition killChild (s : Sup.t) : Sup.t :=
  if negb (Sup.killed s) then
    if Sup.running s then
      Sup.mk (Sup.stdout s) (Sup.stderr s) (Sup.outputTruncated s)
             (Sup.timedOut s) (Sup.spawnError s) true (Sup.running s)
             (S (Sup.sigkills s))
    else s
  else s.

(** The [setTimeout] callback. *)
Definition on_timeout (s : Sup.t) : Sup.t :=
  killChild
    (Sup.mk (Sup.stdout s) (Sup.stderr s) (Sup.outputTruncated s)
            true (Sup.spawnError s) (Sup.killed s) (Sup.running s)
            (Sup.sigkills s)).

(** [child.stdout.on('data', ...)] *)
Definition on_stdout (chunk : Buffer) (s : Sup.t) : Sup.t :=
  if (buffer_length (Sup.stdout s) + buffer_length chunk >? MAX_OUTPUT_BYTES)%Z then
    let remaining := Z.max 0 (MAX_OUTPUT_BYTES - buffer_length (Sup.stdout s)) in
    killChild
      (Sup.mk (Sup.stdout s ++ buffer_slice0 chunk remaining) (Sup.stderr s)
              true (Sup.timedOut s) (Sup.spawnError s) (Sup.killed s)
              (Sup.running s) (Sup.sigkills s))
  else
    Sup.mk (Sup.stdout s ++ chunk) (Sup.stderr s) (Sup.outputTruncated s)
           (Sup.timedOut s) (Sup.spawnError s) (Sup.killed s)
           (Sup.running s) (Sup.sigkills s).

(** [child.stderr.on('data', ...)] *)
Definition on_stderr (chunk : Buffer) (s : Sup.t) : Sup.t :=
  if (buffer_length (Sup.stderr s) + buffer_length chunk >? MAX_OUTPUT_BYTES)%Z then
    let remaining := Z.max 0 (MAX_OUTPUT_BYTES - buffer_length (Sup.stderr s)) in
    killChild
      (Sup.mk (Sup.stdout s) (Sup.stderr s ++ buffer_slice0 chunk remaining)
              true (Sup.timedOut s) (Sup.spawnError s) (Sup.killed s)
              (Sup.running s) (Sup.sigkills s))
  else
    Sup.mk (Sup.stdout s) (Sup.stderr s ++ chunk) (Sup.outputTruncated s)
           (Sup.timedOut s) (Sup.spawnError s) (Sup.killed s)
           (Sup.running s) (Sup.sigkills s).

(** [child.on('error', ...)]: [err.code] when there is a non-empty one,
    else [String(err)]. *)
Definition on_error (err_code : option string) (err_text : string) (s : Sup.t) : Sup.t :=
  let e := match err_code with
           | Some c => if String.eqb c EmptyString then err_text else c
           | None => err_text
           end in
  Sup.mk (Sup.stdout s) (Sup.stderr s) (Sup.outputTruncated s)
         (Sup.timedOut s) (Some e) (Sup.killed s) (Sup.running s)
         (Sup.sigkills s).

(** The payload built by [child.on('close', ...)]. *)
Definition on_close (code : option Z) (signal : option string) (s : Sup.t) : Result.t :=
  Result.mk code signal
            (toString_utf8 (Sup.stdout s)) (toString_utf8 (Sup.stderr s))
            (Sup.timedOut s) (Sup.outputTruncated s) (Sup.spawnError s).

(* ------------------------------------------------------------------ *)
(** ** The child process and the event loop around the handlers *)
(* ------------------------------------------------------------------ *)

(** What a spawned command does, as seen from the parent. While the
    process lives the parent reads the chunks of [script], with the delays
    between them; then the process ends by itself as [ending] says, or
    stays alive for ever. A SIGKILL that reaches the live process ends it
    on the spot; of the rest of [script] the parent still reads the
    [inflight] chunks that were in the pipes already. When the process has
    ended by itself the parent still reads [late]: what was left in the
    pipes and what descendants that inherited them go on writing. Node
    emits ['close'] once the process has ended and both pipes are closed,
    which descendants put off until [release] ms after spawn. *)
Inductive Stream : Type := StdoutStream | StderrStream.

Inductive ChildAct : Type :=
| Emit (st : Stream) (chunk : Buffer)
| Delay (ms : Z).

Inductive Ending : Type :=
| Exits (code : Z)
| Signalled (sig : string)
| Never.

(** [spawn(cmd, args)] either cannot start the binary (Node then emits
    ['error'] with [err.code] and ['close'] with the negative errno as
    exit code) or starts a child. *)
Inductive Program : Type :=
| SpawnFails (code : string) (errno : Z)
| Runs (script : list ChildAct) (ending : Ending) (inflight : nat)
       (late : list ChildAct) (release : Z).

(** The pipes of a child: closed at some time after spawn, or kept open
    for ever by a descendant that outlives everything. *)
Inductive Pipes : Type :=
| ClosedAt (release : Z)
| LeftOpen.

Definition on_data (st : Stream) (chunk : Buffer) (s : Sup.t) : Sup.t :=
  match st with
  | StdoutStream => on_stdout chunk s
  | StderrStream => on_stderr chunk s
  end.

(** The process has ended. *)
Definition ended (s : Sup.t) : Sup.t :=
  Sup.mk (Sup.stdout s) (Sup.stderr s) (Sup.outputTruncated s) (Sup.timedOut s)
         (Sup.spawnError s) (Sup.killed s) false (Sup.sigkills s).

(** The clock reaches [t]: the timer set at spawn goes off once, when
    [EXECUTION_TIMEOUT_MS] have passed. It is cleared in [done] only, so
    it also goes off on a child that has ended but not closed. *)
Definition tick (t : Z) (s : Sup.t) : Sup.t :=
  if negb (Sup.timedOut s) && (EXECUTION_TIMEOUT_MS <=? t) then on_timeout s else s.

(** Chunks still in the pipes when the child is killed. *)
Fixpoint drain (n : nat) (script : list ChildAct) (s : Sup.t) : Sup.t :=
  match n, script with
  | S n', Emit st chunk :: rest => drain n' rest (on_data st chunk s)
  | _, _ => s
  end.

(** What arrives after the process has ended by itself. *)
Fixpoint after_exit (late : list ChildAct) (t : Z) (s : Sup.t) : Z * Sup.t :=
  match late with
  | [] => (t, s)
  | Emit st chunk :: rest => after_exit rest t (on_data st chunk s)
  | Delay ms :: rest =>
      after_exit rest (t + Z.max 0 ms) (tick (t + Z.max 0 ms) s)
  end.

Definition SIGKILL : string := "SIGKILL".

(** The event loop from [spawn] until the process has ended and what it
    left behind has been read: [t] is the time since spawn. Returns the
    exit code and signal of the process (the arguments ['close'] will
    carry), the time, and the executor's variables. A process that is
    alive when a handler calls [killChild] ends by that SIGKILL. *)
Fixpoint run_child (script : list ChildAct) (ending : Ending) (inflight : nat)
         (late : list ChildAct) (t : Z) (s : Sup.t)
  : (option Z * option string) * (Z * Sup.t) :=
  match script with
  | [] =>
      match ending with
      | Exits c => ((Some c, None), after_exit late t (ended s))
      | Signalled sg => ((None, Some sg), after_exit late t (ended s))
      | Never =>
          ((None, Some SIGKILL),
           (Z.max t EXECUTION_TIMEOUT_MS, ended (on_timeout s)))
      end
  | Delay ms :: rest =>
      if EXECUTION_TIMEOUT_MS <=? t + Z.max 0 ms then
        ((None, Some SIGKILL),
         (EXECUTION_TIMEOUT_MS, drain inflight rest (ended (on_timeout s))))
      else run_child rest ending inflight late (t + Z.max 0 ms) s
  | Emit st chunk :: rest =>
      let s' := on_data st chunk s in
      if Sup.killed s' then
        ((None, Some SIGKILL), (t, drain inflight rest (ended s')))
      else run_child rest ending inflight late t s'
  end.

(** A spawned child up to ['close'], if ['close'] comes: the time at
    which it comes and the payload handed to [done], which is called from
    the ['close'] handler and from nowhere else; and the executor's
    variables in the end. *)
Definition settle (script : list ChildAct) (ending : Ending) (inflight : nat)
           (late : list ChildAct) (pipes : Pipes)
  : option (Z * Result.t) * Sup.t :=
  let '((c, sg), (t, s)) :=
    run_child script ending inflight late 0 (Sup.init true) in
  match pipes with
  | ClosedAt release =>
      let s' := tick (Z.max t release) s in
      (Some (Z.max t release, on_close c sg s'), s')
  | LeftOpen => (None, tick EXECUTION_TIMEOUT_MS s)
  end.

(** One supervised execution of a program, from [spawn] to the payload
    handed to [done]; the second component is the executor's final
    variables. *)
Definition supervise (p : Program) : Result.t * Sup.t :=
  match p with
  | SpawnFails code errno =>
      let s := on_error (Some code) ("Error: spawn " ++ code)%string (Sup.init false) in
      (on_close (Some errno) None s, s)
  | Runs script ending inflight late release =>
      let '((c, sg), (t, s)) :=
        run_child script ending inflight late 0 (Sup.init true) in
      let s' := tick (Z.max t release) s in
      (on_close c sg s', s')
  end.

(* ------------------------------------------------------------------ *)
(** ** Host effects *)
(* ------------------------------------------------------------------ *)

Inductive Action : Type :=
| AMkdtemp (dir : string)
| AWriteFile (path : string) (data : string)
| ASpawn (cmd : string) (args : list string) (cwd : string)
| AKill (cmd : string)
| ARm (dir : string) (ok : bool).

(** The machine the server runs on. *)
Record Host := {
  execPath : string;
  win32 : bool;
  tmpdir : string;
  mkdtemp : string -> option string;
  writeFile_ok : bool;
  rm_ok : bool;
  spawn : string -> list string -> Program
}.

(** Computations that log their effects in order and may throw (a
    rejected promise under [await]). *)
Definition M (A : Type) : Type := list Action -> (A + string) * list Action.

Definition ret {A : Type} (a : A) : M A := fun log => (inl a, log).

Definition throw {A : Type} (e : string) : M A := fun log => (inr e, log).

Definition bind {A B : Type} (m : M A) (f : A -> M B) : M B :=
  fun log =>
    match m log with
    | (inl a, log') => f a log'
    | (inr e, log') => (inr e, log')
    end.

Definition tell (a : Action) : M unit := fun log => (inl tt, log ++ [a]).

(** [try { await m } catch {}] *)
Definition swallow (m : M unit) : M unit :=
  fun log => let '(_, log') := m log in (inl tt, log').

Declare Scope js_scope.
Delimit Scope js_scope with js.
Notation "x <- m ;; k" := (bind m (fun x => k))
  (at level 61, m at next level, right associativity) : js_scope.
Notation "m ;;; k" := (bind m (fun _ => k))
  (at level 61, right associativity) : js_scope.

Definition path_join (a b : string) : string := (a ++ "/" ++ b)%string.

Definition fs_mkdtemp (h : Host) (prefix : string) : M string :=
  match mkdtemp h prefix with
  | Some d => bind (tell (AMkdtemp d)) (fun _ => ret d)
  | None => throw "mkdtemp"
  end.

Definition fs_writeFile (h : Host) (path data : string) : M unit :=
  if writeFile_ok h then tell (AWriteFile path data) else throw "writeFile".

(** [rm(dir, { recursive: true, force: true })] *)
Definition fs_rm (h : Host) (dir : string) : M unit :=
  bind (tell (ARm dir (rm_ok h)))
       (fun _ => if rm_ok h then ret tt else throw "rm").

(** [limitedSpawn(cmd, args, { cwd }, cleanup)]: the promise resolves in
    [done], after the optional cleanup. *)
Definition limitedSpawn (h : Host) (cmd : string) (args : list string)
           (cwd : string) (cleanup : option (M unit)) : M Result.t :=
  (tell (ASpawn cmd args cwd) ;;;
   let '(payload, s) := supervise (spawn h cmd args) in
   (fun log => (inl tt, log ++ repeat (AKill cmd) (Sup.sigkills s))) ;;;
   match cleanup with
   | Some c => swallow c
   | None => ret tt
   end ;;;
   ret payload)%js.

(* ------------------------------------------------------------------ *)
(** ** Language adapters *)
(* ------------------------------------------------------------------ *)

Definition spawnError_is_ENOENT (r : Result.t) : bool :=
  match Result.spawnError r with
  | Some e => String.eqb e "ENOENT"
  | None => false
  end.

(** [r.exitCode !== 0] *)
Definition exitCode_nonzero (r : Result.t) : bool :=
  match Result.exitCode r with
  | Some c => negb (Z.eqb c 0)
  | None => true
  end.

Definition newline : string := String (ascii_of_nat 10) EmptyString.

Definition runJavaScript (h : Host) (code : string) : M Result.t :=
  (tempDir <- fs_mkdtemp h (path_join (tmpdir h) "codesync-") ;;
   let filePath := path_join tempDir "main.mjs" in
   fs_writeFile h filePath code ;;;
   limitedSpawn h (execPath h) [filePath] tempDir (Some (fs_rm h tempDir)))%js.

Definition runPython (h : Host) (code : string) : M Result.t :=
  (tempDir <- fs_mkdtemp h (path_join (tmpdir h) "codesync-") ;;
   let filePath := path_join tempDir "main.py" in
   fs_writeFile h filePath code ;;;
   res <- limitedSpawn h "python" [filePath] tempDir (Some (fs_rm h tempDir)) ;;
   if spawnError_is_ENOENT res then
     limitedSpawn h "py" ["-3"; filePath] tempDir (Some (fs_rm h tempDir))
   else ret res)%js.

Definition javac_missing : Result.t :=
  Result.mk None None "" "javac not found. Install JDK." false false None.

Definition java_missing_note (run : Result.t) : Result.t :=
  Result.mk (Result.exitCode run) (Result.signal run) (Result.stdout run)
    (Result.stderr run
       ++ (if String.eqb (Result.stderr run) "" then "" else newline)
       ++ "java not found. Install JRE/JDK.")%string
    (Result.timedOut run) (Result.outputTruncated run) (Result.spawnError run).

Definition runJava (h : Host) (code : string) : M Result.t :=
  (tempDir <- fs_mkdtemp h (path_join (tmpdir h) "codesync-") ;;
   let srcPath := path_join tempDir "Main.java" in
   fs_writeFile h srcPath code ;;;
   compile <- limitedSpawn h "javac" [srcPath] tempDir None ;;
   if spawnError_is_ENOENT compile then
     fs_rm h tempDir ;;; ret javac_missing
   else if exitCode_nonzero compile then
     fs_rm h tempDir ;;; ret compile
   else
     run <- limitedSpawn h "java" ["-cp"; tempDir; "Main"] tempDir
                         (Some (fs_rm h tempDir)) ;;
     if spawnError_is_ENOENT run then ret (java_missing_note run)
     else ret run)%js.

Definition cpp_missing : Result.t :=
  Result.mk None None "" "C++ compiler not found (g++/clang++)." false false None.

Definition runCpp (h : Host) (code : string) : M Result.t :=
  (tempDir <- fs_mkdtemp h (path_join (tmpdir h) "codesync-") ;;
   let srcPath := path_join tempDir "main.cpp" in
   fs_writeFile h srcPath code ;;;
   let exeName := if win32 h then "main.exe" else "main" in
   let exePath := path_join tempDir exeName in
   let cc_args := ["-O2"; "-std=c++17"; "-o"; exePath; srcPath] in
   compile0 <- limitedSpawn h "g++" cc_args tempDir None ;;
   compile <- (if spawnError_is_ENOENT compile0
               then limitedSpawn h "clang++" cc_args tempDir None
               else ret compile0) ;;
   if spawnError_is_ENOENT compile then
     fs_rm h tempDir ;;; ret cpp_missing
   else if exitCode_nonzero compile then
     fs_rm h tempDir ;;; ret compile
   else
     let runCmd := if win32 h then exePath else ("./" ++ exeName)%string in
     limitedSpawn h runCmd [] tempDir (Some (fs_rm h tempDir)))%js.

(* ================================================================== *)
(** * Room registry *)
(* ================================================================== *)

Module Participant.
Record t := mk {
  id : string;
  username : string;
  joinedAt : Z;
  lastSeen : Z
}.
End Participant.

Module Room.
Record t := mk {
  id : jsval;
  code : jsval;
  language : jsval;
  participants : list (string * Participant.t);
  createdAt : Z;
  lastActivity : Z
}.
End Room.

Abbreviation pget := (JsMap.get string_dec).
Abbreviation pset := (JsMap.set string_dec).
Abbreviation pdelete := (JsMap.delete string_dec).
Abbreviation rget := (JsMap.get jsval_eq_dec).
Abbreviation rset := (JsMap.set jsval_eq_dec).
Abbreviation rhas := (JsMap.has jsval_eq_dec).

(** The text a new room starts with. *)
Definition default_code (roomId : jsval) : string :=
  ("// Welcome to CodeSync - Real-time Collaborative Editor!
// Share this room ID with others to collaborate: " ++ js_to_string roomId ++ "

function fibonacci(n) {
  if (n <= 1) return n;
  return fibonacci(n - 1) + fibonacci(n - 2);
}

// Try editing this code with multiple users!
console.log('Fibonacci sequence:');
for (let i = 0; i < 10; i++) {
  console.log(`F(${i}) = ${fibonacci(i)}`);
}

// Features:
// ✨ Real-time collaboration
// 🎨 Syntax highlighting
// 🔄 Auto-save
// 👥 Live user presence
// 🚀 Multiple language support")%string.

Definition new_room (roomId : jsval) (now : Z) : Room.t :=
  Room.mk roomId (JStr (default_code roomId)) (JStr "javascript") [] now now.

(** [getOrCreateRoom(roomId)]: the room and the registry after the call. *)
Definition getOrCreateRoom (roomId : jsval) (now : Z)
           (rooms : list (jsval * Room.t)) : Room.t * list (jsval * Room.t) :=
  let rooms' := if negb (rhas roomId rooms)
                then rset roomId (new_room roomId now) rooms
                else rooms in
  (match rget roomId rooms' with
   | Some r => r
   | None => new_room roomId now
   end, rooms').

Definition maxAge : Z := 24 * 60 * 60 * 1000.

(** [cleanupInactiveRooms()], run at clock value [now]. *)
Fixpoint cleanupInactiveRooms (now : Z) (rooms : list (jsval * Room.t))
  : list (jsval * Room.t) :=
  match rooms with
  | [] => []
  | (roomId, room) :: rest =>
      if (JsMap.size (Room.participants room) =? 0)
         && (now - Room.lastActivity room >? maxAge)
      then cleanupInactiveRooms now rest
      else (roomId, room) :: cleanupInactiveRooms now rest
  end.

(* ================================================================== *)
(** * Session gateway *)
(* ================================================================== *)

(** The object a client sends with an event; a field it leaves out reads
    as [undefined]. *)
Module Data.
Record t := mk {
  roomId : jsval;
  username : jsval;
  code : jsval;
  language : jsval
}.
Definition empty : t := mk JUndefined JUndefined JUndefined JUndefined.
End Data.

Inductive Msg : Type :=
| ErrorMsg (message : string)
| RoomState (code language : jsval) (participants : list Participant.t)
| UserJoined (user : Participant.t) (participants : list Participant.t)
| UserLeft (user : Participant.t) (participants : list Participant.t)
| CodeUpdate (code language : jsval) (updatedBy : string)
| LanguageUpdate (language : jsval) (updatedBy : string)
| RunResult (roomId language : jsval) (startedAt durationMs : Z)
            (exitCode : option Z) (stdout stderr : string)
            (timedOut outputTruncated : bool) (initiatedBy : string)
| Pong.

(** A message handed to the transport for one connection. *)
Definition Delivery : Type := string * Msg.

(** A [run-code] request whose adapter has not come back yet: what the
    handler holds across its [await]. [initiatedBy] is
    [participant?.username || 'Unknown'] for the record looked up before
    the [await]; [outcome] is the payload the adapter returns, or what it
    throws. *)
Module Run.
Record t := mk {
  sid : string;
  roomId : jsval;
  language : jsval;
  startedAt : Z;
  initiatedBy : string;
  outcome : Result.t + string
}.
End Run.

(** The server's state: the two module-level maps; for every live
    socket, [socket.rooms] (the transport's channel membership; a socket
    starts in the channel named by its own id); and the [run-code]
    handlers suspended at their [await]. *)
Record State := {
  rooms : list (jsval * Room.t);
  userSockets : list (string * Z);
  adapter : list (string * list jsval);
  runs : list Run.t
}.

Definition initial_state : State := Build_State [] [] [] [].

Definition in_channel (r : jsval) (l : list jsval) : bool :=
  existsb (fun x => if jsval_eq_dec r x then true else false) l.

(** The sockets currently in channel [r]. *)
Definition members (r : jsval) (ad : list (string * list jsval)) : list string :=
  map fst (filter (fun e => in_channel r (snd e)) ad).

(** Recipients of [socket.to(r).emit(...)]: the sockets in channel [r],
    except those in the channel named by the sender's id, which holds the
    sender and whoever joined a room of that name. *)
Definition socket_to (sid : string) (r : jsval) (ad : list (string * list jsval))
  : list string :=
  map fst (filter (fun e => in_channel r (snd e)
                            && negb (in_channel (JStr sid) (snd e))) ad).

(** Recipients of [io.to(r).emit(...)] *)
Definition io_to (r : jsval) (ad : list (string * list jsval)) : list string :=
  members r ad.

Definition emit_to (recipients : list string) (m : Msg) : list Delivery :=
  map (fun s => (s, m)) recipients.

Definition socket_rooms (sid : string) (ad : list (string * list jsval)) : list jsval :=
  match pget sid ad with Some l => l | None => [] end.

(** [socket.join(r)] *)
Definition socket_join (sid : string) (r : jsval) (ad : list (string * list jsval))
  : list (string * list jsval) :=
  let l := socket_rooms sid ad in
  pset sid (if in_channel r l then l else l ++ [r]) ad.

(** [Array.from(socket.rooms).forEach(room => { if (room !== socket.id)
    socket.leave(room) })] *)
Definition leave_previous (sid : string) (ad : list (string * list jsval))
  : list (string * list jsval) :=
  pset sid (filter (fun r => if jsval_eq_dec r (JStr sid) then true else false)
                   (socket_rooms sid ad)) ad.

(** [participant?.username || 'Unknown'] *)
Definition name_or_unknown (p : option Participant.t) : string :=
  match p with
  | Some p => if String.eqb (Participant.username p) "" then "Unknown"
              else Participant.username p
  | None => "Unknown"
  end.

(** [io.on('connection', ...)] *)
Definition connection (sid : string) (now : Z) (st : State) : State :=
  Build_State (rooms st) (pset sid now (userSockets st))
              (pset sid [JStr sid] (adapter st)) (runs st).

(** [socket.on('join-room', ...)] *)
Definition join_room (sid : string) (now : Z) (data : option Data.t) (st : State)
  : State * list Delivery :=
  match data with
  | None => (st, [(sid, ErrorMsg "Failed to join room")])
  | Some d =>
      let roomId := Data.roomId d in
      if negb (truthy roomId) || negb (truthy (Data.username d)) then
        (st, [(sid, ErrorMsg "Room ID and username are required")])
      else
        let '(room, rooms1) := getOrCreateRoom roomId now (rooms st) in
        let ad1 := socket_join sid roomId (leave_previous sid (adapter st)) in
        match Data.username d with
        | JStr username =>
            let participant := Participant.mk sid (trim username) now now in
            let ps := pset sid participant (Room.participants room) in
            let room' := Room.mk (Room.id room) (Room.code room) (Room.language room)
                                 ps (Room.createdAt room) now in
            (Build_State (rset roomId room' rooms1) (userSockets st) ad1 (runs st),
             (sid, RoomState (Room.code room') (Room.language room')
                             (JsMap.values ps))
               :: emit_to (socket_to sid roomId ad1)
                          (UserJoined participant (JsMap.values ps)))
        | _ =>
            (* [username.trim] is not a function: caught *)
            (Build_State rooms1 (userSockets st) ad1 (runs st),
             [(sid, ErrorMsg "Failed to join room")])
        end
  end.

(** [participant.lastSeen = new Date()] on the record stored in the room. *)
Definition touch_lastSeen (sid : string) (now : Z)
           (ps : list (string * Participant.t)) : list (string * Participant.t) :=
  match pget sid ps with
  | Some p => pset sid (Participant.mk (Participant.id p) (Participant.username p)
                                        (Participant.joinedAt p) now) ps
  | None => ps
  end.

(** [socket.on('code-change', ...)] *)
Definition code_change (sid : string) (now : Z) (data : option Data.t) (st : State)
  : State * list Delivery :=
  match data with
  | None => (st, [(sid, ErrorMsg "Failed to update code")])
  | Some d =>
      let roomId := Data.roomId d in
      match rget roomId (rooms st) with
      | None => (st, [(sid, ErrorMsg "Room not found")])
      | Some room =>
          let code' := match Data.code d with
                       | JUndefined => Room.code room
                       | c => c
                       end in
          let language' := if truthy (Data.language d) then Data.language d
                           else Room.language room in
          let participant := pget sid (Room.participants room) in
          let room' := Room.mk (Room.id room) code' language'
                               (touch_lastSeen sid now (Room.participants room))
                               (Room.createdAt room) now in
          (Build_State (rset roomId room' (rooms st)) (userSockets st) (adapter st)
                       (runs st),
           emit_to (socket_to sid roomId (adapter st))
                   (CodeUpdate code' language' (name_or_unknown participant)))
      end
  end.

(** [socket.on('language-change', ...)] *)
Definition language_change (sid : string) (now : Z) (data : option Data.t) (st : State)
  : State * list Delivery :=
  match data with
  | None => (st, [(sid, ErrorMsg "Failed to update language")])
  | Some d =>
      let roomId := Data.roomId d in
      match rget roomId (rooms st) with
      | None => (st, [(sid, ErrorMsg "Room not found")])
      | Some room =>
          let room' := Room.mk (Room.id room) (Room.code room) (Data.language d)
                               (Room.participants room) (Room.createdAt room) now in
          let participant := pget sid (Room.participants room) in
          (Build_State (rset roomId room' (rooms st)) (userSockets st) (adapter st)
                       (runs st),
           emit_to (socket_to sid roomId (adapter st))
                   (LanguageUpdate (Data.language d) (name_or_unknown participant)))
      end
  end.

(** The [rooms.forEach] of the disconnect handler: rooms are visited in
    insertion order and each callback touches its own entry only. *)
Fixpoint disconnect_rooms (sid : string) (now : Z) (ad : list (string * list jsval))
         (rs : list (jsval * Room.t)) : list (jsval * Room.t) * list Delivery :=
  match rs with
  | [] => ([], [])
  | (roomId, room) :: rest =>
      let '(rest', out) := disconnect_rooms sid now ad rest in
      match pget sid (Room.participants room) with
      | Some participant =>
          let ps := pdelete sid (Room.participants room) in
          let room' := Room.mk (Room.id room) (Room.code room) (Room.language room)
                               ps (Room.createdAt room) now in
          let msgs := emit_to (socket_to sid roomId ad)
                              (UserLeft participant (JsMap.values ps)) in
          if JsMap.size ps =? 0 then (rest', msgs ++ out)
          else ((roomId, room') :: rest', msgs ++ out)
      | None => ((roomId, room) :: rest', out)
      end
  end.

(** [socket.on('disconnect', ...)]; the transport has taken the socket
    out of every channel before the handler runs. *)
Definition disconnect (sid : string) (now : Z) (st : State) : State * list Delivery :=
  let ad := pdelete sid (adapter st) in
  let '(rooms', out) := disconnect_rooms sid now ad (rooms st) in
  (Build_State rooms' (pdelete sid (userSockets st)) ad (runs st), out).

(** [socket.on('ping', ...)] *)
Definition ping (sid : string) (st : State) : State * list Delivery :=
  (st, [(sid, Pong)]).

Definition language_is (v : jsval) (name : string) : bool :=
  match v with JStr s => String.eqb s name | _ => false end.

Definition dquote : string := String (ascii_of_nat 34) EmptyString.

(** The [switch (language)] of the run-code handler; [None] is its
    [default] branch. *)
Definition dispatch (h : Host) (language : jsval) (code : string)
  : option (M Result.t) :=
  if language_is language "javascript" || language_is language "typescript"
  then Some (runJavaScript h code)
  else if language_is language "python" then Some (runPython h code)
  else if language_is language "java" then Some (runJava h code)
  else if language_is language "cpp" then Some (runCpp h code)
  else None.

(** [socket.on('run-code', ...)] on host [h], up to its [await] or its
    [return]: what is sent at once, the run left pending if an adapter was
    started, and what the adapter does on the host. The [default] branch
    of the [switch] sends its result without awaiting anything. *)
Definition run_code_request (h : Host) (sid : string) (now : Z)
           (data : option Data.t) (st : State)
  : (list Delivery * option Run.t) * list Action :=
  let d := match data with Some d => d | None => Data.empty end in
  let roomId := Data.roomId d in
  let language := Data.language d in
  match Data.code d with
  | JStr code =>
      if negb (truthy roomId) || negb (truthy language) then
        (([(sid, ErrorMsg "Invalid run request")], None), [])
      else
        match rget roomId (rooms st) with
        | None => (([(sid, ErrorMsg "Room not found")], None), [])
        | Some room =>
            let initiatedBy := name_or_unknown (pget sid (Room.participants room)) in
            match dispatch h language code with
            | None =>
                ((emit_to (io_to roomId (adapter st))
                    (RunResult roomId language now 0 None ""
                       ("Execution for language " ++ dquote ++ js_to_string language
                          ++ dquote ++ " is not supported yet.")%string
                       false false initiatedBy), None), [])
            | Some adapter_call =>
                let '(outcome, log) := adapter_call [] in
                (([], Some (Run.mk sid roomId language now initiatedBy outcome)), log)
            end
        end
  | _ => (([(sid, ErrorMsg "Invalid run request")], None), [])
  end.

(** The rest of the handler, when the adapter has come back at clock
    value [doneAt]: [io.to(roomId)] is resolved now, against the channels
    as they are in [st]; the error of the [catch] branch is emitted on the
    requester's socket, connected or not. *)
Definition run_code_done (r : Run.t) (doneAt : Z) (st : State) : list Delivery :=
  match Run.outcome r with
  | inl result =>
      emit_to (io_to (Run.roomId r) (adapter st))
        (RunResult (Run.roomId r) (Run.language r) (Run.startedAt r)
           (doneAt - Run.startedAt r)
           (Result.exitCode result) (Result.stdout result)
           (Result.stderr result) (Result.timedOut result)
           (Result.outputTruncated result) (Run.initiatedBy r))
  | inr _ => [(Run.sid r, ErrorMsg "Failed to run code")]
  end.

(** The handler from request to result when no other event is handled
    in between, the adapter finishing at [doneAt]. *)
Definition run_code (h : Host) (sid : string) (now doneAt : Z)
           (data : option Data.t) (st : State) : list Delivery * list Action :=
  let '((out, pending), log) := run_code_request h sid now data st in
  match pending with
  | Some r => (run_code_done r doneAt st, log)
  | None => (out, log)
  end.

(* ------------------------------------------------------------------ *)
(** ** The server as a transition system *)
(* ------------------------------------------------------------------ *)

(** [RunDone i] is the return of the adapter awaited by the [i]-th
    pending run. *)
Inductive Event : Type :=
| Connection (sid : string)
| JoinRoom (sid : string) (data : option Data.t)
| CodeChange (sid : string) (data : option Data.t)
| LanguageChange (sid : string) (data : option Data.t)
| RunCode (sid : string) (data : option Data.t) (h : Host)
| RunDone (i : nat)
| Disconnect (sid : string)
| Ping (sid : string)
| CleanupTick.

Definition connected (sid : string) (st : State) : bool :=
  JsMap.has string_dec sid (adapter st).

Fixpoint remove_nth {A : Type} (i : nat) (l : list A) : list A :=
  match i, l with
  | _, [] => []
  | O, _ :: rest => rest
  | S i', x :: rest => x :: remove_nth i' rest
  end.

(** One turn of the event loop at clock value [now]. Socket events exist
    for live sockets only, and socket ids are not shared between live
    sockets. *)
Definition step (now : Z) (e : Event) (st : State) : State * list Delivery :=
  match e with
  | Connection sid =>
      if connected sid st then (st, []) else (connection sid now st, [])
  | JoinRoom sid d => if connected sid st then join_room sid now d st else (st, [])
  | CodeChange sid d => if connected sid st then code_change sid now d st else (st, [])
  | LanguageChange sid d =>
      if connected sid st then language_change sid now d st else (st, [])
  | RunCode sid d h =>
      if connected sid st then
        let '((out, pending), _) := run_code_request h sid now d st in
        (Build_State (rooms st) (userSockets st) (adapter st)
                     (runs st ++ match pending with Some r => [r] | None => [] end),
         out)
      else (st, [])
  | RunDone i =>
      match nth_error (runs st) i with
      | Some r =>
          (Build_State (rooms st) (userSockets st) (adapter st)
                       (remove_nth i (runs st)),
           run_code_done r now st)
      | None => (st, [])
      end
  | Disconnect sid => if connected sid st then disconnect sid now st else (st, [])
  | Ping sid => if connected sid st then ping sid st else (st, [])
  | CleanupTick =>
      (Build_State (cleanupInactiveRooms now (rooms st)) (userSockets st) (adapter st)
                   (runs st), [])
  end.

(** The state after a sequence of timed events, and everything sent. *)
Fixpoint run (evs : list (Z * Event)) (st : State) : State * list Delivery :=
  match evs with
  | [] => (st, [])
  | (now, e) :: rest =>
      let '(st1, out1) := step now e st in
      let '(st2, out2) := run rest st1 in
      (st2, out1 ++ out2)
  end.

(* ================================================================== *)
(** * Vocabulary of the statements *)
(* ================================================================== *)

Definition stream_eqb (a b : Stream) : bool :=
  match a, b with
  | StdoutStream, StdoutStream | StderrStream, StderrStream => true
  | _, _ => false
  end.

(** Bytes a script writes to one stream. *)
Fixpoint stream_bytes (st : Stream) (script : list ChildAct) : Z :=
  match script with
  | [] => 0
  | Emit st' chunk :: rest =>
      (if stream_eqb st st' then buffer_length chunk else 0) + stream_bytes st rest
  | Delay _ :: rest => stream_bytes st rest
  end.

(** Time a script takes to run through. *)
Fixpoint script_duration (script : list ChildAct) : Z :=
  match script with
  | [] => 0
  | Delay ms :: rest => Z.max 0 ms + script_duration rest
  | Emit _ _ :: rest => script_duration rest
  end.

(** The captured bytes of one stream. *)
Definition captured (st : Stream) (s : Sup.t) : Buffer :=
  match st with
  | StdoutStream => Sup.stdout s
  | StderrStream => Sup.stderr s
  end.

Definition other (st : Stream) : Stream :=
  match st with
  | StdoutStream => StderrStream
  | StderrStream => StdoutStream
  end.

Definition within_cap (s : Sup.t) : Prop :=
  buffer_length (Sup.stdout s) <= MAX_OUTPUT_BYTES
  /\ buffer_length (Sup.stderr s) <= MAX_OUTPUT_BYTES.

(** The log [limitedSpawn] leaves before its cleanup runs. *)
Definition spawn_log (h : Host) (cmd : string) (args : list string) (cwd : string)
  : list Action :=
  ASpawn cmd args cwd
    :: repeat (AKill cmd) (Sup.sigkills (snd (supervise (spawn h cmd args)))).

(** Where [mkdtemp] is asked to make the workspace of a request. *)
Definition workspace_prefix (h : Host) : string :=
  path_join (tmpdir h) "codesync-".

(** The commands a log shows as spawned, in order. *)
Definition spawned_cmds (log : list Action) : list string :=
  flat_map (fun a => match a with ASpawn c _ _ => [c] | _ => [] end) log.

(** Outcome of an [await rm(...)] that is not guarded: the value, or the
    rejection. *)
Definition after_rm {A : Type} (h : Host) (v : A) : A + string :=
  if rm_ok h then inl v else inr "rm".

(** A payload field as the client declares it: a string, or left out. *)
Definition typed_field (v : jsval) : bool :=
  match v with
  | JUndefined | JStr _ => true
  | _ => false
  end.

Definition typed_data (d : Data.t) : bool :=
  typed_field (Data.roomId d) && typed_field (Data.username d)
  && typed_field (Data.code d) && typed_field (Data.language d).

Definition typed_event (e : Event) : bool :=
  match e with
  | JoinRoom _ (Some d) | CodeChange _ (Some d) | LanguageChange _ (Some d)
  | RunCode _ (Some d) _ => typed_data d
  | _ => true
  end.

Definition no_empty_room (st : State) : Prop :=
  forall k r, In (k, r) (rooms st) -> 0 < JsMap.size (Room.participants r).

Definition unique_room_ids (st : State) : Prop :=
  NoDup (JsMap.keys (rooms st)).

(* ================================================================== *)
(** * Hosts and sessions used as examples *)
(* ================================================================== *)

(** A Linux host on which the file system calls succeed, except that
    [rm] succeeds only when [rm_works]; [progs] says what each command
    does when spawned. *)
Definition example_host (progs : string -> list string -> Program)
           (rm_works : bool) : Host :=
  {| execPath := "/usr/bin/node";
     win32 := false;
     tmpdir := "/tmp";
     mkdtemp := fun prefix => Some (prefix ++ "Ab3dE9")%string;
     writeFile_ok := true;
     rm_ok := rm_works;
     spawn := progs |}.

(** Every command sleeps six seconds and exits with 0. *)
Definition sleepy (_ : string) (_ : list string) : Program :=
  Runs [Delay 6000] (Exits 0) 0 [] 0.

(** No interpreter or compiler is installed: every spawn fails with
    ENOENT (errno -2 on Linux). *)
Definition nothing_installed (_ : string) (_ : list string) : Program :=
  SpawnFails "ENOENT" (-2).

Definition javac_diagnostic : string :=
  "Main.java:1: error: class, interface, enum, or record expected".

(** [javac] rejects the source with a diagnostic and exit code 1; [java]
    would print a line and exit with 0. *)
Definition javac_rejects (cmd : string) (_ : list string) : Program :=
  if String.eqb cmd "javac"
  then Runs [Emit StderrStream (list_byte_of_string javac_diagnostic)] (Exits 1) 0 [] 0
  else Runs [Emit StdoutStream (list_byte_of_string "hello")] (Exits 0) 0 [] 0.

(** [javac] and [g++] accept the source; the program prints a line. *)
Definition compiles_fine (cmd : string) (_ : list string) : Program :=
  if String.eqb cmd "javac" || String.eqb cmd "g++"
  then Runs [Delay 900] (Exits 0) 0 [] 0
  else Runs [Emit StdoutStream (list_byte_of_string "hello")] (Exits 0) 0 [] 0.

Definition join_data (roomId username : string) : option Data.t :=
  Some (Data.mk (JStr roomId) (JStr username) JUndefined JUndefined).

Definition edit_data (roomId code : string) : option Data.t :=
  Some (Data.mk (JStr roomId) JUndefined (JStr code) JUndefined).

Definition run_data (roomId code language : string) : option Data.t :=
  Some (Data.mk (JStr roomId) JUndefined (JStr code) (JStr language)).

(** Ann and Bob meet in R1. *)
Definition ann_and_bob : list (Z * Event) :=
  [ (1, Connection "sockA"); (2, Connection "sockB");
    (3, JoinRoom "sockA" (join_data "R1" "Ann"));
    (4, JoinRoom "sockB" (join_data "R1" "Bob")) ].

(** ... then Ann moves on to R2 on the same connection. *)
Definition ann_switches : list (Z * Event) :=
  ann_and_bob ++ [ (5, JoinRoom "sockA" (join_data "R2" "Ann")) ].

(** ... or a third socket connects and joins nothing. *)
Definition outsider_connects : list (Z * Event) :=
  ann_and_bob ++ [ (5, Connection "sockC") ].

Definition ann : Participant.t := Participant.mk "sockA" "Ann" 3 3.
Definition bob : Participant.t := Participant.mk "sockB" "Bob" 4 4.

(** Bob asks for a Java run in R1 at 10; a third socket connects and
    joins R1 while the adapter is at work; the adapter comes back at 25. *)
Definition latecomer_sees_result : list (Z * Event) :=
  [ (10, RunCode "sockB" (run_data "R1" "class Main {}" "java")
                 (example_host compiles_fine true));
    (11, Connection "sockC");
    (12, JoinRoom "sockC" (join_data "R1" "Cy"));
    (25, RunDone 0) ].

Definition cy : Participant.t := Participant.mk "sockC" "Cy" 12 12.

(** What Cy's join sends. *)
Definition RoomState_and_arrival_of_cy : list Delivery :=
  [ ("sockC", RoomState (JStr (default_code (JStr "R1"))) (JStr "javascript")
                        [ann; bob; cy]);
    ("sockA", UserJoined cy [ann; bob; cy]);
    ("sockB", UserJoined cy [ann; bob; cy]) ].

(** Ann asks for a Java run on a host where [javac] rejects the source
    and [rm] fails, and disconnects before the adapter is back. *)
Definition abandoned_run : list (Z * Event) :=
  [ (10, RunCode "sockA" (run_data "R1" "class {" "java")
                 (example_host javac_rejects false));
    (12, Disconnect "sockA") ].

(** U+00A0, the no-break space. *)
Definition nbsp : string :=
  String (ascii_of_N 0xC2) (String (ascii_of_N 0xA0) EmptyString).

(** Ann alone in R1. *)
Definition ann_alone : list (Z * Event) :=
  [ (1, Connection "sockA"); (2, JoinRoom "sockA" (join_data "R1" "Ann")) ].

Definition five : SafeInt := mkSafe 5 eq_refl.

(** Ann's client sends the number 5 where the username should be. *)
Definition numeric_name_join : list (Z * Event) :=
  [ (1, Connection "sockA");
    (2, JoinRoom "sockA"
                 (Some (Data.mk (JStr "R1") (JNum five) JUndefined JUndefined))) ].

(** Ann and Bob meet in a room whose id is the id of a third socket. *)
Definition room_named_like_a_socket : list (Z * Event) :=
  [ (1, Connection "sockA"); (2, Connection "sockB"); (3, Connection "sockC");
    (4, JoinRoom "sockA" (join_data "sockC" "Ann"));
    (5, JoinRoom "sockB" (join_data "sockC" "Bob")) ].

(* ================================================================== *)
(** * HTTP routes *)
(* ================================================================== *)

(** [GET /api/health]: the two counts of the answer ([status] is the
    constant ['healthy'], [uptime] is the process clock). *)
Record Health := {
  health_rooms : Z;
  health_connections : Z
}.

Definition api_health (st : State) : Health :=
  {| health_rooms := JsMap.size (rooms st);
     health_connections := JsMap.size (userSockets st) |}.

(** [GET /api/rooms/:roomId]; a route parameter is a string. *)
Inductive RoomResponse : Type :=
| NotFound404
| RoomInfo (id : jsval) (participantCount : Z) (language : jsval)
           (createdAt lastActivity : Z).

Definition api_room (roomId : string) (st : State) : RoomResponse :=
  match rget (JStr roomId) (rooms st) with
  | None => NotFound404
  | Some room =>
      RoomInfo (Room.id room) (JsMap.size (Room.participants room))
               (Room.language room) (Room.createdAt room) (Room.lastActivity room)
  end.

(* ================================================================== *)
(** * The join form of the client ([RoomJoin.tsx]) *)
(* ================================================================== *)

(** [newErrors] of [validateForm], as a function of the two fields of
    the form's state. *)
Module FormErrors.
Record t := mk {
  roomId : option string;
  username : option string
}.
End FormErrors.

Definition validateForm_errors (roomId username : string) : FormErrors.t :=
  FormErrors.mk
    (if String.eqb (trim roomId) "" then Some "Room ID is required"
     else if Nat.ltb (js_length (trim roomId)) 3
          then Some "Room ID must be at least 3 characters"
          else None)
    (if String.eqb (trim username) "" then Some "Username is required"
     else if Nat.ltb (js_length (trim username)) 2
          then Some "Username must be at least 2 characters"
          else if Nat.ltb 20 (js_length (trim username))
               then Some "Username must be less than 20 characters"
               else None).

(** [validateForm()]: [Object.keys(newErrors).length === 0] *)
Definition validateForm (roomId username : string) : bool :=
  match validateForm_errors roomId username with
  | FormErrors.mk None None => true
  | _ => false
  end.

(** [handleJoinRoom]: what is handed to [onJoinRoom], if anything; the
    editor then emits it as the [join-room] payload ([join_data]). *)
Definition handleJoinRoom (roomId username : string) : option (string * string) :=
  if validateForm roomId username then Some (trim roomId, trim username) else None.

(* ================================================================== *)
(** * Further vocabulary *)
(* ================================================================== *)

(** The bytes a script writes to one stream, in order. *)
Fixpoint written (st : Stream) (script : list ChildAct) : Buffer :=
  match script with
  | [] => []
  | Emit st' chunk :: rest =>
      (if stream_eqb st st' then chunk else []) ++ written st rest
  | Delay _ :: rest => written st rest
  end.

(** The ['close'] arguments of a child that ends by itself. *)
Definition own_close (e : Ending) : option Z * option string :=
  match e with
  | Exits c => (Some c, None)
  | Signalled sg => (None, Some sg)
  | Never => (None, Some SIGKILL)
  end.

(** The bookkeeping of kills: a running child has been signalled exactly
    when one of the two flags is set, and then once. *)
Definition kill_ledger (s : Sup.t) : Prop :=
  Sup.running s = true
  /\ Sup.killed s = (Sup.timedOut s || Sup.outputTruncated s)
  /\ Sup.sigkills s = (if Sup.killed s then 1%nat else 0%nat).

(** What is known of a capture while a child runs: it is a prefix of
    what was written so far, and nothing was cut before the cap. *)
Definition prefix_so_far (st : Stream) (s : Sup.t) (pre : Buffer) : Prop :=
  exists tail, pre = captured st s ++ tail
               /\ (tail = [] \/ buffer_length (captured st s) = MAX_OUTPUT_BYTES).

Definition supported_languages : list string :=
  ["javascript"; "typescript"; "python"; "java"; "cpp"].

(** The file-system calls of the host all succeed. *)
Definition fs_works (h : Host) : Prop :=
  (exists dir, mkdtemp h (workspace_prefix h) = Some dir)
  /\ writeFile_ok h = true /\ rm_ok h = true.

(** Every live socket is in its own channel and in at most one other. *)
Definition one_room_channel (st : State) : Prop :=
  forall sid l, In (sid, l) (adapter st) ->
    l = [JStr sid] \/ exists r, r <> JStr sid /\ l = [JStr sid; r].

(** Every participant record belongs to a live socket and is filed under
    the id it carries. *)
Definition participants_live (st : State) : Prop :=
  forall k r sid p, In (k, r) (rooms st) -> In (sid, p) (Room.participants r) ->
    connected sid st = true /\ Participant.id p = sid.

Definition live_in (ad : list (string * list jsval))
           (ps : list (string * Participant.t)) : Prop :=
  forall sid p, In (sid, p) ps ->
    JsMap.has string_dec sid ad = true /\ Participant.id p = sid.

(** A socket in the channel of a room other than its own is recorded in
    that room. *)
Definition subscribers_listed (st : State) : Prop :=
  forall sid l r, In (sid, l) (adapter st) -> In r l -> r <> JStr sid ->
    exists room, In (r, room) (rooms st)
                 /\ In sid (JsMap.keys (Room.participants room)).

(** The connection table and the transport agree on who is connected. *)
Definition tables_agree (st : State) : Prop :=
  JsMap.keys (userSockets st) = JsMap.keys (adapter st)
  /\ NoDup (JsMap.keys (adapter st)).

(** Every room is filed under the id it carries, and lists a socket at
    most once. *)
Definition well_filed (st : State) : Prop :=
  forall k r, In (k, r) (rooms st) ->
    Room.id r = k /\ NoDup (JsMap.keys (Room.participants r)).

(** The string starts with a white-space character. *)
Definition leads_with_space (p2 : ascii -> ascii -> bool)
           (p3 : ascii -> ascii -> ascii -> bool) (s : string) : bool :=
  match s with
  | EmptyString => false
  | String c1 s1 =>
      is_space c1
      || match s1 with
         | EmptyString => false
         | String c2 s2 =>
             p2 c1 c2
             || match s2 with
                | EmptyString => false
                | String c3 _ => p3 c1 c2 c3
                end
         end
  end.


(** A child that writes to both streams, pauses, and writes again. *)
Definition chatty : list ChildAct :=
  [ Emit StdoutStream (list_byte_of_string "out-1;");
    Emit StderrStream (list_byte_of_string "warn;");
    Delay 1200;
    Emit StdoutStream (list_byte_of_string "out-2;") ].

(** [python] runs (and fails with exit code 1); everything else is
    missing. *)
Definition only_python (cmd : string) (_ : list string) : Program :=
  if String.eqb cmd "python"
  then Runs [Emit StderrStream (list_byte_of_string "SyntaxError")] (Exits 1) 0 [] 0
  else SpawnFails "ENOENT" (-2).

(* ================================================================== *)
(** * Properties of the process supervisor *)
(* ================================================================== *)

Ltac sup_simpl :=
  cbn [Sup.stdout Sup.stderr Sup.outputTruncated Sup.timedOut Sup.spawnError
       Sup.killed Sup.running Sup.sigkills negb andb] in *.

Lemma killChild_fields s :
  Sup.stdout (killChild s) = Sup.stdout s
  /\ Sup.stderr (killChild s) = Sup.stderr s
  /\ Sup.outputTruncated (killChild s) = Sup.outputTruncated s
  /\ Sup.timedOut (killChild s) = Sup.timedOut s
  /\ Sup.spawnError (killChild s) = Sup.spawnError s
  /\ Sup.running (killChild s) = Sup.running s.
Proof.
  unfold killChild.
  destruct s as [o e tr to se [|] [|] n]; simpl; repeat split; reflexivity.
Qed.

Lemma killChild_kills s :
  Sup.running s = true -> Sup.killed (killChild s) = true.
Proof.
  unfold killChild; intros Hr.
  destruct (Sup.killed s) eqn:Hk; simpl; [assumption|].
  rewrite Hr; reflexivity.
Qed.

Lemma buffer_length_app a b :
  buffer_length (a ++ b) = buffer_length a + buffer_length b.
Proof. unfold buffer_length. rewrite length_app. lia. Qed.

Lemma buffer_length_nonneg b : 0 <= buffer_length b.
Proof. unfold buffer_length; lia. Qed.

Lemma buffer_slice0_length chunk n :
  0 <= n <= buffer_length chunk -> buffer_length (buffer_slice0 chunk n) = n.
Proof.
  unfold buffer_slice0, buffer_length; intros H.
  rewrite length_firstn. lia.
Qed.

(* ------------------------------------------------------------------ *)
(** ** Decoding *)
(* ------------------------------------------------------------------ *)









(** ASCII text is decoded to itself. *)
Lemma utf8_decode_ascii b :
  Forall (fun x => (Byte.to_N x < 0x80)%N) b -> utf8_decode b = b.
Proof.
  induction 1 as [|x l Hx Hl IH]; cbn [utf8_decode]; [reflexivity|].
  apply N.ltb_lt in Hx. rewrite Hx, IH. reflexivity.
Qed.

(* ------------------------------------------------------------------ *)
(** ** The data handlers *)
(* ------------------------------------------------------------------ *)

(** What one chunk does to the stream it arrives on. *)
Lemma on_data_overflow st chunk s :
  buffer_length (captured st s) <= MAX_OUTPUT_BYTES ->
  buffer_length (captured st s) + buffer_length chunk > MAX_OUTPUT_BYTES ->
  captured st (on_data st chunk s)
  = captured st s
      ++ buffer_slice0 chunk (MAX_OUTPUT_BYTES - buffer_length (captured st s))
  /\ buffer_length (captured st (on_data st chunk s)) = MAX_OUTPUT_BYTES
  /\ Sup.outputTruncated (on_data st chunk s) = true
  /\ (Sup.running s = true -> Sup.killed (on_data st chunk s) = true)
  /\ captured (other st) (on_data st chunk s) = captured (other st) s.
Proof.
  intros Hcap Hover.
  assert (Hgt : (buffer_length (captured st s) + buffer_length chunk
                 >? MAX_OUTPUT_BYTES) = true) by (apply Z.gtb_lt; lia).
  assert (Hmax : Z.max 0 (MAX_OUTPUT_BYTES - buffer_length (captured st s))
                 = MAX_OUTPUT_BYTES - buffer_length (captured st s)) by lia.
  destruct st; cbn [captured on_data other] in *;
    unfold on_stdout, on_stderr; rewrite Hgt, Hmax;
    match goal with
    | |- context [killChild ?x] =>
        pose proof (killChild_fields x) as (H1 & H2 & H3 & _);
        pose proof (killChild_kills x) as H4
    end; cbn [Sup.stdout Sup.stderr Sup.outputTruncated Sup.running] in *;
    rewrite H1, H2, H3;
    (repeat split; try reflexivity;
     [ rewrite buffer_length_app, buffer_slice0_length;
       pose proof (buffer_length_nonneg chunk); lia
     | exact H4 ]).
Qed.

Lemma on_data_fits st chunk s :
  buffer_length (captured st s) + buffer_length chunk <= MAX_OUTPUT_BYTES ->
  on_data st chunk s
  = match st with
    | StdoutStream =>
        Sup.mk (Sup.stdout s ++ chunk) (Sup.stderr s) (Sup.outputTruncated s)
               (Sup.timedOut s) (Sup.spawnError s) (Sup.killed s)
               (Sup.running s) (Sup.sigkills s)
    | StderrStream =>
        Sup.mk (Sup.stdout s) (Sup.stderr s ++ chunk) (Sup.outputTruncated s)
               (Sup.timedOut s) (Sup.spawnError s) (Sup.killed s)
               (Sup.running s) (Sup.sigkills s)
    end.
Proof.
  intros Hfit.
  assert (Hgt : (buffer_length (captured st s) + buffer_length chunk
                 >? MAX_OUTPUT_BYTES) = false).
  { destruct (_ >? _) eqn:E; [apply Z.gtb_lt in E; lia | reflexivity]. }
  destruct st; simpl in *; unfold on_stdout, on_stderr; rewrite Hgt; reflexivity.
Qed.



Lemma on_data_within_cap st chunk s :
  within_cap s -> within_cap (on_data st chunk s).
Proof.
  intros [Ho He].
  destruct (Z_le_gt_dec (buffer_length (captured st s) + buffer_length chunk)
                        MAX_OUTPUT_BYTES) as [Hfit|Hover].
  - rewrite on_data_fits by assumption.
    destruct st; simpl in *; split; simpl;
      rewrite ?buffer_length_app; assumption.
  - assert (Hc : buffer_length (captured st s) <= MAX_OUTPUT_BYTES)
      by (destruct st; assumption).
    destruct (on_data_overflow st chunk s Hc Hover) as (_ & Hlen & _ & _ & Hoth).
    destruct st; simpl in *; split; rewrite ?Hoth; try assumption; lia.
Qed.

Lemma on_timeout_within_cap s : within_cap s -> within_cap (on_timeout s).
Proof.
  unfold within_cap, on_timeout; intros H.
  match goal with
  | |- context [killChild ?x] => pose proof (killChild_fields x) as (H1 & H2 & _)
  end.
  rewrite H1, H2; exact H.
Qed.

Lemma tick_within_cap t s : within_cap s -> within_cap (tick t s).
Proof.
  unfold tick. intros H. destruct (_ && _); [apply on_timeout_within_cap, H | exact H].
Qed.

Lemma ended_within_cap s : within_cap s -> within_cap (ended s).
Proof. intros H. exact H. Qed.




Lemma init_within_cap b : within_cap (Sup.init b).
Proof. split; vm_compute; discriminate. Qed.



(** For pipes that close, [settle] is [supervise]. *)
Lemma settle_closed script ending inflight late release :
  settle script ending inflight late (ClosedAt release)
  = (Some (Z.max (fst (snd (run_child script ending inflight late 0 (Sup.init true))))
                 release,
           fst (supervise (Runs script ending inflight late release))),
     snd (supervise (Runs script ending inflight late release))).
Proof.
  unfold settle. cbn [supervise].
  destruct (run_child script ending inflight late 0 (Sup.init true))
    as [[c sg] [t s]].
  reflexivity.
Qed.

Lemma limitedSpawn_resolves h cmd args cwd cleanup log :
  limitedSpawn h cmd args cwd cleanup log
  = (inl (fst (supervise (spawn h cmd args))),
     match cleanup with
     | Some c => snd (c (log ++ spawn_log h cmd args cwd))
     | None => log ++ spawn_log h cmd args cwd
     end).
Proof.
  unfold limitedSpawn, bind, tell, ret, swallow, spawn_log.
  destruct (supervise (spawn h cmd args)) as [payload s]; cbn [fst snd].
  rewrite <- app_assoc; cbn [app].
  destruct cleanup as [c|]; [|reflexivity].
  destruct (c _) as [x l]; reflexivity.
Qed.

Lemma on_timeout_effect s :
  Sup.timedOut (on_timeout s) = true
  /\ (Sup.running s = true -> Sup.killed (on_timeout s) = true)
  /\ (Sup.running s = true -> Sup.killed s = false ->
      Sup.sigkills (on_timeout s) = S (Sup.sigkills s))
  /\ Sup.outputTruncated (on_timeout s) = Sup.outputTruncated s
  /\ (Sup.killed s = true \/ Sup.running s = false ->
      Sup.killed (on_timeout s) = Sup.killed s
      /\ Sup.sigkills (on_timeout s) = Sup.sigkills s).
Proof.
  destruct s as [o e tr to se k r n]; unfold on_timeout, killChild; sup_simpl.
  destruct k, r; sup_simpl; repeat split; try reflexivity;
    try (intros; discriminate); try (intros [Hx|Hx]; discriminate);
    try (intros _; split; reflexivity); auto;
    match goal with Hx : _ \/ _ |- _ => destruct Hx; discriminate end.
Qed.

(* ------------------------------------------------------------------ *)
(** ** The event loop *)
(* ------------------------------------------------------------------ *)

Lemma script_duration_nonneg script : 0 <= script_duration script.
Proof.
  induction script as [|[st chunk|ms] rest IH]; cbn [script_duration]; lia.
Qed.

Lemma stream_bytes_nonneg st script : 0 <= stream_bytes st script.
Proof.
  induction script as [|[st' chunk|ms] rest IH]; cbn [stream_bytes]; try lia.
  pose proof (buffer_length_nonneg chunk). destruct (stream_eqb st st'); lia.
Qed.

Lemma stream_eqb_eq a b : stream_eqb a b = true -> a = b.
Proof. destruct a, b; cbn; intros H; try discriminate; reflexivity. Qed.

Lemma stream_eqb_other a b : stream_eqb a b = false -> a = other b.
Proof. destruct a, b; cbn; intros H; try discriminate; reflexivity. Qed.

Lemma on_data_other st chunk s :
  captured (other st) (on_data st chunk s) = captured (other st) s.
Proof.
  destruct s as [o e tr to se k r n].
  destruct st; unfold on_data, on_stdout, on_stderr, killChild; sup_simpl;
    destruct (_ >? _); sup_simpl; cbn [captured other];
    destruct k, r; reflexivity.
Qed.

(** Once the child has been signalled, or has ended, chunks send no
    signal. *)
Lemma on_data_no_signal st chunk s :
  Sup.killed s = true \/ Sup.running s = false ->
  Sup.killed (on_data st chunk s) = Sup.killed s
  /\ Sup.sigkills (on_data st chunk s) = Sup.sigkills s
  /\ Sup.running (on_data st chunk s) = Sup.running s
  /\ Sup.timedOut (on_data st chunk s) = Sup.timedOut s
  /\ (Sup.outputTruncated s = true -> Sup.outputTruncated (on_data st chunk s) = true).
Proof.
  destruct s as [o e tr to se k r n]; sup_simpl. intros H.
  destruct st; unfold on_data, on_stdout, on_stderr, killChild; sup_simpl;
    destruct (_ >? _); sup_simpl; destruct k, r; sup_simpl;
    repeat split; try reflexivity; try (intros; assumption);
    destruct H; discriminate.
Qed.

Lemma tick_effect t s :
  Sup.timedOut (tick t s) = (Sup.timedOut s || (EXECUTION_TIMEOUT_MS <=? t))
  /\ Sup.outputTruncated (tick t s) = Sup.outputTruncated s
  /\ Sup.running (tick t s) = Sup.running s
  /\ Sup.stdout (tick t s) = Sup.stdout s
  /\ Sup.stderr (tick t s) = Sup.stderr s
  /\ Sup.spawnError (tick t s) = Sup.spawnError s
  /\ (Sup.killed s = true \/ Sup.running s = false ->
      Sup.killed (tick t s) = Sup.killed s
      /\ Sup.sigkills (tick t s) = Sup.sigkills s).
Proof.
  unfold tick.
  destruct (Sup.timedOut s) eqn:Et; cbn [negb andb orb];
    [rewrite Et; repeat split; reflexivity|].
  destruct (EXECUTION_TIMEOUT_MS <=? t); [|rewrite Et; repeat split; reflexivity].
  destruct (on_timeout_effect s) as (H1 & _ & _ & H4 & H5).
  assert (K : Sup.stdout (on_timeout s) = Sup.stdout s
              /\ Sup.stderr (on_timeout s) = Sup.stderr s
              /\ Sup.spawnError (on_timeout s) = Sup.spawnError s
              /\ Sup.running (on_timeout s) = Sup.running s).
  { unfold on_timeout.
    match goal with
    | |- context [killChild ?x] =>
        pose proof (killChild_fields x) as (K1 & K2 & _ & _ & K5 & K6)
    end.
    sup_simpl. auto. }
  destruct K as (K1 & K2 & K5 & K6).
  rewrite H1. cbn [orb]. repeat split; auto; apply H5; assumption.
Qed.

Lemma drain_no_signal n : forall script s,
  Sup.killed s = true \/ Sup.running s = false ->
  Sup.killed (drain n script s) = Sup.killed s
  /\ Sup.sigkills (drain n script s) = Sup.sigkills s
  /\ Sup.timedOut (drain n script s) = Sup.timedOut s
  /\ (Sup.outputTruncated s = true -> Sup.outputTruncated (drain n script s) = true).
Proof.
  induction n as [|n IH]; intros script s H; cbn [drain]; [auto|].
  destruct script as [|[st chunk|ms] rest]; auto.
  destruct (on_data_no_signal st chunk s H) as (Hk & Hn & Hr & Ht & Htr).
  destruct (IH rest (on_data st chunk s)) as (Hk' & Hn' & Ht' & Htr').
  { rewrite Hk, Hr. exact H. }
  rewrite Hk', Hn', Ht', Hk, Hn, Ht.
  repeat split; try reflexivity. intros Hx. apply Htr', Htr, Hx.
Qed.

(** After the process has ended by itself nothing is signalled any more;
    the flags can still be raised. *)
Lemma after_exit_no_signal late : forall t s,
  Sup.running s = false ->
  Sup.killed (snd (after_exit late t s)) = Sup.killed s
  /\ Sup.sigkills (snd (after_exit late t s)) = Sup.sigkills s
  /\ Sup.running (snd (after_exit late t s)) = false.
Proof.
  induction late as [|[st chunk|ms] rest IH]; intros t s Hr; cbn [after_exit snd].
  - auto.
  - destruct (on_data_no_signal st chunk s (or_intror Hr)) as (Hk & Hn & Hr' & _).
    destruct (IH t (on_data st chunk s)) as (Hk' & Hn' & Hr''); [congruence|].
    rewrite Hk', Hn', Hk, Hn. auto.
  - destruct (tick_effect (t + Z.max 0 ms) s) as (_ & _ & Hr' & _ & _ & _ & Hs).
    destruct (Hs (or_intror Hr)) as [Hk Hn].
    destruct (IH (t + Z.max 0 ms) (tick (t + Z.max 0 ms) s)) as (Hk' & Hn' & Hr'');
      [congruence|].
    rewrite Hk', Hn', Hk, Hn. auto.
Qed.


(** A child that stays under both caps and is still running when the
    timer expires is killed by the timer. *)
Lemma run_child_deadline script ending inflight late : forall t s,
  t < EXECUTION_TIMEOUT_MS ->
  Sup.running s = true -> Sup.killed s = false ->
  buffer_length (Sup.stdout s) + stream_bytes StdoutStream script <= MAX_OUTPUT_BYTES ->
  buffer_length (Sup.stderr s) + stream_bytes StderrStream script <= MAX_OUTPUT_BYTES ->
  EXECUTION_TIMEOUT_MS <= t + script_duration script \/ ending = Never ->
  fst (run_child script ending inflight late t s) = (None, Some SIGKILL)
  /\ fst (snd (run_child script ending inflight late t s)) = EXECUTION_TIMEOUT_MS
  /\ Sup.timedOut (snd (snd (run_child script ending inflight late t s))) = true
  /\ Sup.killed (snd (snd (run_child script ending inflight late t s))) = true
  /\ Sup.sigkills (snd (snd (run_child script ending inflight late t s)))
     = S (Sup.sigkills s).
Proof.
  induction script as [|[st chunk|ms] rest IH]; intros t s Ht Hr Hk Ho He Hd;
    cbn [run_child stream_bytes script_duration] in *.
  - destruct Hd as [Hd| ->]; [lia|]. cbn [fst snd].
    destruct (on_timeout_effect s) as (H1 & H2 & H3 & H4 & _).
    cbn [ended Sup.killed Sup.sigkills Sup.timedOut Sup.outputTruncated].
    repeat split; auto. lia.
  - pose proof (buffer_length_nonneg chunk) as Hc.
    pose proof (stream_bytes_nonneg StdoutStream rest).
    pose proof (stream_bytes_nonneg StderrStream rest).
    assert (Hfit : buffer_length (captured st s) + buffer_length chunk
                   <= MAX_OUTPUT_BYTES).
    { destruct st; cbn [captured stream_eqb] in *; lia. }
    rewrite (on_data_fits st chunk s Hfit).
    destruct st; sup_simpl; rewrite Hk;
      (match goal with
       | |- context [run_child rest ending inflight late t ?s1] =>
           specialize (IH t s1 Ht Hr eq_refl)
       end; sup_simpl; cbn [stream_eqb] in *;
       rewrite ?buffer_length_app in IH; apply IH; try lia; exact Hd).
  - destruct (EXECUTION_TIMEOUT_MS <=? t + Z.max 0 ms) eqn:E.
    + cbn [fst snd]. destruct (on_timeout_effect s) as (H1 & H2 & H3 & H4 & _).
      destruct (drain_no_signal inflight rest (ended (on_timeout s)))
        as (D1 & D2 & D3 & D4); [left; exact (H2 Hr)|].
      cbn [ended Sup.killed Sup.sigkills Sup.timedOut Sup.outputTruncated] in *.
      rewrite D1, D2, D3.
      split; [reflexivity|]. split; [reflexivity|]. split; [exact H1|].
      split; [exact (H2 Hr) | exact (H3 Hr Hk)].
    + apply Z.leb_gt in E.
      apply IH; try assumption.
      destruct Hd as [Hd|Hd]; [left; lia | right; exact Hd].
Qed.



(** C6. The timer is set at spawn for 5000 ms and its callback sets
    [timedOut] and kills; but the promise is resolved from ['close'] alone,
    and ['close'] waits for the pipes. A child that loops for ever is
    killed at 5000 ms and reported at once when nothing else holds its
    pipes. When a descendant holds them for 9053 ms the same payload comes
    at 9053 ms; when a descendant holds them for good the timer has
    fired, the one SIGKILL has been sent, and the call never returns. *)
Theorem timeout_leaves_call_pending :
  let looping := settle [] Never 0 [] in
  let payload := Result.mk None (Some SIGKILL) "" "" true false None in
  fst (looping (ClosedAt 0)) = Some (5000, payload)
  /\ fst (looping (ClosedAt 9053)) = Some (9053, payload)
  /\ fst (looping LeftOpen) = None
  /\ Sup.timedOut (snd (looping LeftOpen)) = true
  /\ Sup.killed (snd (looping LeftOpen)) = true
  /\ Sup.sigkills (snd (looping LeftOpen)) = 1%nat.
Proof. vm_compute. repeat split; reflexivity. Qed.

(* ================================================================== *)
(** * Properties of the language adapters *)
(* ================================================================== *)

Ltac run_fs Hmk Hwf :=
  unfold workspace_prefix in *;
  unfold bind, fs_mkdtemp, fs_writeFile, fs_rm, tell, ret, throw, swallow;
  rewrite ?Hmk, ?Hwf; cbn [bind tell ret fst snd];
  rewrite ?limitedSpawn_resolves;
  unfold bind, fs_mkdtemp, fs_writeFile, fs_rm, tell, ret, throw, swallow;
  cbn [fst snd].

Ltac log_eq :=
  cbn [fst snd];
  repeat first [rewrite <- app_assoc | progress cbn [app]];
  reflexivity.

Lemma runJavaScript_eq h code log dir :
  mkdtemp h (workspace_prefix h) = Some dir ->
  writeFile_ok h = true ->
  let filePath := path_join dir "main.mjs" in
  runJavaScript h code log
  = (inl (fst (supervise (spawn h (execPath h) [filePath]))),
     log ++ AMkdtemp dir :: AWriteFile filePath code
         :: spawn_log h (execPath h) [filePath] dir ++ [ARm dir (rm_ok h)]).
Proof.
  intros Hmk Hwf filePath. unfold runJavaScript.
  run_fs Hmk Hwf. fold filePath.
  destruct (rm_ok h); log_eq.
Qed.

Lemma runPython_eq h code log dir :
  mkdtemp h (workspace_prefix h) = Some dir ->
  writeFile_ok h = true ->
  let filePath := path_join dir "main.py" in
  let res := fst (supervise (spawn h "python" [filePath])) in
  let log1 := log ++ AMkdtemp dir :: AWriteFile filePath code
                  :: spawn_log h "python" [filePath] dir ++ [ARm dir (rm_ok h)] in
  runPython h code log
  = if spawnError_is_ENOENT res then
      (inl (fst (supervise (spawn h "py" ["-3"; filePath]))),
       log1 ++ spawn_log h "py" ["-3"; filePath] dir ++ [ARm dir (rm_ok h)])
    else (inl res, log1).
Proof.
  intros Hmk Hwf filePath res log1. unfold runPython.
  run_fs Hmk Hwf. fold filePath. fold res.
  destruct (spawnError_is_ENOENT res).
  - rewrite limitedSpawn_resolves. unfold log1.
    unfold bind, tell, ret, throw. destruct (rm_ok h); log_eq.
  - unfold log1. destruct (rm_ok h); log_eq.
Qed.

Lemma runJava_eq h code log dir :
  mkdtemp h (workspace_prefix h) = Some dir ->
  writeFile_ok h = true ->
  let srcPath := path_join dir "Main.java" in
  let compile := fst (supervise (spawn h "javac" [srcPath])) in
  let run := fst (supervise (spawn h "java" ["-cp"; dir; "Main"])) in
  let log1 := log ++ AMkdtemp dir :: AWriteFile srcPath code
                  :: spawn_log h "javac" [srcPath] dir in
  runJava h code log
  = if spawnError_is_ENOENT compile then
      (after_rm h javac_missing, log1 ++ [ARm dir (rm_ok h)])
    else if exitCode_nonzero compile then
      (after_rm h compile, log1 ++ [ARm dir (rm_ok h)])
    else
      (inl (if spawnError_is_ENOENT run then java_missing_note run else run),
       log1 ++ spawn_log h "java" ["-cp"; dir; "Main"] dir ++ [ARm dir (rm_ok h)]).
Proof.
  intros Hmk Hwf srcPath compile run log1. unfold runJava.
  run_fs Hmk Hwf. fold srcPath. fold compile.
  unfold log1, after_rm.
  destruct (spawnError_is_ENOENT compile).
  - destruct (rm_ok h); log_eq.
  - destruct (exitCode_nonzero compile).
    + destruct (rm_ok h); log_eq.
    + rewrite limitedSpawn_resolves. fold run.
      unfold bind, tell, ret, throw.
      destruct (rm_ok h); cbn [snd];
        destruct (spawnError_is_ENOENT run); log_eq.
Qed.

Lemma runCpp_eq h code log dir :
  mkdtemp h (workspace_prefix h) = Some dir ->
  writeFile_ok h = true ->
  let srcPath := path_join dir "main.cpp" in
  let exeName := if win32 h then "main.exe" else "main" in
  let exePath := path_join dir exeName in
  let cc_args := ["-O2"; "-std=c++17"; "-o"; exePath; srcPath] in
  let runCmd := if win32 h then exePath else ("./" ++ exeName)%string in
  let gxx := fst (supervise (spawn h "g++" cc_args)) in
  let clang := fst (supervise (spawn h "clang++" cc_args)) in
  let compile := if spawnError_is_ENOENT gxx then clang else gxx in
  let log1 := log ++ AMkdtemp dir :: AWriteFile srcPath code
                  :: spawn_log h "g++" cc_args dir
                  ++ (if spawnError_is_ENOENT gxx
                      then spawn_log h "clang++" cc_args dir else []) in
  runCpp h code log
  = if spawnError_is_ENOENT compile then
      (after_rm h cpp_missing, log1 ++ [ARm dir (rm_ok h)])
    else if exitCode_nonzero compile then
      (after_rm h compile, log1 ++ [ARm dir (rm_ok h)])
    else
      (inl (fst (supervise (spawn h runCmd []))),
       log1 ++ spawn_log h runCmd [] dir ++ [ARm dir (rm_ok h)]).
Proof.
  intros Hmk Hwf srcPath exeName exePath cc_args runCmd gxx clang compile log1.
  unfold runCpp.
  run_fs Hmk Hwf. fold srcPath. fold exeName. fold exePath. fold cc_args.
  fold gxx. unfold log1, compile, after_rm.
  destruct (spawnError_is_ENOENT gxx) eqn:Eg.
  - rewrite limitedSpawn_resolves. fold clang. cbn [snd].
    destruct (spawnError_is_ENOENT clang).
    + destruct (rm_ok h); log_eq.
    + destruct (exitCode_nonzero clang).
      * destruct (rm_ok h); log_eq.
      * rewrite limitedSpawn_resolves. fold runCmd.
        unfold bind, tell, ret, throw. destruct (rm_ok h); log_eq.
  - rewrite Eg. rewrite app_nil_r.
    destruct (exitCode_nonzero gxx).
    + destruct (rm_ok h); log_eq.
    + rewrite limitedSpawn_resolves. fold runCmd.
      unfold bind, tell, ret, throw. destruct (rm_ok h); log_eq.
Qed.

Lemma spawned_cmds_app l1 l2 :
  spawned_cmds (l1 ++ l2) = spawned_cmds l1 ++ spawned_cmds l2.
Proof. unfold spawned_cmds. apply flat_map_app. Qed.

Lemma spawned_cmds_spawn_log h cmd args cwd :
  spawned_cmds (spawn_log h cmd args cwd) = [cmd].
Proof.
  unfold spawn_log. generalize (Sup.sigkills (snd (supervise (spawn h cmd args)))).
  intros n. cbn [spawned_cmds flat_map app]. f_equal.
  induction n as [|n IH]; [reflexivity | exact IH].
Qed.

Ltac cmds :=
  cbn [snd]; rewrite ?spawned_cmds_app;
  change (spawned_cmds (AMkdtemp ?d :: AWriteFile ?f ?c :: ?l))
    with (spawned_cmds l);
  rewrite ?spawned_cmds_app, ?spawned_cmds_spawn_log;
  cbn [spawned_cmds flat_map app]; rewrite ?app_nil_r;
  repeat first [rewrite <- app_assoc | progress cbn [app]];
  reflexivity.

(** C8. Java and C++ are compiled first. When the compiler ran and did
    not exit with 0, the adapter returns the very payload of the compile
    step; whenever the compile step fails (that, or no compiler to spawn)
    nothing is spawned after the compiler. When the compiler exits with 0,
    the adapter returns the payload of a new supervised execution of the
    produced program, which starts from empty captures and a new timer
    (for Java with a note appended if [java] is missing). The workspace
    calls ([mkdtemp], [writeFile], [rm]) are taken to succeed. *)
Theorem compile_failure_skips_run :
  forall (h : Host) (code : string) (log : list Action) (dir : string),
    mkdtemp h (workspace_prefix h) = Some dir ->
    writeFile_ok h = true ->
    rm_ok h = true ->
    (let compile := fst (supervise (spawn h "javac" [path_join dir "Main.java"])) in
     let run := fst (supervise (spawn h "java" ["-cp"; dir; "Main"])) in
     (spawnError_is_ENOENT compile = false -> exitCode_nonzero compile = true ->
      fst (runJava h code log) = inl compile)
     /\ (spawnError_is_ENOENT compile = true \/ exitCode_nonzero compile = true ->
         spawned_cmds (snd (runJava h code log)) = spawned_cmds log ++ ["javac"])
     /\ (spawnError_is_ENOENT compile = false -> exitCode_nonzero compile = false ->
         fst (runJava h code log)
         = inl (if spawnError_is_ENOENT run then java_missing_note run else run)
         /\ spawned_cmds (snd (runJava h code log))
            = spawned_cmds log ++ ["javac"; "java"]))
    /\
    (let exeName := if win32 h then "main.exe" else "main" in
     let exePath := path_join dir exeName in
     let cc_args := ["-O2"; "-std=c++17"; "-o"; exePath; path_join dir "main.cpp"] in
     let runCmd := if win32 h then exePath else ("./" ++ exeName)%string in
     let gxx := fst (supervise (spawn h "g++" cc_args)) in
     let clang := fst (supervise (spawn h "clang++" cc_args)) in
     let compile := if spawnError_is_ENOENT gxx then clang else gxx in
     let compilers := if spawnError_is_ENOENT gxx then ["g++"; "clang++"] else ["g++"] in
     (spawnError_is_ENOENT compile = false -> exitCode_nonzero compile = true ->
      fst (runCpp h code log) = inl compile)
     /\ (spawnError_is_ENOENT compile = true \/ exitCode_nonzero compile = true ->
         spawned_cmds (snd (runCpp h code log)) = spawned_cmds log ++ compilers)
     /\ (spawnError_is_ENOENT compile = false -> exitCode_nonzero compile = false ->
         fst (runCpp h code log) = inl (fst (supervise (spawn h runCmd [])))
         /\ spawned_cmds (snd (runCpp h code log))
            = spawned_cmds log ++ compilers ++ [runCmd])).
Proof.
  intros h code log dir Hmk Hwf Hrm. split.
  - intros compile run.
    pose proof (runJava_eq h code log dir Hmk Hwf) as E. cbv zeta in E.
    fold compile in E. fold run in E. rewrite E. unfold after_rm. rewrite Hrm.
    destruct (spawnError_is_ENOENT compile), (exitCode_nonzero compile);
      (split; [|split]); intros; try discriminate;
      try match goal with H : _ \/ _ |- _ => destruct H; try discriminate end;
      try reflexivity; try (split; [reflexivity|]); cmds.
  - intros exeName exePath cc_args runCmd gxx clang compile compilers.
    pose proof (runCpp_eq h code log dir Hmk Hwf) as E. cbv zeta in E.
    fold exeName in E. fold exePath in E. fold cc_args in E. fold runCmd in E.
    fold gxx in E. fold clang in E. fold compile in E. rewrite E.
    unfold after_rm, compilers. rewrite Hrm.
    destruct (spawnError_is_ENOENT compile), (exitCode_nonzero compile);
      (split; [|split]); intros; try discriminate;
      try match goal with H : _ \/ _ |- _ => destruct H; try discriminate end;
      try reflexivity; try (split; [reflexivity|]);
      destruct (spawnError_is_ENOENT gxx); cmds.
Qed.

(** A Java source that [javac] rejects. *)
Lemma compile_failure_skips_run_witness :
  let h := example_host javac_rejects true in
  let dir := "/tmp/codesync-Ab3dE9" in
  let compile := fst (supervise (spawn h "javac" [path_join dir "Main.java"])) in
  mkdtemp h (workspace_prefix h) = Some dir
  /\ writeFile_ok h = true
  /\ rm_ok h = true
  /\ spawnError_is_ENOENT compile = false
  /\ exitCode_nonzero compile = true
  /\ fst (runJava h "class {" []) = inl compile
  /\ spawned_cmds (snd (runJava h "class {" [])) = ["javac"]
  /\ Result.exitCode compile = Some 1
  /\ Result.stderr compile = javac_diagnostic.
Proof.
  intros h dir compile.
  assert (H1 : mkdtemp h (workspace_prefix h) = Some dir) by reflexivity.
  assert (H2 : writeFile_ok h = true) by reflexivity.
  assert (H3 : rm_ok h = true) by reflexivity.
  assert (H4 : spawnError_is_ENOENT compile = false) by reflexivity.
  assert (H5 : exitCode_nonzero compile = true) by reflexivity.
  destruct (compile_failure_skips_run h "class {" [] dir H1 H2 H3) as [HJ _].
  destruct HJ as (R1 & R2 & _).
  split; [exact H1|]. split; [exact H2|]. split; [exact H3|].
  split; [exact H4|]. split; [exact H5|].
  split; [exact (R1 H4 H5)|].
  split; [exact (R2 (or_intror H5))|].
  split; reflexivity.
Defined.

(** A Java source that compiles: the program is run after the compiler
    and its output is what comes back. *)
Example java_success_runs_program :
  let h := example_host compiles_fine true in
  fst (runJava h "class Main {}" [])
  = inl (Result.mk (Some 0) None "hello" "" false false None)
  /\ spawned_cmds (snd (runJava h "class Main {}" [])) = ["javac"; "java"].
Proof. split; vm_compute; reflexivity. Qed.

Ltac in_log :=
  match goal with
  | |- In ?x (?x :: _) => left; reflexivity
  | |- In _ (_ :: _) => right; in_log
  | |- In _ (_ ++ _) => apply in_or_app; right; in_log
  end.

(** Every adapter asks for the removal of its workspace, whatever the
    supervised steps did. *)
Lemma workspace_removal_requested h language code m log dir :
  dispatch h language code = Some m ->
  mkdtemp h (workspace_prefix h) = Some dir ->
  writeFile_ok h = true ->
  In (ARm dir (rm_ok h)) (snd (m log)).
Proof.
  intros Hd Hmk Hwf. unfold dispatch in Hd.
  destruct (language_is language "javascript" || language_is language "typescript").
  { inversion Hd; subst m.
    rewrite (runJavaScript_eq h code log dir Hmk Hwf). cbn [snd]. in_log. }
  destruct (language_is language "python").
  { inversion Hd; subst m.
    pose proof (runPython_eq h code log dir Hmk Hwf) as E. cbv zeta in E.
    rewrite E. destruct (spawnError_is_ENOENT _); cbn [snd]; in_log. }
  destruct (language_is language "java").
  { inversion Hd; subst m.
    pose proof (runJava_eq h code log dir Hmk Hwf) as E. cbv zeta in E.
    rewrite E.
    destruct (spawnError_is_ENOENT _); [cbn [snd]; in_log|].
    destruct (exitCode_nonzero _); cbn [snd]; in_log. }
  destruct (language_is language "cpp"); [|discriminate].
  inversion Hd; subst m.
  pose proof (runCpp_eq h code log dir Hmk Hwf) as E. cbv zeta in E.
  rewrite E.
  match goal with
  | |- context [if spawnError_is_ENOENT (if ?c then ?a else ?b) then _ else _] =>
      destruct (spawnError_is_ENOENT (if c then a else b))
  end; [cbn [snd]; in_log|].
  destruct (exitCode_nonzero _); cbn [snd]; in_log.
Qed.

(** When the removal runs as the cleanup of a supervised step, its
    failure does not reach the caller. *)
Lemma supervised_cleanup_failure_swallowed h code log dir :
  mkdtemp h (workspace_prefix h) = Some dir ->
  writeFile_ok h = true ->
  (exists r, fst (runJavaScript h code log) = inl r)
  /\ (exists r, fst (runPython h code log) = inl r).
Proof.
  intros Hmk Hwf. split.
  - rewrite (runJavaScript_eq h code log dir Hmk Hwf). eexists; reflexivity.
  - pose proof (runPython_eq h code log dir Hmk Hwf) as E. cbv zeta in E.
    rewrite E. destruct (spawnError_is_ENOENT _); eexists; reflexivity.
Qed.

(** With neither interpreter installed the Python adapter hands back the
    payload of the failed [py] spawn as it is. *)
Lemma runPython_nothing_to_run h code log dir e1 e2 :
  mkdtemp h (workspace_prefix h) = Some dir ->
  writeFile_ok h = true ->
  spawn h "python" [path_join dir "main.py"] = SpawnFails "ENOENT" e1 ->
  spawn h "py" ["-3"; path_join dir "main.py"] = SpawnFails "ENOENT" e2 ->
  fst (runPython h code log)
  = inl (Result.mk (Some e2) None "" "" false false (Some "ENOENT")).
Proof.
  intros Hmk Hwf H1 H2.
  pose proof (runPython_eq h code log dir Hmk Hwf) as E. cbv zeta in E.
  rewrite E, H1, H2. reflexivity.
Qed.

(** C7. A Python request on a host with neither [python] nor [py]: the
    room gets a run-result whose exit code is the errno of the failed
    spawn and whose stderr is empty. On the same host the Java and C++
    adapters report exit code [null] and a message naming the missing
    compiler. *)
Theorem python_missing_not_explained :
  let h := example_host nothing_installed true in
  let st := fst (run ann_alone initial_state) in
  fst (run_code h "sockA" 10 25 (run_data "R1" "print(1)" "python") st)
  = [("sockA", RunResult (JStr "R1") (JStr "python") 10 15
                 (Some (-2)) "" "" false false "Ann")]
  /\ fst (run_code h "sockA" 10 25 (run_data "R1" "class Main {}" "java") st)
     = [("sockA", RunResult (JStr "R1") (JStr "java") 10 15
                    None "" "javac not found. Install JDK." false false "Ann")]
  /\ fst (run_code h "sockA" 10 25 (run_data "R1" "int main() {}" "cpp") st)
     = [("sockA", RunResult (JStr "R1") (JStr "cpp") 10 15
                    None "" "C++ compiler not found (g++/clang++)."
                    false false "Ann")].
Proof. repeat split; vm_compute; reflexivity. Qed.

(** C9. A Java request whose source [javac] rejects, on a host where
    [rm] of the workspace rejects: the adapter throws, the compile
    payload is lost and the requester gets the generic error. With a
    working [rm] the room gets the compiler's diagnostic; and where the
    removal is the supervisor's cleanup (the JavaScript adapter) the same
    failing [rm] leaves the result untouched. *)
Theorem rm_failure_loses_compile_result :
  let broken := example_host javac_rejects false in
  let sound := example_host javac_rejects true in
  let st := fst (run ann_alone initial_state) in
  fst (runJava broken "class {" []) = inr "rm"
  /\ fst (run_code broken "sockA" 10 25 (run_data "R1" "class {" "java") st)
     = [("sockA", ErrorMsg "Failed to run code")]
  /\ fst (run_code sound "sockA" 10 25 (run_data "R1" "class {" "java") st)
     = [("sockA", RunResult (JStr "R1") (JStr "java") 10 15
                    (Some 1) "" javac_diagnostic false false "Ann")]
  /\ fst (run_code broken "sockA" 10 25 (run_data "R1" "1" "javascript") st)
     = [("sockA", RunResult (JStr "R1") (JStr "javascript") 10 15
                    (Some 0) "hello" "" false false "Ann")].
Proof. repeat split; vm_compute; reflexivity. Qed.

(* ================================================================== *)
(** * Facts about [JsMap] *)
(* ================================================================== *)

Section JsMapFacts.
Context {K V : Type}.
Variable dec : forall a b : K, {a = b} + {a <> b}.

Implicit Types (k : K) (v : V) (m : list (K * V)).

Lemma get_set_same k v m : JsMap.get dec k (JsMap.set dec k v m) = Some v.
Proof.
  induction m as [|[k' v'] m IH]; cbn [JsMap.set JsMap.get].
  - destruct (dec k k); [reflexivity | contradiction].
  - destruct (dec k k') as [E|N]; cbn [JsMap.get].
    + destruct (dec k k'); [reflexivity | contradiction].
    + destruct (dec k k'); [contradiction | exact IH].
Qed.

Lemma get_set_other k k' v m :
  k <> k' -> JsMap.get dec k' (JsMap.set dec k v m) = JsMap.get dec k' m.
Proof.
  intros N.
  induction m as [|[k0 v0] m IH]; cbn [JsMap.set JsMap.get].
  - destruct (dec k' k); [congruence | reflexivity].
  - destruct (dec k k0) as [E|N0]; cbn [JsMap.get].
    + subst k0. destruct (dec k' k); [congruence | reflexivity].
    + destruct (dec k' k0); [reflexivity | exact IH].
Qed.

Lemma set_set k v w m :
  JsMap.set dec k v (JsMap.set dec k w m) = JsMap.set dec k v m.
Proof.
  induction m as [|[k0 v0] m IH]; cbn [JsMap.set].
  - destruct (dec k k); [reflexivity | contradiction].
  - destruct (dec k k0) as [E|N]; cbn [JsMap.set].
    + destruct (dec k k0); [reflexivity | contradiction].
    + destruct (dec k k0); [contradiction | rewrite IH; reflexivity].
Qed.

Lemma In_set k v m k' v' :
  In (k', v') (JsMap.set dec k v m) -> (k' = k /\ v' = v) \/ In (k', v') m.
Proof.
  induction m as [|[k0 v0] m IH]; cbn [JsMap.set].
  - intros [E|[]]; inversion E; auto.
  - destruct (dec k k0) as [E|N].
    + subst k0. intros [E|H]; [inversion E; auto | right; right; exact H].
    + intros [E|H]; [right; left; exact E|].
      destruct (IH H) as [?|?]; [left; assumption | right; right; assumption].
Qed.

Lemma get_In k v m : JsMap.get dec k m = Some v -> In (k, v) m.
Proof.
  induction m as [|[k0 v0] m IH]; cbn [JsMap.get]; [discriminate|].
  destruct (dec k k0) as [E|N].
  - intros H; inversion H; subst; left; reflexivity.
  - intros H; right; apply IH, H.
Qed.

Lemma get_None_not_in k m :
  ~ In k (JsMap.keys m) -> JsMap.get dec k m = None.
Proof.
  induction m as [|[k0 v0] m IH]; cbn [JsMap.get JsMap.keys map fst];
    [reflexivity|].
  intros H. destruct (dec k k0) as [E|N].
  - exfalso; apply H; left; symmetry; exact E.
  - apply IH. intros Hin; apply H; right; exact Hin.
Qed.

Lemma set_not_nil k v m : JsMap.set dec k v m <> [].
Proof.
  destruct m as [|[k0 v0] m]; cbn [JsMap.set]; [discriminate|].
  destruct (dec k k0); discriminate.
Qed.

Lemma keys_set_in k v m k' :
  In k' (JsMap.keys (JsMap.set dec k v m)) -> k' = k \/ In k' (JsMap.keys m).
Proof.
  induction m as [|[k0 v0] m IH]; cbn [JsMap.set JsMap.keys map fst].
  - intros [E|[]]; left; symmetry; exact E.
  - destruct (dec k k0) as [E|N]; cbn [map fst].
    + intros H; right; exact H.
    + intros [E|H]; [right; left; exact E|].
      destruct (IH H) as [?|?]; [left; assumption | right; right; assumption].
Qed.

Lemma NoDup_keys_set k v m :
  NoDup (JsMap.keys m) -> NoDup (JsMap.keys (JsMap.set dec k v m)).
Proof.
  induction m as [|[k0 v0] m IH]; cbn [JsMap.set JsMap.keys map fst].
  - intros _. constructor; [intros [] | constructor].
  - intros H. inversion H as [|x l Hx Hl]; subst.
    destruct (dec k k0) as [E|N]; cbn [map fst].
    + constructor; assumption.
    + constructor; [|apply IH, Hl].
      intros Hin. destruct (keys_set_in k v m k0 Hin) as [E|Hin'];
        [congruence | contradiction].
Qed.

Lemma delete_only_key k m :
  (forall key, In key (JsMap.keys m) -> key = k) -> JsMap.delete dec k m = [].
Proof.
  induction m as [|[k0 v0] m IH]; cbn [JsMap.delete JsMap.keys map fst];
    [reflexivity|].
  intros H. destruct (dec k k0) as [E|N].
  - apply IH. intros key Hk. apply H. right; exact Hk.
  - exfalso; apply N. symmetry; apply H. left; reflexivity.
Qed.

Lemma size_pos m : 0 < JsMap.size m <-> m <> [].
Proof.
  unfold JsMap.size. destruct m; cbn [List.length]; split; intros H;
    try lia; try discriminate; congruence.
Qed.

Lemma size_zero m : (JsMap.size m =? 0) = true <-> m = [].
Proof.
  unfold JsMap.size. destruct m as [|x m]; split; intros H;
    try reflexivity; discriminate.
Qed.
End JsMapFacts.

(* ================================================================== *)
(** * Properties of the room registry *)
(* ================================================================== *)

Lemma getOrCreateRoom_spec roomId now rs :
  rget roomId (snd (getOrCreateRoom roomId now rs))
  = Some (fst (getOrCreateRoom roomId now rs))
  /\ (snd (getOrCreateRoom roomId now rs) = rs
      \/ snd (getOrCreateRoom roomId now rs) = rset roomId (new_room roomId now) rs).
Proof.
  unfold getOrCreateRoom, JsMap.has. cbn [fst snd].
  destruct (rget roomId rs) as [r|] eqn:E; cbn [negb].
  - rewrite E. split; [reflexivity | left; reflexivity].
  - rewrite get_set_same. split; [reflexivity | right; reflexivity].
Qed.

(** A join that passes validation with a string username leaves the
    registry as it was except for the joined room, which now holds the
    joiner. *)
Lemma join_room_rooms sid now d st u :
  truthy (Data.roomId d) = true ->
  Data.username d = JStr u ->
  truthy (JStr u) = true ->
  exists room',
    rooms (fst (join_room sid now (Some d) st))
    = rset (Data.roomId d) room' (rooms st)
    /\ pget sid (Room.participants room')
       = Some (Participant.mk sid (trim u) now now).
Proof.
  intros Hr Hu Ht. unfold join_room. rewrite Hu, Hr, Ht. cbn [negb orb].
  destruct (getOrCreateRoom_spec (Data.roomId d) now (rooms st)) as [_ Hs].
  destruct (getOrCreateRoom (Data.roomId d) now (rooms st)) as [room rs1].
  cbn [fst snd rooms] in *.
  eexists. split.
  - destruct Hs as [-> | ->]; [reflexivity | apply set_set].
  - cbn [Room.participants]. apply get_set_same.
Qed.

Lemma disconnect_rooms_entries sid now ad rs k r' :
  In (k, r') (fst (disconnect_rooms sid now ad rs)) ->
  In (k, r') rs
  \/ (exists r, In (k, r) rs
                /\ Room.participants r' = pdelete sid (Room.participants r)
                /\ Room.participants r' <> []).
Proof.
  induction rs as [|[k0 r0] rs IH]; cbn [disconnect_rooms]; [intros []|].
  destruct (disconnect_rooms sid now ad rs) as [rest' out]. cbn [fst] in IH.
  assert (Hrest : In (k, r') rest' ->
                  In (k, r') ((k0, r0) :: rs)
                  \/ (exists r, In (k, r) ((k0, r0) :: rs)
                                /\ Room.participants r'
                                   = pdelete sid (Room.participants r)
                                /\ Room.participants r' <> [])).
  { intros H. destruct (IH H) as [H1|(r & H1 & H2)].
    - left; right; exact H1.
    - right; exists r; split; [right; exact H1 | exact H2]. }
  destruct (pget sid (Room.participants r0)) as [p|].
  - destruct (JsMap.size (pdelete sid (Room.participants r0)) =? 0) eqn:Ez;
      cbn [fst].
    + exact Hrest.
    + intros [E|H]; [|exact (Hrest H)].
      inversion E; subst k r'. right. exists r0. cbn [Room.participants].
      split; [left; reflexivity|]. split; [reflexivity|].
      intros Hnil. rewrite Hnil in Ez. discriminate.
  - cbn [fst]. intros [E|H]; [left; left; exact E | exact (Hrest H)].
Qed.

Lemma disconnect_rooms_keys sid now ad rs k :
  In k (JsMap.keys (fst (disconnect_rooms sid now ad rs))) -> In k (JsMap.keys rs).
Proof.
  induction rs as [|[k0 r0] rs IH]; cbn [disconnect_rooms]; [intros []|].
  destruct (disconnect_rooms sid now ad rs) as [rest' out]. cbn [fst] in IH.
  destruct (pget sid (Room.participants r0)) as [p|];
    [destruct (JsMap.size _ =? 0)|];
    cbn [fst JsMap.keys map]; cbn [JsMap.keys] in IH;
    intros H; try (right; apply IH; exact H);
    (destruct H as [E|H]; [left; exact E | right; apply IH; exact H]).
Qed.

Lemma disconnect_rooms_NoDup sid now ad rs :
  NoDup (JsMap.keys rs) -> NoDup (JsMap.keys (fst (disconnect_rooms sid now ad rs))).
Proof.
  induction rs as [|[k0 r0] rs IH]; cbn [disconnect_rooms]; [intros H; exact H|].
  pose proof (disconnect_rooms_keys sid now ad rs k0) as Hk.
  destruct (disconnect_rooms sid now ad rs) as [rest' out]. cbn [fst] in *.
  cbn [JsMap.keys map fst]. intros H. inversion H as [|x l Hx Hl]; subst.
  destruct (pget sid (Room.participants r0)) as [p|];
    [destruct (JsMap.size _ =? 0)|];
    cbn [fst JsMap.keys map]; try (apply IH; exact Hl);
    (constructor; [intros Hin; apply Hx, Hk, Hin | apply IH; exact Hl]).
Qed.

(** The room whose only participant disconnects is gone when the
    handler returns. *)
Lemma disconnect_rooms_deletes sid now ad rs k r :
  NoDup (JsMap.keys rs) ->
  rget k rs = Some r ->
  pget sid (Room.participants r) <> None ->
  (forall key, In key (JsMap.keys (Room.participants r)) -> key = sid) ->
  rget k (fst (disconnect_rooms sid now ad rs)) = None.
Proof.
  induction rs as [|[k0 r0] rs IH]; cbn [disconnect_rooms JsMap.get];
    [discriminate|].
  pose proof (disconnect_rooms_keys sid now ad rs k) as Hk.
  destruct (disconnect_rooms sid now ad rs) as [rest' out]. cbn [fst] in *.
  cbn [JsMap.keys map fst]. intros Hnd Hget Hin Hall.
  inversion Hnd as [|x l Hx Hl]; subst.
  destruct (jsval_eq_dec k k0) as [E|N].
  - subst k0. inversion Hget; subst r0.
    destruct (pget sid (Room.participants r)) as [p|]; [|congruence].
    rewrite (delete_only_key string_dec sid (Room.participants r) Hall).
    cbn [JsMap.size List.length Z.of_nat Z.eqb fst].
    apply get_None_not_in. intros H. apply Hx, Hk, H.
  - specialize (IH Hl Hget Hin Hall).
    destruct (pget sid (Room.participants r0)) as [p|];
      [destruct (JsMap.size _ =? 0)|];
      cbn [fst JsMap.get]; try exact IH;
      (destruct (jsval_eq_dec k k0); [contradiction | exact IH]).
Qed.

Lemma cleanup_entries now rs k r :
  In (k, r) (cleanupInactiveRooms now rs) -> In (k, r) rs.
Proof.
  induction rs as [|[k0 r0] rs IH]; cbn [cleanupInactiveRooms]; [intros []|].
  destruct (_ && _); [intros H; right; apply IH, H|].
  intros [E|H]; [left; exact E | right; apply IH, H].
Qed.

Lemma cleanup_NoDup now rs :
  NoDup (JsMap.keys rs) -> NoDup (JsMap.keys (cleanupInactiveRooms now rs)).
Proof.
  induction rs as [|[k0 r0] rs IH]; cbn [cleanupInactiveRooms]; [intros H; exact H|].
  cbn [JsMap.keys map fst]. intros H. inversion H as [|x l Hx Hl]; subst.
  destruct (_ && _); [apply IH, Hl|].
  cbn [JsMap.keys map fst]. constructor; [|apply IH, Hl].
  intros Hin. apply Hx.
  apply in_map_iff in Hin. destruct Hin as ([k1 r1] & E & Hin). cbn in E; subst k1.
  apply in_map_iff. exists (k0, r1). split; [reflexivity|].
  apply (cleanup_entries now rs), Hin.
Qed.

(** The sweep finds nothing to evict where no room is empty. *)
Lemma cleanup_nothing_to_do now rs :
  (forall k r, In (k, r) rs -> 0 < JsMap.size (Room.participants r)) ->
  cleanupInactiveRooms now rs = rs.
Proof.
  induction rs as [|[k0 r0] rs IH]; cbn [cleanupInactiveRooms]; [reflexivity|].
  intros H.
  assert (H0 : 0 < JsMap.size (Room.participants r0)) by (apply (H k0); left; reflexivity).
  destruct (JsMap.size (Room.participants r0) =? 0) eqn:E.
  - apply Z.eqb_eq in E. lia.
  - cbn [andb]. rewrite IH; [reflexivity|].
    intros k r Hin. apply (H k). right; exact Hin.
Qed.

(** The two [run-code] events leave the registry, the connection table
    and the channels as they are. *)
Ltac run_frame :=
  repeat match goal with
         | |- context [run_code_request ?h ?sid ?now ?d ?st] =>
             destruct (run_code_request h sid now d st) as [[? ?] ?]
         | |- context [nth_error (runs ?st) ?i] => destruct (nth_error (runs st) i)
         end;
  cbn [fst snd rooms userSockets adapter runs].

Lemma touch_lastSeen_not_nil sid now ps :
  ps <> [] -> touch_lastSeen sid now ps <> [].
Proof.
  intros H. unfold touch_lastSeen.
  destruct (pget sid ps); [apply set_not_nil | exact H].
Qed.

(** Room ids stay unique whatever the events are. *)
Lemma step_unique_room_ids now e st :
  unique_room_ids st -> unique_room_ids (fst (step now e st)).
Proof.
  unfold unique_room_ids. intros H.
  destruct e as [sid|sid d|sid d|sid d|sid d h|i|sid|sid|]; cbn [step];
    try (destruct (connected sid st); cbn [fst]; try exact H);
    try solve [run_frame; exact H].
  - (* join-room *)
    unfold join_room. destruct d as [d|]; [|exact H].
    destruct (negb (truthy (Data.roomId d)) || negb (truthy (Data.username d)));
      [exact H|].
    destruct (getOrCreateRoom_spec (Data.roomId d) now (rooms st)) as [_ Hs].
    destruct (getOrCreateRoom (Data.roomId d) now (rooms st)) as [room rs1].
    cbn [fst snd] in Hs.
    assert (H1 : NoDup (JsMap.keys rs1))
      by (destruct Hs as [-> | ->]; [exact H | apply NoDup_keys_set, H]).
    destruct (Data.username d); cbn [fst rooms]; try exact H1.
    apply NoDup_keys_set, H1.
  - (* code-change *)
    unfold code_change. destruct d as [d|]; [|exact H].
    destruct (rget (Data.roomId d) (rooms st)); [|exact H].
    cbn [fst rooms]. apply NoDup_keys_set, H.
  - (* language-change *)
    unfold language_change. destruct d as [d|]; [|exact H].
    destruct (rget (Data.roomId d) (rooms st)); [|exact H].
    cbn [fst rooms]. apply NoDup_keys_set, H.
  - (* disconnect *)
    unfold disconnect.
    pose proof (disconnect_rooms_NoDup sid now (pdelete sid (adapter st))
                  (rooms st) H) as Hd.
    destruct (disconnect_rooms sid now (pdelete sid (adapter st)) (rooms st)).
    exact Hd.
  - (* sweep *)
    cbn [fst rooms]. apply cleanup_NoDup, H.
Qed.

(** No event with typed payload fields leaves an empty room behind. *)
Lemma step_no_empty_room now e st :
  typed_event e = true ->
  no_empty_room st -> no_empty_room (fst (step now e st)).
Proof.
  unfold no_empty_room. intros Ht H.
  destruct e as [sid|sid d|sid d|sid d|sid d h|i|sid|sid|]; cbn [step];
    try (destruct (connected sid st); cbn [fst]; try exact H);
    try solve [run_frame; exact H].
  - (* join-room *)
    destruct d as [d|]; [|exact H]. cbn [typed_event] in Ht.
    destruct (negb (truthy (Data.roomId d)) || negb (truthy (Data.username d)))
      eqn:Hv.
    { unfold join_room. rewrite Hv. exact H. }
    apply orb_false_elim in Hv. destruct Hv as [Hr Hu].
    apply negb_false_iff in Hr. apply negb_false_iff in Hu.
    unfold typed_data in Ht.
    destruct (Data.username d) as [| |b|n|u] eqn:Eu;
      try (rewrite !andb_false_r in Ht; cbn in Ht; discriminate);
      try (cbn in Hu; discriminate).
    destruct (join_room_rooms sid now d st u Hr Eu Hu) as (room' & Hrooms & Hp).
    rewrite Hrooms. intros k r Hin.
    destruct (In_set jsval_eq_dec _ _ _ _ _ Hin) as [[_ ->]|Hold];
      [|apply (H k), Hold].
    apply size_pos. intros Hnil. rewrite Hnil in Hp. discriminate.
  - (* code-change *)
    unfold code_change. destruct d as [d|]; [|exact H].
    destruct (rget (Data.roomId d) (rooms st)) as [room|] eqn:Er; [|exact H].
    cbn [fst rooms]. intros k r Hin.
    destruct (In_set jsval_eq_dec _ _ _ _ _ Hin) as [[_ ->]|Hold];
      [|apply (H k), Hold].
    cbn [Room.participants]. apply size_pos, touch_lastSeen_not_nil, size_pos.
    apply (H (Data.roomId d)), (get_In jsval_eq_dec), Er.
  - (* language-change *)
    unfold language_change. destruct d as [d|]; [|exact H].
    destruct (rget (Data.roomId d) (rooms st)) as [room|] eqn:Er; [|exact H].
    cbn [fst rooms]. intros k r Hin.
    destruct (In_set jsval_eq_dec _ _ _ _ _ Hin) as [[_ ->]|Hold];
      [|apply (H k), Hold].
    cbn [Room.participants].
    apply (H (Data.roomId d)), (get_In jsval_eq_dec), Er.
  - (* disconnect *)
    unfold disconnect.
    pose proof (disconnect_rooms_entries sid now (pdelete sid (adapter st))
                  (rooms st)) as Hd.
    destruct (disconnect_rooms sid now (pdelete sid (adapter st)) (rooms st))
      as [rs' out].
    cbn [fst rooms] in *. intros k r Hin.
    destruct (Hd k r Hin) as [Hold|(r0 & _ & _ & Hne)];
      [apply (H k), Hold | apply size_pos, Hne].
  - (* sweep *)
    cbn [fst rooms]. intros k r Hin. apply (H k), (cleanup_entries now), Hin.
Qed.

Lemma run_invariants evs : forall st,
  Forall (fun te => typed_event (snd te) = true) evs ->
  unique_room_ids st -> no_empty_room st ->
  unique_room_ids (fst (run evs st)) /\ no_empty_room (fst (run evs st)).
Proof.
  induction evs as [|[now e] evs IH]; intros st Ht Hu Hn; cbn [run].
  - split; assumption.
  - inversion Ht as [|x l Hx Hl]; subst. cbn [snd] in Hx.
    pose proof (step_unique_room_ids now e st Hu) as Hu'.
    pose proof (step_no_empty_room now e st Hx Hn) as Hn'.
    destruct (step now e st) as [st1 out1]. cbn [fst] in *.
    specialize (IH st1 Hl Hu' Hn').
    destruct (run evs st1) as [st2 out2]. exact IH.
Qed.

(** X27. As long as every payload field that was sent is a string (the
    types the client declares) or absent, no room of the registry has
    zero participants, whatever events have been handled; when the only
    participant of a room disconnects, the room is absent from the
    registry as soon as the disconnect handler returns; and the periodic
    sweep has no room to evict. *)
Theorem empty_room_deleted_at_once :
  forall evs : list (Z * Event),
    Forall (fun te => typed_event (snd te) = true) evs ->
    let st := fst (run evs initial_state) in
    no_empty_room st
    /\ (forall sid now k r,
          rget k (rooms st) = Some r ->
          pget sid (Room.participants r) <> None ->
          (forall key, In key (JsMap.keys (Room.participants r)) -> key = sid) ->
          rget k (rooms (fst (disconnect sid now st))) = None
          /\ no_empty_room (fst (disconnect sid now st)))
    /\ (forall now, cleanupInactiveRooms now (rooms st) = rooms st).
Proof.
  intros evs Ht st.
  destruct (run_invariants evs initial_state Ht) as [Hu Hn].
  { constructor. }
  { intros k r []. }
  fold st in Hu, Hn.
  split; [exact Hn|]. split.
  - intros sid now k r Hget Hin Hall. split.
    + unfold disconnect.
      pose proof (disconnect_rooms_deletes sid now (pdelete sid (adapter st))
                    (rooms st) k r Hu Hget Hin Hall) as Hd.
      destruct (disconnect_rooms sid now (pdelete sid (adapter st)) (rooms st)).
      exact Hd.
    + pose proof (step_no_empty_room now (Disconnect sid) st eq_refl Hn) as Hs.
      cbn [step] in Hs. destruct (connected sid st); [exact Hs|].
      clear Hs. unfold disconnect, no_empty_room.
      pose proof (disconnect_rooms_entries sid now (pdelete sid (adapter st))
                    (rooms st)) as Hd.
      destruct (disconnect_rooms sid now (pdelete sid (adapter st)) (rooms st))
        as [rs' out].
      cbn [fst rooms] in *. intros k0 r0 Hin0.
      destruct (Hd k0 r0 Hin0) as [Hold|(r1 & _ & _ & Hne)];
        [apply (Hn k0), Hold | apply size_pos, Hne].
  - intros now. apply cleanup_nothing_to_do. exact Hn.
Qed.

(** Ann joins R1 alone and then disconnects. *)
Lemma empty_room_deleted_at_once_witness :
  Forall (fun te => typed_event (snd te) = true) ann_alone
  /\ no_empty_room (fst (run ann_alone initial_state))
  /\ rget (JStr "R1")
          (rooms (fst (disconnect "sockA" 3 (fst (run ann_alone initial_state)))))
     = None.
Proof.
  assert (H : Forall (fun te => typed_event (snd te) = true) ann_alone)
    by (repeat constructor).
  destruct (empty_room_deleted_at_once ann_alone H) as (Hn & Hd & _).
  split; [exact H|]. split; [exact Hn|].
  refine (proj1 (Hd "sockA" 3 (JStr "R1")
                    (Room.mk (JStr "R1") (JStr (default_code (JStr "R1")))
                             (JStr "javascript")
                             [("sockA", Participant.mk "sockA" "Ann" 2 2)] 2 2)
                    eq_refl _ _)).
  - discriminate.
  - intros key [E|[]]. symmetry; exact E.
Defined.

(* ================================================================== *)
(** * Properties of the session gateway *)
(* ================================================================== *)

Lemma in_channel_In r l : in_channel r l = true <-> In r l.
Proof.
  unfold in_channel. rewrite existsb_exists. split.
  - intros (x & Hin & E). destruct (jsval_eq_dec r x); [subst; exact Hin | discriminate].
  - intros Hin. exists r. split; [exact Hin|].
    destruct (jsval_eq_dec r r); [reflexivity | contradiction].
Qed.

Lemma in_channel_not_In r l : in_channel r l = false <-> ~ In r l.
Proof.
  rewrite <- in_channel_In. destruct (in_channel r l); split; intros H.
  - discriminate.
  - contradiction H. reflexivity.
  - intros E. discriminate.
  - reflexivity.
Qed.

Lemma members_In x r ad :
  In x (members r ad) <-> exists l, In (x, l) ad /\ In r l.
Proof.
  unfold members. rewrite in_map_iff. split.
  - intros ([x0 l] & E & Hin). cbn in E. subst x0.
    apply filter_In in Hin. destruct Hin as [Hin Hc]. cbn [snd] in Hc.
    exists l. split; [exact Hin | apply in_channel_In, Hc].
  - intros (l & Hin & Hr). exists (x, l). split; [reflexivity|].
    apply filter_In. split; [exact Hin | apply in_channel_In, Hr].
Qed.

(** [socket.to(r)] from socket [sid] reaches the sockets that are in
    channel [r] and not in the channel named [sid]. *)
Lemma socket_to_In x sid r ad :
  In x (socket_to sid r ad)
  <-> exists l, In (x, l) ad /\ In r l /\ ~ In (JStr sid) l.
Proof.
  unfold socket_to. rewrite in_map_iff. split.
  - intros ([x0 l] & E & Hin). cbn in E. subst x0.
    apply filter_In in Hin. destruct Hin as [Hin Hc]. cbn [snd] in Hc.
    apply andb_prop in Hc. destruct Hc as [Hr Hs].
    apply negb_true_iff in Hs.
    exists l. split; [exact Hin|].
    split; [apply in_channel_In, Hr | apply in_channel_not_In, Hs].
  - intros (l & Hin & Hr & Hs). exists (x, l). split; [reflexivity|].
    apply filter_In. split; [exact Hin|]. cbn [snd].
    apply andb_true_intro. split; [apply in_channel_In, Hr|].
    apply negb_true_iff, in_channel_not_In, Hs.
Qed.

Lemma socket_to_members sid r ad x :
  In x (socket_to sid r ad) -> In x (members r ad).
Proof.
  intros H. apply socket_to_In in H. destruct H as (l & Hin & Hr & _).
  apply members_In. exists l. split; assumption.
Qed.

(** A sender that sits in the channel of its own id, as every live socket
    does, is not among the recipients. *)
Lemma socket_to_excludes_sender sid r ad :
  (forall l, In (sid, l) ad -> In (JStr sid) l) ->
  ~ In sid (socket_to sid r ad).
Proof.
  intros Hown H. apply socket_to_In in H. destruct H as (l & Hin & _ & Hs).
  exact (Hs (Hown l Hin)).
Qed.

Lemma socket_to_reaches sid r ad x l :
  In (x, l) ad -> In r l -> ~ In (JStr sid) l -> In x (socket_to sid r ad).
Proof.
  intros Hin Hr Hs. apply socket_to_In. exists l. auto.
Qed.

(** A code-change on a live room goes to the recipients of
    [socket.to(roomId)]. *)
Lemma code_change_fanout sid now d st room :
  rget (Data.roomId d) (rooms st) = Some room ->
  map fst (snd (code_change sid now (Some d) st))
  = socket_to sid (Data.roomId d) (adapter st).
Proof.
  intros Hr. unfold code_change. rewrite Hr. cbn [snd].
  unfold emit_to. rewrite map_map. cbn [fst]. apply map_id.
Qed.

(** A join touches no room but the one joined: the joiner's record in
    another room stays where it is. *)
Lemma join_room_keeps_other_rooms sid now d st u k :
  truthy (Data.roomId d) = true ->
  Data.username d = JStr u ->
  truthy (JStr u) = true ->
  k <> Data.roomId d ->
  rget k (rooms (fst (join_room sid now (Some d) st))) = rget k (rooms st).
Proof.
  intros Hr Hu Ht Hk.
  destruct (join_room_rooms sid now d st u Hr Hu Ht) as (room' & E & _).
  rewrite E. apply get_set_other. congruence.
Qed.

(** What the handlers do reject: the sender alone is told and the state
    stays as it was. *)
Lemma rejected_events_leave_state sid now d st :
  (truthy (Data.roomId d) = false \/ truthy (Data.username d) = false ->
   join_room sid now (Some d) st
   = (st, [(sid, ErrorMsg "Room ID and username are required")]))
  /\ (rget (Data.roomId d) (rooms st) = None ->
      code_change sid now (Some d) st = (st, [(sid, ErrorMsg "Room not found")])
      /\ language_change sid now (Some d) st
         = (st, [(sid, ErrorMsg "Room not found")])).
Proof.
  split.
  - intros H. unfold join_room.
    destruct H as [H|H]; rewrite H; cbn [negb orb]; rewrite ?orb_true_r;
      reflexivity.
  - intros H. unfold code_change, language_change. rewrite H. split; reflexivity.
Qed.

Lemma run_code_rejects_invalid h sid now d st :
  truthy (Data.roomId d) = false \/ is_string (Data.code d) = false
  \/ truthy (Data.language d) = false ->
  run_code_request h sid now (Some d) st
  = (([(sid, ErrorMsg "Invalid run request")], None), []).
Proof.
  intros H. unfold run_code_request.
  destruct (Data.code d); cbn [is_string] in H; try reflexivity.
  destruct H as [H|[H|H]]; [| discriminate |]; rewrite H; cbn [negb orb];
    rewrite ?orb_true_r; reflexivity.
Qed.


(** C2. Ann joins R1, Bob joins R1, Ann joins R2 on the same
    connection: afterwards Ann's socket is subscribed to R2 only, yet the
    registry still lists her in R1 as well as in R2. *)
Theorem switch_keeps_stale_record :
  let st := fst (run ann_switches initial_state) in
  map (fun kr => (fst kr, JsMap.values (Room.participants (snd kr)))) (rooms st)
  = [ (JStr "R1", [ann; bob]);
      (JStr "R2", [Participant.mk "sockA" "Ann" 5 5]) ]
  /\ socket_rooms "sockA" (adapter st) = [JStr "sockA"; JStr "R2"].
Proof. split; vm_compute; reflexivity. Qed.

(** C3. Two events with an empty required field that are not turned
    away. A join whose username is three spaces is accepted: Bob's socket
    is recorded in R1 under the empty name and told the room state, and
    Ann is told of the arrival. A language-change without a language is
    accepted: R1's language becomes [undefined], its [lastActivity] moves,
    and Bob is sent the update. *)
Theorem unvalidated_fields_change_state :
  let st0 := fst (run (ann_alone ++ [(3, Connection "sockB")]) initial_state) in
  let blank := Participant.mk "sockB" "" 4 4 in
  let ann2 := Participant.mk "sockA" "Ann" 2 2 in
  let st1 := fst (run ann_and_bob initial_state) in
  let no_language := Some (Data.mk (JStr "R1") JUndefined JUndefined JUndefined) in
  (option_map (fun r => JsMap.values (Room.participants r))
     (rget (JStr "R1") (rooms (fst (join_room "sockB" 4 (join_data "R1" "   ") st0))))
   = Some [ann2; blank]
   /\ snd (join_room "sockB" 4 (join_data "R1" "   ") st0)
      = [ ("sockB", RoomState (JStr (default_code (JStr "R1"))) (JStr "javascript")
                              [ann2; blank]);
          ("sockA", UserJoined blank [ann2; blank]) ])
  /\ (option_map (fun r => (Room.language r, Room.lastActivity r))
        (rget (JStr "R1") (rooms (fst (language_change "sockA" 9 no_language st1))))
      = Some (JUndefined, 9)
      /\ option_map (fun r => (Room.language r, Room.lastActivity r))
           (rget (JStr "R1") (rooms st1))
         = Some (JStr "javascript", 4)
      /\ snd (language_change "sockA" 9 no_language st1)
         = [ ("sockB", LanguageUpdate JUndefined "Ann") ]).
Proof. repeat split; vm_compute; reflexivity. Qed.

(** C4. After Ann has moved from R1 to R2 on her connection, the
    registry still has her record in R1; Bob's code-change on R1 is then
    delivered to nobody, although R1 has a participant other than Bob. *)
Theorem stale_participant_gets_no_update :
  let st := fst (run ann_switches initial_state) in
  option_map (fun r => JsMap.values (Room.participants r)) (rget (JStr "R1") (rooms st))
  = Some [ann; bob]
  /\ snd (code_change "sockB" 6 (edit_data "R1" "x = 1") st) = []
  /\ option_map (fun r => (Room.code r, JsMap.keys (Room.participants r)))
       (rget (JStr "R1") (rooms (fst (code_change "sockB" 6 (edit_data "R1" "x = 1") st))))
     = Some (JStr "x = 1", ["sockA"; "sockB"]).
Proof. repeat split; vm_compute; reflexivity. Qed.


(* ================================================================== *)
(** * More on the process supervisor *)
(* ================================================================== *)

Lemma written_app st a b : written st (a ++ b) = written st a ++ written st b.
Proof.
  induction a as [|[st' chunk|ms] a IH]; cbn [app written]; [reflexivity| |exact IH].
  rewrite IH, app_assoc. reflexivity.
Qed.

Lemma stream_bytes_app st a b :
  stream_bytes st (a ++ b) = stream_bytes st a + stream_bytes st b.
Proof.
  induction a as [|[st' chunk|ms] a IH]; cbn [app stream_bytes]; lia.
Qed.

Lemma tick_early t s : t < EXECUTION_TIMEOUT_MS -> tick t s = s.
Proof.
  unfold tick. intros H.
  destruct (EXECUTION_TIMEOUT_MS <=? t) eqn:E; [apply Z.leb_le in E; lia|].
  rewrite andb_false_r. reflexivity.
Qed.

(** What is read after a process has ended, when it fits and comes
    before the deadline, is appended and nothing else happens. *)
Lemma after_exit_quiet late : forall t o e tr to se k n,
  t + script_duration late < EXECUTION_TIMEOUT_MS ->
  buffer_length o + stream_bytes StdoutStream late <= MAX_OUTPUT_BYTES ->
  buffer_length e + stream_bytes StderrStream late <= MAX_OUTPUT_BYTES ->
  after_exit late t (Sup.mk o e tr to se k false n)
  = (t + script_duration late,
     Sup.mk (o ++ written StdoutStream late) (e ++ written StderrStream late)
            tr to se k false n).
Proof.
  induction late as [|[st chunk|ms] rest IH]; intros t o e tr to se k n Ht Ho He;
    cbn [after_exit stream_bytes script_duration written] in *.
  - rewrite !app_nil_r, Z.add_0_r. reflexivity.
  - pose proof (stream_bytes_nonneg StdoutStream rest).
    pose proof (stream_bytes_nonneg StderrStream rest).
    pose proof (buffer_length_nonneg chunk).
    rewrite on_data_fits
      by (destruct st; cbn [captured Sup.stdout Sup.stderr stream_eqb] in *; lia).
    destruct st; sup_simpl; cbn [stream_eqb app] in *;
      rewrite IH by (try assumption; rewrite ?buffer_length_app; lia);
      rewrite <- ?app_assoc; reflexivity.
  - pose proof (script_duration_nonneg rest).
    rewrite tick_early by lia.
    rewrite IH by (try assumption; lia).
    rewrite Z.add_assoc. reflexivity.
Qed.

(** A child that keeps within the caps and ends before the timer is
    captured whole. *)
Lemma run_child_quiet script ending inflight late : forall t o e tr to se n,
  ending <> Never ->
  t + script_duration script + script_duration late < EXECUTION_TIMEOUT_MS ->
  buffer_length o + stream_bytes StdoutStream (script ++ late) <= MAX_OUTPUT_BYTES ->
  buffer_length e + stream_bytes StderrStream (script ++ late) <= MAX_OUTPUT_BYTES ->
  run_child script ending inflight late t (Sup.mk o e tr to se false true n)
  = (own_close ending,
     (t + script_duration script + script_duration late,
      Sup.mk (o ++ written StdoutStream (script ++ late))
             (e ++ written StderrStream (script ++ late))
             tr to se false false n)).
Proof.
  induction script as [|[st chunk|ms] rest IH]; intros t o e tr to se n Hne Ht Ho He;
    cbn [run_child stream_bytes script_duration written app] in *.
  - rewrite Z.add_0_r in *.
    destruct ending; try congruence; unfold ended; cbn [own_close]; sup_simpl;
      rewrite after_exit_quiet by assumption; reflexivity.
  - pose proof (stream_bytes_nonneg StdoutStream (rest ++ late)).
    pose proof (stream_bytes_nonneg StderrStream (rest ++ late)).
    pose proof (buffer_length_nonneg chunk).
    rewrite on_data_fits
      by (destruct st; cbn [captured Sup.stdout Sup.stderr stream_eqb] in *; lia).
    destruct st; sup_simpl; cbn [stream_eqb app] in *;
      rewrite IH by (try assumption; rewrite ?buffer_length_app; lia);
      rewrite <- ?app_assoc; reflexivity.
  - pose proof (script_duration_nonneg rest).
    pose proof (script_duration_nonneg late).
    destruct (EXECUTION_TIMEOUT_MS <=? t + Z.max 0 ms) eqn:E.
    + apply Z.leb_le in E. lia.
    + rewrite IH by (try assumption; lia).
      rewrite !Z.add_assoc. reflexivity.
Qed.

(** X1. A child that ends by itself, whose output (what the parent
    reads before and after the process has ended) stays within 64KB on
    each stream, and whose pipes are closed, all before the deadline, is
    reported exactly: its own exit code or signal, everything read from
    stdout and from stderr in order, decoded as UTF-8, both flags off, no
    spawn error, and no signal sent. ASCII output arrives byte for
    byte. *)
Theorem quiet_child_reported_exactly :
  forall (script : list ChildAct) (ending : Ending) (inflight : nat)
         (late : list ChildAct) (release : Z),
    ending <> Never ->
    script_duration script + script_duration late < EXECUTION_TIMEOUT_MS ->
    release < EXECUTION_TIMEOUT_MS ->
    stream_bytes StdoutStream (script ++ late) <= MAX_OUTPUT_BYTES ->
    stream_bytes StderrStream (script ++ late) <= MAX_OUTPUT_BYTES ->
    let quiet := supervise (Runs script ending inflight late release) in
    fst quiet
    = Result.mk (fst (own_close ending)) (snd (own_close ending))
                (toString_utf8 (written StdoutStream (script ++ late)))
                (toString_utf8 (written StderrStream (script ++ late)))
                false false None
    /\ Sup.sigkills (snd quiet) = 0%nat
    /\ (Forall (fun b => (Byte.to_N b < 0x80)%N) (written StdoutStream (script ++ late)) ->
        list_byte_of_string (Result.stdout (fst quiet))
        = written StdoutStream (script ++ late)).
Proof.
  intros script ending inflight late release Hne Ht Hrel Ho He quiet.
  subst quiet. cbn [supervise]. unfold Sup.init.
  rewrite run_child_quiet by (try assumption; cbn; lia).
  rewrite tick_early by lia.
  cbn [app fst snd]. destruct (own_close ending) as [c sg].
  cbn [on_close fst snd Result.stdout Sup.stdout Sup.sigkills].
  split; [reflexivity|]. split; [reflexivity|].
  intros Hascii. unfold toString_utf8.
  rewrite list_byte_of_string_of_list_byte. apply utf8_decode_ascii, Hascii.
Qed.

Lemma quiet_child_reported_exactly_witness :
  Exits 3 <> Never
  /\ script_duration chatty + script_duration [Emit StdoutStream (list_byte_of_string "bye")]
     < EXECUTION_TIMEOUT_MS
  /\ 40 < EXECUTION_TIMEOUT_MS
  /\ fst (supervise (Runs chatty (Exits 3) 0
                          [Emit StdoutStream (list_byte_of_string "bye")] 40))
     = Result.mk (Some 3) None "out-1;out-2;bye" "warn;" false false None.
Proof.
  assert (H1 : Exits 3 <> Never) by discriminate.
  assert (H2 : script_duration chatty
               + script_duration [Emit StdoutStream (list_byte_of_string "bye")]
               < EXECUTION_TIMEOUT_MS) by reflexivity.
  assert (H3 : 40 < EXECUTION_TIMEOUT_MS) by reflexivity.
  assert (H4 : stream_bytes StdoutStream
                 (chatty ++ [Emit StdoutStream (list_byte_of_string "bye")])
               <= MAX_OUTPUT_BYTES) by (vm_compute; discriminate).
  assert (H5 : stream_bytes StderrStream
                 (chatty ++ [Emit StdoutStream (list_byte_of_string "bye")])
               <= MAX_OUTPUT_BYTES) by (vm_compute; discriminate).
  split; [exact H1|]. split; [exact H2|]. split; [exact H3|].
  exact (proj1 (quiet_child_reported_exactly chatty (Exits 3) 0
                  [Emit StdoutStream (list_byte_of_string "bye")] 40
                  H1 H2 H3 H4 H5)).
Defined.

Lemma on_data_kill_ledger st chunk s :
  kill_ledger s -> kill_ledger (on_data st chunk s).
Proof.
  unfold kill_ledger.
  destruct s as [o e tr to se k r n]; sup_simpl. intros (Hr & Hk & Hn). subst r.
  destruct st; unfold on_data, on_stdout, on_stderr, killChild; sup_simpl;
    destruct (_ >? _); sup_simpl; destruct k; sup_simpl;
    rewrite ?orb_true_r; repeat split; auto.
Qed.

Lemma on_timeout_kill_ledger s : kill_ledger s -> kill_ledger (on_timeout s).
Proof.
  unfold kill_ledger.
  destruct s as [o e tr to se k r n]; sup_simpl. intros (Hr & Hk & Hn). subst r.
  unfold on_timeout, killChild; sup_simpl. destruct k; sup_simpl;
    repeat split; auto.
Qed.

(** The state in which a kill has landed, and what is read after it. *)
Lemma killed_then_drained n rest s :
  kill_ledger s -> Sup.killed s = true ->
  Sup.sigkills (drain n rest (ended s)) = 1%nat
  /\ Sup.killed (drain n rest (ended s)) = true
  /\ (Sup.timedOut (drain n rest (ended s))
      || Sup.outputTruncated (drain n rest (ended s))) = true.
Proof.
  intros (_ & Hk & Hn) Hkill. rewrite Hkill in *.
  destruct (drain_no_signal n rest (ended s)) as (D1 & D2 & D3 & D4);
    [left; exact Hkill|].
  cbn [ended Sup.killed Sup.sigkills Sup.timedOut Sup.outputTruncated] in *.
  rewrite D1, D2, D3. split; [exact Hn|]. split; [exact Hkill|].
  destruct (Sup.timedOut s); [reflexivity|]. cbn [orb] in *.
  apply D4. symmetry. exact Hk.
Qed.

Lemma run_child_ledger script ending inflight late : forall t s,
  kill_ledger s -> Sup.killed s = false ->
  Sup.sigkills (snd (snd (run_child script ending inflight late t s)))
  = (if Sup.killed (snd (snd (run_child script ending inflight late t s)))
     then 1 else 0)%nat
  /\ (Sup.killed (snd (snd (run_child script ending inflight late t s))) = true ->
      fst (run_child script ending inflight late t s) = (None, Some SIGKILL)
      /\ (Sup.timedOut (snd (snd (run_child script ending inflight late t s)))
          || Sup.outputTruncated (snd (snd (run_child script ending inflight late t s))))
         = true)
  /\ (Sup.killed (snd (snd (run_child script ending inflight late t s))) = false ->
      ending <> Never
      /\ fst (run_child script ending inflight late t s) = own_close ending)
  /\ (Sup.killed (snd (snd (run_child script ending inflight late t s))) = true
      \/ Sup.running (snd (snd (run_child script ending inflight late t s))) = false).
Proof.
  induction script as [|[st chunk|ms] rest IH]; intros t s Hl Hk; cbn [run_child].
  - destruct ending as [c|sg|]; cbn [fst snd].
    + destruct (after_exit_no_signal late t (ended s) eq_refl) as (A1 & A2 & A3).
      cbn [ended Sup.killed Sup.sigkills] in A1, A2.
      destruct Hl as (_ & _ & Hn). rewrite Hk in *. rewrite A1, A2.
      split; [exact Hn|]. split; [discriminate|].
      split; [intros _; split; [discriminate | reflexivity] | right; exact A3].
    + destruct (after_exit_no_signal late t (ended s) eq_refl) as (A1 & A2 & A3).
      cbn [ended Sup.killed Sup.sigkills] in A1, A2.
      destruct Hl as (_ & _ & Hn). rewrite Hk in *. rewrite A1, A2.
      split; [exact Hn|]. split; [discriminate|].
      split; [intros _; split; [discriminate | reflexivity] | right; exact A3].
    + pose proof (on_timeout_kill_ledger s Hl) as (_ & Hk' & Hn').
      destruct (on_timeout_effect s) as (H1 & H2 & _).
      destruct Hl as (Hr & _). specialize (H2 Hr).
      cbn [ended Sup.killed Sup.sigkills Sup.timedOut Sup.outputTruncated].
      rewrite H2 in *. rewrite H1.
      split; [exact Hn'|]. split; [intros _; split; reflexivity|].
      split; [discriminate | left; reflexivity].
  - pose proof (on_data_kill_ledger st chunk s Hl) as Hl'.
    destruct (Sup.killed (on_data st chunk s)) eqn:Hk'; cbn [fst snd].
    + destruct (killed_then_drained inflight rest _ Hl' Hk') as (K1 & K2 & K3).
      rewrite K1, K2, K3.
      split; [reflexivity|]. split; [intros _; split; reflexivity|].
      split; [discriminate | left; reflexivity].
    + apply IH; assumption.
  - destruct (EXECUTION_TIMEOUT_MS <=? t + Z.max 0 ms); cbn [fst snd].
    + pose proof (on_timeout_kill_ledger s Hl) as Hl'.
      destruct (on_timeout_effect s) as (_ & H2 & _).
      destruct Hl as (Hr & _). specialize (H2 Hr).
      destruct (killed_then_drained inflight rest _ Hl' H2) as (K1 & K2 & K3).
      rewrite K1, K2, K3.
      split; [reflexivity|]. split; [intros _; split; reflexivity|].
      split; [discriminate | left; reflexivity].
    + apply IH; assumption.
Qed.

(** X2. In one supervised execution a SIGKILL reaches the live child
    at most once. When one has, the payload carries a flag ([timedOut] or
    [outputTruncated]), no exit code and signal SIGKILL. When none has,
    the child has ended by itself and the payload carries its own exit
    code or signal. The converse of the first fails: a flag is raised
    without any signal when the process has already ended, as for a child
    that exits at once with 0 while a descendant holds its pipes for six
    seconds. *)
Theorem sigkill_sent_at_most_once :
  (forall p : Program,
     (Sup.sigkills (snd (supervise p)) <= 1)%nat
     /\ (Sup.sigkills (snd (supervise p)) = 1%nat ->
         (Result.timedOut (fst (supervise p))
          || Result.outputTruncated (fst (supervise p))) = true
         /\ Result.exitCode (fst (supervise p)) = None
         /\ Result.signal (fst (supervise p)) = Some SIGKILL)
     /\ (Sup.sigkills (snd (supervise p)) = 0%nat ->
         forall script ending inflight late release,
           p = Runs script ending inflight late release ->
           ending <> Never
           /\ (Result.exitCode (fst (supervise p)), Result.signal (fst (supervise p)))
              = own_close ending))
  /\ (let r := supervise (Runs [] (Exits 0) 0 [] 6000) in
      Result.timedOut (fst r) = true
      /\ Result.exitCode (fst r) = Some 0
      /\ Sup.sigkills (snd r) = 0%nat).
Proof.
  split; [|vm_compute; repeat split; reflexivity].
  intros p. destruct p as [code errno|script ending inflight late release].
  - cbn. split; [lia|]. split; [discriminate|]. intros _ ? ? ? ? ?. discriminate.
  - cbn [supervise].
    destruct (run_child_ledger script ending inflight late 0 (Sup.init true))
      as (L1 & L2 & L3 & L4); [repeat split | reflexivity |].
    destruct (run_child script ending inflight late 0 (Sup.init true))
      as [[c sg] [t s]].
    cbn [fst snd] in *.
    destruct (tick_effect (Z.max t release) s) as (T1 & T2 & _ & _ & _ & _ & T7).
    destruct (T7 L4) as [T8 T9].
    cbn [on_close Result.timedOut Result.outputTruncated Result.exitCode
         Result.signal].
    rewrite T1, T2, T9.
    destruct (Sup.killed s) eqn:Hk.
    + destruct (L2 eq_refl) as [E Hf]. inversion E; subst c sg.
      rewrite L1. split; [lia|]. split.
      * intros _. split; [|split; reflexivity].
        destruct (Sup.timedOut s); [reflexivity|]. cbn [orb] in *. rewrite Hf.
        apply orb_true_r.
      * discriminate.
    + destruct (L3 eq_refl) as [Hne E].
      rewrite L1. split; [lia|]. split; [discriminate|].
      intros _ script' ending' inflight' late' release' Ep.
      inversion Ep; subst. split; [exact Hne | exact E].
Qed.

Lemma on_timeout_captured st s : captured st (on_timeout s) = captured st s.
Proof.
  unfold on_timeout.
  match goal with
  | |- context [killChild ?x] => pose proof (killChild_fields x) as (H1 & H2 & _)
  end.
  destruct st; cbn [captured]; [rewrite H1 | rewrite H2]; reflexivity.
Qed.

Lemma tick_captured st t s : captured st (tick t s) = captured st s.
Proof.
  unfold tick. destruct (_ && _); [apply on_timeout_captured | reflexivity].
Qed.

Lemma buffer_length_zero b : buffer_length b = 0 -> b = [].
Proof. destruct b; [reflexivity | unfold buffer_length; cbn [List.length]; lia]. Qed.

Lemma on_data_prefix st st' chunk s pre :
  within_cap s ->
  prefix_so_far st s pre ->
  prefix_so_far st (on_data st' chunk s)
                (pre ++ (if stream_eqb st st' then chunk else [])).
Proof.
  intros Hcap (tail & Hpre & Htail).
  destruct (stream_eqb st st') eqn:Es.
  - apply stream_eqb_eq in Es. subst st'.
    assert (Hc : buffer_length (captured st s) <= MAX_OUTPUT_BYTES)
      by (destruct Hcap; destruct st; assumption).
    pose proof (buffer_length_nonneg chunk) as Hn.
    destruct (Z_le_gt_dec (buffer_length (captured st s) + buffer_length chunk)
                          MAX_OUTPUT_BYTES) as [Hfit|Hover].
    + assert (E : captured st (on_data st chunk s) = captured st s ++ chunk)
        by (rewrite on_data_fits by assumption; destruct st; reflexivity).
      destruct Htail as [-> | Hfull].
      * exists []. split; [|left; reflexivity].
        rewrite E, Hpre, !app_nil_r. reflexivity.
      * assert (chunk = []) by (apply buffer_length_zero; lia). subst chunk.
        exists tail. rewrite E, !app_nil_r. split; [exact Hpre | right; exact Hfull].
    + destruct (on_data_overflow st chunk s Hc Hover) as (E & Hlen & _).
      destruct Htail as [-> | Hfull].
      * exists (skipn (Z.to_nat (MAX_OUTPUT_BYTES - buffer_length (captured st s)))
                      chunk).
        split; [|right; exact Hlen].
        rewrite E, Hpre, app_nil_r, <- app_assoc. f_equal.
        unfold buffer_slice0. symmetry. apply firstn_skipn.
      * exists (tail ++ chunk). split; [|right; exact Hlen].
        rewrite E, Hpre, Hfull, Z.sub_diag.
        unfold buffer_slice0. cbn [Z.to_nat firstn].
        rewrite app_nil_r, <- app_assoc. reflexivity.
  - apply stream_eqb_other in Es. subst st.
    rewrite app_nil_r. exists tail. rewrite on_data_other. split; assumption.
Qed.

Lemma prefix_then_more st s pre more :
  prefix_so_far st s pre -> exists tail, pre ++ more = captured st s ++ tail.
Proof.
  intros (tail & Hpre & _). exists (tail ++ more).
  rewrite Hpre, <- app_assoc. reflexivity.
Qed.

Lemma prefix_same_capture st s s' pre :
  captured st s' = captured st s -> prefix_so_far st s pre -> prefix_so_far st s' pre.
Proof. unfold prefix_so_far. intros E. rewrite E. auto. Qed.

Lemma drain_prefix st n : forall script s pre,
  within_cap s -> prefix_so_far st s pre ->
  exists tail, pre ++ written st script = captured st (drain n script s) ++ tail.
Proof.
  induction n as [|n IH]; intros script s pre Hcap Hp; cbn [drain].
  - apply prefix_then_more, Hp.
  - destruct script as [|[st' chunk|ms] rest]; try (apply prefix_then_more, Hp).
    cbn [written]. rewrite app_assoc.
    apply IH; [apply on_data_within_cap, Hcap | apply on_data_prefix; assumption].
Qed.

Lemma after_exit_prefix st late : forall t s pre,
  within_cap s -> prefix_so_far st s pre ->
  exists tail,
    pre ++ written st late = captured st (snd (after_exit late t s)) ++ tail.
Proof.
  induction late as [|[st' chunk|ms] rest IH]; intros t s pre Hcap Hp;
    cbn [after_exit written snd].
  - apply prefix_then_more, Hp.
  - rewrite app_assoc.
    apply IH; [apply on_data_within_cap, Hcap | apply on_data_prefix; assumption].
  - apply IH; [apply tick_within_cap, Hcap|].
    apply (prefix_same_capture st s); [apply tick_captured | exact Hp].
Qed.

Lemma prefix_extend {A : Type} (pre mid cap : list A) more :
  (exists tail, pre ++ mid = cap ++ tail) ->
  exists tail, pre ++ (mid ++ more) = cap ++ tail.
Proof.
  intros (tail & E). exists (tail ++ more).
  rewrite !app_assoc, E. reflexivity.
Qed.

Lemma run_child_prefix st script ending inflight late : forall t s pre,
  within_cap s -> prefix_so_far st s pre ->
  exists tail,
    pre ++ written st (script ++ late)
    = captured st (snd (snd (run_child script ending inflight late t s))) ++ tail.
Proof.
  induction script as [|[st' chunk|ms] rest IH]; intros t s pre Hcap Hp;
    cbn [run_child written app].
  - destruct ending; cbn [snd].
    + apply after_exit_prefix; [exact Hcap|].
      apply (prefix_same_capture st s); [destruct st; reflexivity | exact Hp].
    + apply after_exit_prefix; [exact Hcap|].
      apply (prefix_same_capture st s); [destruct st; reflexivity | exact Hp].
    + apply prefix_then_more.
      apply (prefix_same_capture st s); [|exact Hp].
      transitivity (captured st (on_timeout s));
        [destruct st; reflexivity | apply on_timeout_captured].
  - rewrite app_assoc.
    destruct (Sup.killed (on_data st' chunk s)); cbn [snd].
    + rewrite written_app. apply prefix_extend.
      apply drain_prefix; [apply on_data_within_cap, Hcap|].
      apply (prefix_same_capture st (on_data st' chunk s));
        [destruct st; reflexivity | apply on_data_prefix; assumption].
    + apply IH;
        [apply on_data_within_cap, Hcap | apply on_data_prefix; assumption].
  - destruct (EXECUTION_TIMEOUT_MS <=? t + Z.max 0 ms); cbn [snd].
    + rewrite written_app. apply prefix_extend.
      apply drain_prefix; [apply on_timeout_within_cap, Hcap|].
      apply (prefix_same_capture st s); [|exact Hp].
      transitivity (captured st (on_timeout s));
        [destruct st; reflexivity | apply on_timeout_captured].
    + apply IH; assumption.
Qed.

(** X3. Whatever the child does, what is captured of a stream is a
    prefix of what was written to it: truncation and kills only cut
    the end, nothing is reordered, repeated or taken from the other
    stream. *)
Theorem capture_is_prefix_of_output :
  forall (st : Stream) (script : list ChildAct) (ending : Ending) (inflight : nat)
         (late : list ChildAct) (release : Z),
    exists tail,
      written st (script ++ late)
      = captured st (snd (supervise (Runs script ending inflight late release)))
          ++ tail.
Proof.
  intros st script ending inflight late release. cbn [supervise].
  destruct (run_child_prefix st script ending inflight late 0 (Sup.init true) [])
    as (tail & E).
  - apply init_within_cap.
  - exists []. split; [destruct st; reflexivity | left; reflexivity].
  - destruct (run_child script ending inflight late 0 (Sup.init true))
      as [[c sg] [t s]].
    cbn [snd] in *. exists tail. rewrite tick_captured. exact E.
Qed.

(** X28. A child that stays under both caps and is still alive 5000 ms
    after spawn (it has more to do, or never ends) is sent exactly one
    SIGKILL by the timer, which also sets [timedOut]. If its pipes close,
    at [release] ms after spawn, the call resolves at that time or at
    5000 ms, whichever is later, with [timedOut], no exit code and signal
    SIGKILL; if a descendant keeps the
    pipes open the call does not resolve. *)
Theorem timer_kills_a_live_child :
  forall (script : list ChildAct) (ending : Ending) (inflight : nat)
         (late : list ChildAct) (pipes : Pipes),
    stream_bytes StdoutStream script <= MAX_OUTPUT_BYTES ->
    stream_bytes StderrStream script <= MAX_OUTPUT_BYTES ->
    EXECUTION_TIMEOUT_MS <= script_duration script \/ ending = Never ->
    let r := settle script ending inflight late pipes in
    Sup.timedOut (snd r) = true
    /\ Sup.killed (snd r) = true
    /\ Sup.sigkills (snd r) = 1%nat
    /\ match pipes with
       | ClosedAt release =>
           exists payload,
             fst r = Some (Z.max EXECUTION_TIMEOUT_MS release, payload)
             /\ Result.timedOut payload = true
             /\ Result.exitCode payload = None
             /\ Result.signal payload = Some SIGKILL
       | LeftOpen => fst r = None
       end.
Proof.
  intros script ending inflight late pipes Ho He Hd r. subst r.
  unfold settle.
  destruct (run_child_deadline script ending inflight late 0 (Sup.init true))
    as (D1 & D2 & D3 & D4 & D5);
    [unfold EXECUTION_TIMEOUT_MS; lia | reflexivity | reflexivity
     | exact Ho | exact He | exact Hd |].
  destruct (run_child script ending inflight late 0 (Sup.init true))
    as [[c sg] [t s]].
  cbn [fst snd] in *. inversion D1; subst c sg. subst t.
  assert (T : forall u, tick u s = s).
  { intros u. unfold tick. rewrite D3. reflexivity. }
  destruct pipes as [release|]; cbn [fst snd]; rewrite T;
    (split; [exact D3|]); (split; [exact D4|]); (split; [exact D5|]).
  - eexists. split; [reflexivity|].
    cbn [on_close Result.timedOut Result.exitCode Result.signal].
    split; [exact D3|]. split; reflexivity.
  - reflexivity.
Qed.

(** A command that sleeps six seconds, with the pipes closed as soon as
    it is gone, and with the pipes left open. *)
Lemma timer_kills_a_live_child_witness :
  stream_bytes StdoutStream [Delay 6000] <= MAX_OUTPUT_BYTES
  /\ stream_bytes StderrStream [Delay 6000] <= MAX_OUTPUT_BYTES
  /\ EXECUTION_TIMEOUT_MS <= script_duration [Delay 6000]
  /\ fst (settle [Delay 6000] (Exits 0) 0 [] (ClosedAt 0))
     = Some (5000, Result.mk None (Some SIGKILL) "" "" true false None)
  /\ fst (settle [Delay 6000] (Exits 0) 0 [] LeftOpen) = None
  /\ Sup.sigkills (snd (settle [Delay 6000] (Exits 0) 0 [] LeftOpen)) = 1%nat.
Proof.
  assert (H1 : stream_bytes StdoutStream [Delay 6000] <= MAX_OUTPUT_BYTES)
    by (vm_compute; discriminate).
  assert (H2 : stream_bytes StderrStream [Delay 6000] <= MAX_OUTPUT_BYTES)
    by (vm_compute; discriminate).
  assert (H3 : EXECUTION_TIMEOUT_MS <= script_duration [Delay 6000])
    by (vm_compute; discriminate).
  pose proof (timer_kills_a_live_child [Delay 6000] (Exits 0) 0 [] LeftOpen
                H1 H2 (or_introl H3)) as (_ & _ & K & N).
  split; [exact H1|]. split; [exact H2|]. split; [exact H3|].
  split; [vm_compute; reflexivity|]. split; [exact N | exact K].
Defined.

(* ================================================================== *)
(** * More on the language adapters *)
(* ================================================================== *)

Lemma dispatch_cases h language code m :
  dispatch h language code = Some m ->
  (m = runJavaScript h code
   /\ (language = JStr "javascript" \/ language = JStr "typescript"))
  \/ (m = runPython h code /\ language = JStr "python")
  \/ (m = runJava h code /\ language = JStr "java")
  \/ (m = runCpp h code /\ language = JStr "cpp").
Proof.
  unfold dispatch, language_is.
  destruct language as [| |b|n|s]; try discriminate.
  destruct (String.eqb_spec s "javascript") as [->|_];
    [intros H; inversion H; auto|].
  destruct (String.eqb_spec s "typescript") as [->|_];
    [intros H; inversion H; auto|].
  cbn [orb].
  destruct (String.eqb_spec s "python") as [->|_];
    [intros H; inversion H; auto|].
  destruct (String.eqb_spec s "java") as [->|_];
    [intros H; inversion H; auto 6|].
  destruct (String.eqb_spec s "cpp") as [->|_];
    [intros H; inversion H; auto 6 | discriminate].
Qed.

Lemma dispatch_none h language code :
  (forall name, In name supported_languages -> language <> JStr name) ->
  dispatch h language code = None.
Proof.
  intros H. unfold dispatch, language_is.
  destruct language as [| |b|n|s]; try reflexivity.
  assert (N : forall name, In name supported_languages -> String.eqb s name = false).
  { intros name Hin. apply String.eqb_neq. intros ->. exact (H name Hin eq_refl). }
  rewrite !N by (cbn; auto 6). reflexivity.
Qed.





(** X5. When the workspace cannot be set up the adapter throws before
    anything is spawned: if [mkdtemp] rejects, the host is untouched; if
    [writeFile] rejects, the workspace has been made, is not removed, and
    no command is run. *)
Theorem setup_failure_spawns_nothing :
  forall (h : Host) (language : jsval) (code : string) (m : M Result.t)
         (log : list Action),
    dispatch h language code = Some m ->
    (mkdtemp h (workspace_prefix h) = None -> m log = (inr "mkdtemp", log))
    /\ (forall dir, mkdtemp h (workspace_prefix h) = Some dir ->
                    writeFile_ok h = false ->
                    m log = (inr "writeFile", log ++ [AMkdtemp dir])).
Proof.
  intros h language code m log Hd.
  destruct (dispatch_cases h language code m Hd)
    as [[-> _]|[[-> _]|[[-> _]|[-> _]]]];
    (split; [intros Hmk | intros dir Hmk Hwf]);
    unfold runJavaScript, runPython, runJava, runCpp, workspace_prefix in *;
    unfold bind, fs_mkdtemp, fs_writeFile, tell, ret, throw;
    rewrite Hmk; rewrite ?Hwf; reflexivity.
Qed.

Lemma setup_failure_spawns_nothing_witness :
  let h := {| execPath := "/usr/bin/node"; win32 := false; tmpdir := "/tmp";
              mkdtemp := fun _ => None; writeFile_ok := true; rm_ok := true;
              spawn := sleepy |} in
  dispatch h (JStr "cpp") "int main() {}" = Some (runCpp h "int main() {}")
  /\ mkdtemp h (workspace_prefix h) = None
  /\ runCpp h "int main() {}" [] = (inr "mkdtemp", []).
Proof.
  intros h.
  assert (H1 : dispatch h (JStr "cpp") "int main() {}"
               = Some (runCpp h "int main() {}")) by reflexivity.
  assert (H2 : mkdtemp h (workspace_prefix h) = None) by reflexivity.
  split; [exact H1|]. split; [exact H2|].
  exact (proj1 (setup_failure_spawns_nothing h (JStr "cpp") "int main() {}" _ [] H1)
           H2).
Defined.

Lemma compiled_adapters_return h code log dir :
  mkdtemp h (workspace_prefix h) = Some dir ->
  writeFile_ok h = true ->
  rm_ok h = true ->
  (exists r, fst (runJava h code log) = inl r)
  /\ (exists r, fst (runCpp h code log) = inl r).
Proof.
  intros Hmk Hwf Hrm. split.
  - pose proof (runJava_eq h code log dir Hmk Hwf) as E. cbv zeta in E.
    rewrite E. unfold after_rm. rewrite Hrm.
    destruct (spawnError_is_ENOENT _); [eexists; reflexivity|].
    destruct (exitCode_nonzero _); eexists; reflexivity.
  - pose proof (runCpp_eq h code log dir Hmk Hwf) as E. cbv zeta in E.
    rewrite E. unfold after_rm. rewrite Hrm.
    match goal with
    | |- context [if spawnError_is_ENOENT (if ?c then ?a else ?b) then _ else _] =>
        destruct (spawnError_is_ENOENT (if c then a else b))
    end; [eexists; reflexivity|].
    destruct (exitCode_nonzero _); eexists; reflexivity.
Qed.



(** X7. The Python adapter spawns [py -3] only when [python] could not
    be spawned for ENOENT; a [python] that ran, whatever its exit code, is
    the result. In the fallback the workspace has already been removed
    when [py] is spawned in it. *)
Theorem python_fallback_only_on_ENOENT :
  forall (h : Host) (code : string) (log : list Action) (dir : string),
    mkdtemp h (workspace_prefix h) = Some dir ->
    writeFile_ok h = true ->
    let filePath := path_join dir "main.py" in
    let res := fst (supervise (spawn h "python" [filePath])) in
    (spawnError_is_ENOENT res = false ->
     fst (runPython h code log) = inl res
     /\ spawned_cmds (snd (runPython h code log)) = spawned_cmds log ++ ["python"])
    /\ (spawnError_is_ENOENT res = true ->
        fst (runPython h code log)
        = inl (fst (supervise (spawn h "py" ["-3"; filePath])))
        /\ spawned_cmds (snd (runPython h code log))
           = spawned_cmds log ++ ["python"; "py"]
        /\ exists before after,
             snd (runPython h code log)
             = before ++ ARm dir (rm_ok h)
                 :: ASpawn "py" ["-3"; filePath] dir :: after).
Proof.
  intros h code log dir Hmk Hwf filePath res.
  pose proof (runPython_eq h code log dir Hmk Hwf) as E. cbv zeta in E.
  fold filePath in E. fold res in E. rewrite E.
  split; intros Hx; rewrite Hx.
  - split; [reflexivity | cmds].
  - split; [reflexivity|]. split; [cmds|].
    cbn [snd]. unfold spawn_log at 2.
    exists (log ++ AMkdtemp dir :: AWriteFile filePath code
                :: spawn_log h "python" [filePath] dir).
    eexists.
    repeat first [rewrite <- app_assoc | progress cbn [app]]. reflexivity.
Qed.

Lemma python_fallback_only_on_ENOENT_witness :
  let h := example_host only_python true in
  let dir := "/tmp/codesync-Ab3dE9" in
  let res := fst (supervise (spawn h "python" [path_join dir "main.py"])) in
  mkdtemp h (workspace_prefix h) = Some dir
  /\ writeFile_ok h = true
  /\ spawnError_is_ENOENT res = false
  /\ fst (runPython h "print(" []) = inl res
  /\ spawned_cmds (snd (runPython h "print(" [])) = ["python"]
  /\ Result.exitCode res = Some 1.
Proof.
  intros h dir res.
  assert (H1 : mkdtemp h (workspace_prefix h) = Some dir) by reflexivity.
  assert (H2 : writeFile_ok h = true) by reflexivity.
  assert (H3 : spawnError_is_ENOENT res = false) by reflexivity.
  destruct (python_fallback_only_on_ENOENT h "print(" [] dir H1 H2) as [HA _].
  destruct (HA H3) as [R1 R2].
  split; [exact H1|]. split; [exact H2|]. split; [exact H3|].
  split; [exact R1|]. split; [exact R2 | reflexivity].
Defined.

(* ================================================================== *)
(** * More on the run-code handler *)
(* ================================================================== *)

(** X8. A run request with string fields on an existing room, in a
    language other than javascript, typescript, python, java and cpp, is
    answered at once: nothing is done on the host, no run is left pending,
    and every socket that is in the room's channel is sent a run-result
    with no exit code, duration 0, empty stdout and the stderr line that
    names the language. *)
Theorem unsupported_language_runs_nothing :
  forall (h : Host) (sid : string) (now : Z) (d : Data.t) (st : State)
         (room : Room.t) (code lang : string),
    Data.code d = JStr code ->
    truthy (Data.roomId d) = true ->
    Data.language d = JStr lang ->
    lang <> "" ->
    ~ In lang supported_languages ->
    rget (Data.roomId d) (rooms st) = Some room ->
    run_code_request h sid now (Some d) st
    = ((emit_to (members (Data.roomId d) (adapter st))
          (RunResult (Data.roomId d) (JStr lang) now 0 None ""
             ("Execution for language " ++ dquote ++ lang ++ dquote
                ++ " is not supported yet.")%string
             false false (name_or_unknown (pget sid (Room.participants room)))),
        None),
       [])
    /\ runs (fst (step now (RunCode sid (Some d) h) st)) = runs st
    /\ (forall x, In x (members (Data.roomId d) (adapter st))
                  <-> exists l, In (x, l) (adapter st) /\ In (Data.roomId d) l).
Proof.
  intros h sid now d st room code lang Hc Hr Hl Hne Hn Hroom.
  assert (Hreq : run_code_request h sid now (Some d) st
                 = ((emit_to (members (Data.roomId d) (adapter st))
                       (RunResult (Data.roomId d) (JStr lang) now 0 None ""
                          ("Execution for language " ++ dquote ++ lang ++ dquote
                             ++ " is not supported yet.")%string
                          false false
                          (name_or_unknown (pget sid (Room.participants room)))),
                     None),
                    [])).
  { unfold run_code_request. rewrite Hc, Hr, Hl, Hroom. cbn [truthy negb orb].
    destruct (String.eqb lang "") eqn:E; [apply String.eqb_eq in E; contradiction|].
    cbn [negb].
    rewrite (dispatch_none h (JStr lang) code); [reflexivity|].
    intros name Hin E'. inversion E'; subst name. exact (Hn Hin). }
  split; [exact Hreq|]. split; [|intros x; apply members_In].
  cbn [step]. destruct (connected sid st); [|reflexivity].
  rewrite Hreq. cbn [fst runs]. apply app_nil_r.
Qed.

Lemma unsupported_language_runs_nothing_witness :
  let st := fst (run ann_and_bob initial_state) in
  let d := Data.mk (JStr "R1") JUndefined (JStr "fn main() {}") (JStr "rust") in
  let room := Room.mk (JStr "R1") (JStr (default_code (JStr "R1"))) (JStr "javascript")
                      [("sockA", ann); ("sockB", bob)] 3 4 in
  Data.code d = JStr "fn main() {}"
  /\ truthy (Data.roomId d) = true
  /\ Data.language d = JStr "rust"
  /\ "rust" <> ""
  /\ ~ In "rust" supported_languages
  /\ rget (Data.roomId d) (rooms st) = Some room
  /\ fst (fst (run_code_request (example_host sleepy true) "sockA" 10 (Some d) st))
     = emit_to ["sockA"; "sockB"]
         (RunResult (JStr "R1") (JStr "rust") 10 0 None ""
            ("Execution for language " ++ dquote ++ "rust" ++ dquote
               ++ " is not supported yet.")%string
            false false "Ann").
Proof.
  intros st d room.
  assert (H1 : Data.code d = JStr "fn main() {}") by reflexivity.
  assert (H2 : truthy (Data.roomId d) = true) by reflexivity.
  assert (H3 : Data.language d = JStr "rust") by reflexivity.
  assert (H4 : "rust" <> "") by discriminate.
  assert (H5 : ~ In "rust" supported_languages).
  { intros Hin. cbn in Hin.
    repeat (destruct Hin as [Hin|Hin]; [discriminate|]). exact Hin. }
  assert (H6 : rget (Data.roomId d) (rooms st) = Some room)
    by (vm_compute; reflexivity).
  split; [exact H1|]. split; [exact H2|]. split; [exact H3|].
  split; [exact H4|]. split; [exact H5|]. split; [exact H6|].
  rewrite (proj1 (unsupported_language_runs_nothing (example_host sleepy true)
                    "sockA" 10 d st room "fn main() {}" "rust"
                    H1 H2 H3 H4 H5 H6)).
  vm_compute; reflexivity.
Defined.

(** X9. On a host whose file-system calls work, a valid run request in
    a supported language on an existing room sends nothing at once and
    cannot end in the error reply. When the adapter comes back, each
    socket that is in the room's channel at that moment, whether or not
    it was there at the request (so the requester only if it still is),
    is sent one run-result with the adapter's payload, the time from
    request to completion, and the requester's name as of the request. *)
Theorem run_result_reaches_whole_channel :
  forall (h : Host) (sid : string) (now : Z) (d : Data.t) (st : State)
         (room : Room.t) (code : string) (m : M Result.t),
    fs_works h ->
    Data.code d = JStr code ->
    truthy (Data.roomId d) = true ->
    truthy (Data.language d) = true ->
    rget (Data.roomId d) (rooms st) = Some room ->
    dispatch h (Data.language d) code = Some m ->
    exists r,
      fst (m []) = inl r
      /\ fst (run_code_request h sid now (Some d) st)
         = ([], Some (Run.mk sid (Data.roomId d) (Data.language d) now
                             (name_or_unknown (pget sid (Room.participants room)))
                             (inl r)))
      /\ forall (doneAt : Z) (st' : State),
           run_code_done (Run.mk sid (Data.roomId d) (Data.language d) now
                                 (name_or_unknown (pget sid (Room.participants room)))
                                 (inl r))
                         doneAt st'
           = emit_to (members (Data.roomId d) (adapter st'))
               (RunResult (Data.roomId d) (Data.language d) now (doneAt - now)
                  (Result.exitCode r) (Result.stdout r) (Result.stderr r)
                  (Result.timedOut r) (Result.outputTruncated r)
                  (name_or_unknown (pget sid (Room.participants room))))
           /\ forall x, In x (members (Data.roomId d) (adapter st'))
                        <-> exists l, In (x, l) (adapter st')
                                      /\ In (Data.roomId d) l.
Proof.
  intros h sid now d st room code m ((dir & Hmk) & Hwf & Hrm)
         Hc Hr Hl Hroom Hd.
  assert (Hex : exists r, fst (m []) = inl r).
  { destruct (dispatch_cases h (Data.language d) code m Hd)
      as [[-> _]|[[-> _]|[[-> _]|[-> _]]]].
    - apply (supervised_cleanup_failure_swallowed h code [] dir Hmk Hwf).
    - apply (supervised_cleanup_failure_swallowed h code [] dir Hmk Hwf).
    - apply (compiled_adapters_return h code [] dir Hmk Hwf Hrm).
    - apply (compiled_adapters_return h code [] dir Hmk Hwf Hrm). }
  destruct Hex as (r & Hres).
  exists r. split; [exact Hres|].
  split; [|intros doneAt st'; split; [reflexivity | intros x; apply members_In]].
  unfold run_code_request. rewrite Hc, Hr, Hl, Hroom, Hd. cbn [negb orb].
  destruct (m []) as [[r'|e] log']; cbn [fst] in *; [|discriminate].
  inversion Hres; subst r'. reflexivity.
Qed.

(** Bob asks for a run in R1; while [javac] and [java] are at work a
    third socket joins R1; it gets the result too. *)
Lemma run_result_reaches_whole_channel_witness :
  let h := example_host compiles_fine true in
  let st := fst (run ann_and_bob initial_state) in
  let d := Data.mk (JStr "R1") JUndefined (JStr "class Main {}") (JStr "java") in
  let room := Room.mk (JStr "R1") (JStr (default_code (JStr "R1"))) (JStr "javascript")
                      [("sockA", ann); ("sockB", bob)] 3 4 in
  fs_works h
  /\ rget (Data.roomId d) (rooms st) = Some room
  /\ dispatch h (Data.language d) "class Main {}" = Some (runJava h "class Main {}")
  /\ snd (run latecomer_sees_result st)
     = RoomState_and_arrival_of_cy
       ++ emit_to ["sockA"; "sockB"; "sockC"]
            (RunResult (JStr "R1") (JStr "java") 10 15 (Some 0) "hello" ""
                       false false "Bob").
Proof.
  intros h st d room.
  assert (H0 : fs_works h)
    by (split; [exists "/tmp/codesync-Ab3dE9"; reflexivity | split; reflexivity]).
  assert (H4 : rget (Data.roomId d) (rooms st) = Some room)
    by (vm_compute; reflexivity).
  assert (H5 : dispatch h (Data.language d) "class Main {}"
               = Some (runJava h "class Main {}")) by reflexivity.
  split; [exact H0|]. split; [exact H4|]. split; [exact H5|].
  destruct (run_result_reaches_whole_channel h "sockB" 10 d st room
              "class Main {}" _ H0 eq_refl eq_refl eq_refl H4 H5)
    as (r & Hr & _ & _).
  assert (Hv : fst (runJava h "class Main {}" [])
               = inl (Result.mk (Some 0) None "hello" "" false false None))
    by (vm_compute; reflexivity).
  rewrite Hv in Hr. inversion Hr; subst.
  vm_compute; reflexivity.
Defined.

(* ================================================================== *)
(** * More on the room registry *)
(* ================================================================== *)

(** X10. After a sweep the registry holds exactly the rooms it held
    before that have a participant or have been idle for no more than 24
    hours: a room with a participant is never evicted however old, and an
    empty room idle for exactly 24 hours stays. *)
Theorem sweep_keeps_exactly_live_or_recent :
  forall (now : Z) (rs : list (jsval * Room.t)) (k : jsval) (r : Room.t),
    In (k, r) (cleanupInactiveRooms now rs)
    <-> In (k, r) rs
        /\ (0 < JsMap.size (Room.participants r)
            \/ now - Room.lastActivity r <= maxAge).
Proof.
  intros now rs k r.
  assert (Hev : forall x : Room.t,
             (JsMap.size (Room.participants x) =? 0)
             && (now - Room.lastActivity x >? maxAge) = false
             <-> (0 < JsMap.size (Room.participants x)
                  \/ now - Room.lastActivity x <= maxAge)).
  { intros x.
    assert (Hn : 0 <= JsMap.size (Room.participants x))
      by (unfold JsMap.size; lia).
    rewrite Z.gtb_ltb.
    destruct (Z.eqb_spec (JsMap.size (Room.participants x)) 0);
      destruct (Z.ltb_spec maxAge (now - Room.lastActivity x)); cbn [andb];
      split; intros Hx; try reflexivity; try discriminate; lia. }
  induction rs as [|[k0 r0] rs IH]; cbn [cleanupInactiveRooms].
  - split; [intros [] | intros [[] _]].
  - destruct ((JsMap.size (Room.participants r0) =? 0)
              && (now - Room.lastActivity r0 >? maxAge)) eqn:E.
    + rewrite IH. split; intros [Hin Hl]; (split; [|exact Hl]).
      * right; exact Hin.
      * destruct Hin as [Eq|Hin]; [|exact Hin].
        inversion Eq; subst k0 r0. apply Hev in Hl. congruence.
    + split.
      * intros [Eq|Hin].
        -- inversion Eq; subst k0 r0. split; [left; reflexivity | apply Hev, E].
        -- apply IH in Hin. destruct Hin as [Hin Hl]. split; [right; exact Hin | exact Hl].
      * intros [[Eq|Hin] Hl]; [left; exact Eq | right; apply IH; split; assumption].
Qed.

(** X11. Sweeps compose: a sweep followed by a later sweep leaves what
    the later sweep alone would leave; in particular a repeated sweep at
    the same clock value changes nothing more. *)
Theorem later_sweep_subsumes_earlier :
  forall (t1 t2 : Z) (rs : list (jsval * Room.t)),
    t1 <= t2 ->
    cleanupInactiveRooms t2 (cleanupInactiveRooms t1 rs) = cleanupInactiveRooms t2 rs.
Proof.
  intros t1 t2 rs Ht.
  induction rs as [|[k0 r0] rs IH]; cbn [cleanupInactiveRooms]; [reflexivity|].
  destruct (JsMap.size (Room.participants r0) =? 0) eqn:E0; cbn [andb].
  - destruct (t1 - Room.lastActivity r0 >? maxAge) eqn:E1.
    + assert (E2 : (t2 - Room.lastActivity r0 >? maxAge) = true)
        by (apply Z.gtb_lt; apply Z.gtb_lt in E1; lia).
      rewrite E2. exact IH.
    + cbn [cleanupInactiveRooms]. rewrite E0. cbn [andb].
      destruct (t2 - Room.lastActivity r0 >? maxAge); rewrite IH; reflexivity.
  - cbn [cleanupInactiveRooms]. rewrite E0. cbn [andb]. rewrite IH. reflexivity.
Qed.

Lemma later_sweep_subsumes_earlier_witness :
  let old := Room.mk (JStr "old") (JStr "") (JStr "javascript") [] 0 0 in
  let busy := Room.mk (JStr "busy") (JStr "") (JStr "javascript")
                      [("sockA", ann)] 0 0 in
  let rs := [(JStr "old", old); (JStr "busy", busy)] in
  maxAge <= maxAge + 1
  /\ cleanupInactiveRooms (maxAge + 1) (cleanupInactiveRooms maxAge rs)
     = cleanupInactiveRooms (maxAge + 1) rs
  /\ cleanupInactiveRooms maxAge rs = rs
  /\ cleanupInactiveRooms (maxAge + 1) rs = [(JStr "busy", busy)].
Proof.
  intros old busy rs.
  assert (H : maxAge <= maxAge + 1) by lia.
  split; [exact H|].
  split; [exact (later_sweep_subsumes_earlier maxAge (maxAge + 1) rs H)|].
  split; reflexivity.
Defined.

Lemma set_absent_appends {K V : Type} (dec : forall a b : K, {a = b} + {a <> b})
      (k : K) (v : V) (m : list (K * V)) :
  JsMap.get dec k m = None -> JsMap.set dec k v m = m ++ [(k, v)].
Proof.
  induction m as [|[k0 v0] m IH]; cbn [JsMap.get JsMap.set app]; [reflexivity|].
  destruct (dec k k0); [discriminate|]. intros H. rewrite IH by exact H. reflexivity.
Qed.

Lemma getOrCreateRoom_existing k t rs r0 :
  rget k rs = Some r0 -> getOrCreateRoom k t rs = (r0, rs).
Proof.
  intros H. unfold getOrCreateRoom, JsMap.has. rewrite H. cbn [negb].
  rewrite H. reflexivity.
Qed.

Lemma getOrCreateRoom_absent k t rs :
  rget k rs = None ->
  getOrCreateRoom k t rs = (new_room k t, rs ++ [(k, new_room k t)]).
Proof.
  intros H. unfold getOrCreateRoom, JsMap.has. rewrite H. cbn [negb].
  rewrite get_set_same, (set_absent_appends jsval_eq_dec) by exact H.
  reflexivity.
Qed.

(** X12. For a string room id, [getOrCreateRoom] is idempotent and
    never disturbs what is there: an existing room is handed back as it is
    with the registry unchanged; an absent one is appended with the
    default text (which quotes the id), language javascript, no
    participant and both time stamps at the clock; a second call, at
    whatever time, returns the same room and registry; and no other room
    id is affected. *)
Theorem getOrCreateRoom_idempotent :
  forall (id : string) (t1 t2 : Z) (rs : list (jsval * Room.t)),
    let k := JStr id in
    getOrCreateRoom k t2 (snd (getOrCreateRoom k t1 rs)) = getOrCreateRoom k t1 rs
    /\ (forall r0, rget k rs = Some r0 -> getOrCreateRoom k t1 rs = (r0, rs))
    /\ (rget k rs = None ->
        getOrCreateRoom k t1 rs
        = (Room.mk k (JStr (default_code k)) (JStr "javascript") [] t1 t1,
           rs ++ [(k, Room.mk k (JStr (default_code k)) (JStr "javascript") [] t1 t1)]))
    /\ (forall k', k' <> k ->
                   rget k' (snd (getOrCreateRoom k t1 rs)) = rget k' rs).
Proof.
  intros id t1 t2 rs k.
  assert (Hex : forall t r0 l, rget k l = Some r0 -> getOrCreateRoom k t l = (r0, l))
    by (intros t r0 l; apply getOrCreateRoom_existing).
  assert (Hnew : forall t l, rget k l = None ->
             getOrCreateRoom k t l = (new_room k t, l ++ [(k, new_room k t)]))
    by (intros t l; apply getOrCreateRoom_absent).
  split; [|split; [|split]].
  - destruct (rget k rs) as [r0|] eqn:E.
    + rewrite (Hex t1 r0 rs E). cbn [snd]. apply Hex, E.
    + rewrite (Hnew t1 rs E). cbn [snd]. apply Hex.
      rewrite <- (set_absent_appends jsval_eq_dec) by exact E. apply get_set_same.
  - intros r0 E. apply Hex, E.
  - intros E. apply Hnew, E.
  - intros k' Hk.
    destruct (getOrCreateRoom_spec k t1 rs) as [_ [-> | ->]]; [reflexivity|].
    apply get_set_other. congruence.
Qed.

(* ================================================================== *)
(** * More on the session gateway *)
(* ================================================================== *)

Lemma keys_set_exact {K V : Type} (dec : forall a b : K, {a = b} + {a <> b})
      (k : K) (v : V) (m : list (K * V)) :
  JsMap.keys (JsMap.set dec k v m)
  = if JsMap.has dec k m then JsMap.keys m else JsMap.keys m ++ [k].
Proof.
  unfold JsMap.has.
  induction m as [|[k0 v0] m IH]; cbn [JsMap.set JsMap.get JsMap.keys map fst app];
    [reflexivity|].
  destruct (dec k k0); cbn [map fst]; [reflexivity|].
  change (map fst (JsMap.set dec k v m)) with (JsMap.keys (JsMap.set dec k v m)).
  rewrite IH. unfold JsMap.keys.
  destruct (JsMap.get dec k m); reflexivity.
Qed.

(** What a join sends after the snapshot: [user-joined] to the sockets
    that are in the room's channel once the joiner is in it, those in the
    channel named by the joiner's id excepted. *)
Lemma emit_to_In x m recipients msg :
  In (x, m) (emit_to recipients msg) <-> m = msg /\ In x recipients.
Proof.
  unfold emit_to. rewrite in_map_iff. split.
  - intros (y & E & Hin). inversion E; subst. auto.
  - intros [-> Hin]. exists x. auto.
Qed.

(** X13. The first valid join to a room id that is not in the
    registry creates the room at the end of the registry with the default
    text and language javascript and the joiner as only participant (the
    username trimmed of white space, Unicode white space included,
    [joinedAt] and [lastSeen] at the clock); the joiner is sent exactly
    that snapshot first; [user-joined] goes to the sockets found in the
    channel of that name, those in the channel named by the joiner's id
    excepted; the connection table and the pending runs are not touched. *)
Theorem first_join_seeds_room :
  forall (sid : string) (now : Z) (d : Data.t) (st : State) (u : string),
    truthy (Data.roomId d) = true ->
    Data.username d = JStr u ->
    truthy (JStr u) = true ->
    rget (Data.roomId d) (rooms st) = None ->
    let p := Participant.mk sid (trim u) now now in
    let room := Room.mk (Data.roomId d) (JStr (default_code (Data.roomId d)))
                        (JStr "javascript") [(sid, p)] now now in
    let st' := fst (join_room sid now (Some d) st) in
    rooms st' = rooms st ++ [(Data.roomId d, room)]
    /\ userSockets st' = userSockets st
    /\ runs st' = runs st
    /\ exists rest,
         snd (join_room sid now (Some d) st)
         = (sid, RoomState (JStr (default_code (Data.roomId d))) (JStr "javascript") [p])
             :: rest
         /\ forall x m,
              In (x, m) rest
              <-> m = UserJoined p [p]
                  /\ exists l, In (x, l) (adapter st')
                               /\ In (Data.roomId d) l /\ ~ In (JStr sid) l.
Proof.
  intros sid now d st u Hr Hu Ht Hnone p room st'.
  assert (E : join_room sid now (Some d) st
              = (Build_State (rooms st ++ [(Data.roomId d, room)]) (userSockets st)
                   (socket_join sid (Data.roomId d) (leave_previous sid (adapter st)))
                   (runs st),
                 (sid, RoomState (JStr (default_code (Data.roomId d)))
                                 (JStr "javascript") [p])
                   :: emit_to (socket_to sid (Data.roomId d)
                                 (socket_join sid (Data.roomId d)
                                    (leave_previous sid (adapter st))))
                              (UserJoined p [p]))).
  { unfold join_room.
    rewrite Hu, Hr, Ht, (getOrCreateRoom_absent _ now _ Hnone). cbn [negb orb].
    unfold new_room.
    cbn [Room.participants Room.id Room.code Room.language Room.createdAt
         JsMap.set JsMap.values map snd].
    rewrite <- (set_absent_appends jsval_eq_dec _ _ _ Hnone), set_set,
      (set_absent_appends jsval_eq_dec _ _ _ Hnone).
    reflexivity. }
  subst st'. rewrite E. cbn [fst snd rooms userSockets runs adapter].
  split; [reflexivity|]. split; [reflexivity|]. split; [reflexivity|].
  eexists. split; [reflexivity|].
  intros x m. rewrite emit_to_In, socket_to_In. reflexivity.
Qed.

Lemma first_join_seeds_room_witness :
  let st := fst (run [(1, Connection "sockA")] initial_state) in
  let d := Data.mk (JStr "R1") (JStr (nbsp ++ " Ann ")) JUndefined JUndefined in
  let p := Participant.mk "sockA" "Ann" 2 2 in
  truthy (Data.roomId d) = true
  /\ Data.username d = JStr (nbsp ++ " Ann ")
  /\ truthy (JStr (nbsp ++ " Ann ")) = true
  /\ rget (Data.roomId d) (rooms st) = None
  /\ snd (join_room "sockA" 2 (Some d) st)
     = [("sockA", RoomState (JStr (default_code (JStr "R1"))) (JStr "javascript") [p])]
  /\ rooms (fst (join_room "sockA" 2 (Some d) st))
     = [(JStr "R1", Room.mk (JStr "R1") (JStr (default_code (JStr "R1")))
                            (JStr "javascript") [("sockA", p)] 2 2)].
Proof.
  intros st d p.
  assert (H1 : truthy (Data.roomId d) = true) by reflexivity.
  assert (H2 : Data.username d = JStr (nbsp ++ " Ann ")) by reflexivity.
  assert (H3 : truthy (JStr (nbsp ++ " Ann ")) = true) by reflexivity.
  assert (H4 : rget (Data.roomId d) (rooms st) = None) by reflexivity.
  split; [exact H1|]. split; [exact H2|]. split; [exact H3|]. split; [exact H4|].
  destruct (first_join_seeds_room "sockA" 2 d st (nbsp ++ " Ann ") H1 H2 H3 H4)
    as (R1 & _ & _ & _).
  split; [vm_compute; reflexivity|].
  rewrite R1. vm_compute; reflexivity.
Defined.

(** X14. A valid join to a room that exists leaves its text, language
    and creation time alone and sets [lastActivity]; the joiner's record
    is filed under the socket id, in place of an earlier record of the
    same socket (same position, no second entry) or else at the end; the
    records of the other sockets are untouched; the joiner is sent the
    stored list of participants first, and [user-joined] with the same
    list goes to the sockets in the room's channel, those in the channel
    named by the joiner's id excepted. *)
Theorem join_existing_room :
  forall (sid : string) (now : Z) (d : Data.t) (st : State) (u : string)
         (room : Room.t),
    truthy (Data.roomId d) = true ->
    Data.username d = JStr u ->
    truthy (JStr u) = true ->
    rget (Data.roomId d) (rooms st) = Some room ->
    let p := Participant.mk sid (trim u) now now in
    let ps := pset sid p (Room.participants room) in
    let st' := fst (join_room sid now (Some d) st) in
    rooms st'
    = rset (Data.roomId d)
           (Room.mk (Room.id room) (Room.code room) (Room.language room) ps
                    (Room.createdAt room) now)
           (rooms st)
    /\ pget sid ps = Some p
    /\ (forall other, other <> sid -> pget other ps = pget other (Room.participants room))
    /\ JsMap.keys ps
       = (if JsMap.has string_dec sid (Room.participants room)
          then JsMap.keys (Room.participants room)
          else JsMap.keys (Room.participants room) ++ [sid])
    /\ exists rest,
         snd (join_room sid now (Some d) st)
         = (sid, RoomState (Room.code room) (Room.language room) (JsMap.values ps))
             :: rest
         /\ forall x m,
              In (x, m) rest
              <-> m = UserJoined p (JsMap.values ps)
                  /\ exists l, In (x, l) (adapter st')
                               /\ In (Data.roomId d) l /\ ~ In (JStr sid) l.
Proof.
  intros sid now d st u room Hr Hu Ht Hroom p ps st'.
  assert (E : join_room sid now (Some d) st
              = (Build_State
                   (rset (Data.roomId d)
                         (Room.mk (Room.id room) (Room.code room) (Room.language room)
                                  ps (Room.createdAt room) now)
                         (rooms st))
                   (userSockets st)
                   (socket_join sid (Data.roomId d) (leave_previous sid (adapter st)))
                   (runs st),
                 (sid, RoomState (Room.code room) (Room.language room)
                                 (JsMap.values ps))
                   :: emit_to (socket_to sid (Data.roomId d)
                                 (socket_join sid (Data.roomId d)
                                    (leave_previous sid (adapter st))))
                              (UserJoined p (JsMap.values ps)))).
  { unfold join_room.
    rewrite Hu, Hr, Ht, (getOrCreateRoom_existing _ now _ _ Hroom). reflexivity. }
  subst st'. rewrite E. cbn [fst snd rooms adapter].
  split; [reflexivity|]. split; [apply get_set_same|].
  split; [intros other Hne; apply get_set_other; congruence|].
  split; [apply keys_set_exact|].
  eexists. split; [reflexivity|].
  intros x m. rewrite emit_to_In, socket_to_In. reflexivity.
Qed.

Lemma join_existing_room_witness :
  let st := fst (run ann_and_bob initial_state) in
  let d := Data.mk (JStr "R1") (JStr "Annie") JUndefined JUndefined in
  let room := Room.mk (JStr "R1") (JStr (default_code (JStr "R1"))) (JStr "javascript")
                      [("sockA", ann); ("sockB", bob)] 3 4 in
  let annie := Participant.mk "sockA" "Annie" 8 8 in
  truthy (Data.roomId d) = true
  /\ Data.username d = JStr "Annie"
  /\ truthy (JStr "Annie") = true
  /\ rget (Data.roomId d) (rooms st) = Some room
  /\ JsMap.keys (pset "sockA" annie (Room.participants room)) = ["sockA"; "sockB"]
  /\ snd (join_room "sockA" 8 (Some d) st)
     = [ ("sockA", RoomState (JStr (default_code (JStr "R1"))) (JStr "javascript")
                             [annie; bob]);
         ("sockB", UserJoined annie [annie; bob]) ].
Proof.
  intros st d room annie.
  assert (H1 : truthy (Data.roomId d) = true) by reflexivity.
  assert (H2 : Data.username d = JStr "Annie") by reflexivity.
  assert (H3 : truthy (JStr "Annie") = true) by reflexivity.
  assert (H4 : rget (Data.roomId d) (rooms st) = Some room)
    by (vm_compute; reflexivity).
  destruct (join_existing_room "sockA" 8 d st "Annie" room H1 H2 H3 H4)
    as (_ & _ & _ & Hk & _).
  split; [exact H1|]. split; [exact H2|]. split; [exact H3|]. split; [exact H4|].
  split; [exact Hk|].
  vm_compute; reflexivity.
Defined.

Section MoreJsMapFacts.
Context {K V : Type}.
Variable dec : forall a b : K, {a = b} + {a <> b}.

Implicit Types (k : K) (v : V) (m : list (K * V)).

Lemma In_delete k m k' v' :
  In (k', v') (JsMap.delete dec k m) <-> k' <> k /\ In (k', v') m.
Proof.
  induction m as [|[k0 v0] m IH]; cbn [JsMap.delete].
  - split; [intros [] | intros [_ []]].
  - destruct (dec k k0) as [E|N].
    + subst k0. rewrite IH. split.
      * intros [Hn Hin]. split; [exact Hn | right; exact Hin].
      * intros [Hn [E|Hin]]; [inversion E; congruence | split; assumption].
    + split.
      * intros [E|Hin].
        -- inversion E; subst. split; [congruence | left; reflexivity].
        -- apply IH in Hin. destruct Hin. split; [assumption | right; assumption].
      * intros [Hn [E|Hin]]; [left; exact E | right; apply IH; split; assumption].
Qed.

Lemma In_has k v m : In (k, v) m -> JsMap.has dec k m = true.
Proof.
  unfold JsMap.has.
  induction m as [|[k0 v0] m IH]; cbn [JsMap.get]; [intros []|].
  destruct (dec k k0); [reflexivity|].
  intros [E|Hin]; [inversion E; congruence | apply IH, Hin].
Qed.

Lemma has_In k m : JsMap.has dec k m = true -> In k (JsMap.keys m).
Proof.
  unfold JsMap.has.
  induction m as [|[k0 v0] m IH]; cbn [JsMap.get JsMap.keys map fst];
    [discriminate|].
  destruct (dec k k0) as [E|N]; [intros _; left; symmetry; exact E|].
  intros H; right; apply IH, H.
Qed.

Lemma get_delete_same k m : JsMap.get dec k (JsMap.delete dec k m) = None.
Proof.
  induction m as [|[k0 v0] m IH]; cbn [JsMap.delete JsMap.get]; [reflexivity|].
  destruct (dec k k0) as [E|N]; [exact IH|].
  cbn [JsMap.get]. destruct (dec k k0); [contradiction | exact IH].
Qed.

Lemma get_delete_other k k' m :
  k' <> k -> JsMap.get dec k' (JsMap.delete dec k m) = JsMap.get dec k' m.
Proof.
  intros Hne.
  induction m as [|[k0 v0] m IH]; cbn [JsMap.delete JsMap.get]; [reflexivity|].
  destruct (dec k k0) as [E|N].
  - subst k0. destruct (dec k' k); [contradiction | exact IH].
  - cbn [JsMap.get]. destruct (dec k' k0); [reflexivity | exact IH].
Qed.

Lemma NoDup_In_get k v m :
  NoDup (JsMap.keys m) -> In (k, v) m -> JsMap.get dec k m = Some v.
Proof.
  induction m as [|[k0 v0] m IH]; cbn [JsMap.keys map fst JsMap.get]; [intros _ []|].
  intros Hnd Hin. inversion Hnd as [|x l Hx Hl]; subst.
  destruct Hin as [E|Hin].
  - inversion E; subst. destruct (dec k k); [reflexivity | contradiction].
  - destruct (dec k k0) as [E|N]; [|apply IH; assumption].
    subst k0. exfalso. apply Hx. apply in_map_iff. exists (k, v). split; auto.
Qed.

Lemma In_set_other k v m k' v' :
  In (k', v') m -> k' <> k -> In (k', v') (JsMap.set dec k v m).
Proof.
  intros Hin Hne.
  induction m as [|[k0 v0] m IH]; cbn [JsMap.set]; [destruct Hin|].
  destruct (dec k k0) as [E|N].
  - subst k0. destruct Hin as [E|Hin]; [inversion E; congruence | right; exact Hin].
  - destruct Hin as [E|Hin]; [left; exact E | right; apply IH, Hin].
Qed.

Lemma In_set_same k v m : In (k, v) (JsMap.set dec k v m).
Proof. apply (get_In dec), get_set_same. Qed.

Lemma has_set_mono k v m k' :
  JsMap.has dec k' m = true -> JsMap.has dec k' (JsMap.set dec k v m) = true.
Proof.
  unfold JsMap.has. intros H.
  destruct (dec k k') as [E|N].
  - subst k'. rewrite get_set_same. reflexivity.
  - rewrite get_set_other by exact N. exact H.
Qed.

Lemma has_set_same k v m : JsMap.has dec k (JsMap.set dec k v m) = true.
Proof. unfold JsMap.has. rewrite get_set_same. reflexivity. Qed.

Lemma keys_In k v m : In (k, v) m -> In k (JsMap.keys m).
Proof.
  intros H. apply in_map_iff. exists (k, v). split; [reflexivity | exact H].
Qed.

Lemma In_keys k m : In k (JsMap.keys m) -> exists v, In (k, v) m.
Proof.
  intros H. apply in_map_iff in H. destruct H as ([k0 v0] & E & Hin).
  cbn in E. subst k0. exists v0. exact Hin.
Qed.

Lemma keys_delete k m :
  JsMap.keys (JsMap.delete dec k m) = filter (fun x => if dec k x then false else true)
                                             (JsMap.keys m).
Proof.
  induction m as [|[k0 v0] m IH]; cbn [JsMap.delete JsMap.keys map fst filter];
    [reflexivity|].
  destruct (dec k k0); cbn [map fst]; [exact IH|].
  f_equal. exact IH.
Qed.

Lemma NoDup_keys_delete k m :
  NoDup (JsMap.keys m) -> NoDup (JsMap.keys (JsMap.delete dec k m)).
Proof. intros H. rewrite keys_delete. apply NoDup_filter, H. Qed.
End MoreJsMapFacts.

(* ------------------------------------------------------------------ *)
(** ** Channels *)
(* ------------------------------------------------------------------ *)


(** The transport side of a join: the socket ends up in its own channel
    entries and in the joined channel only. *)
Lemma join_adapter sid roomId ad :
  socket_join sid roomId (leave_previous sid ad)
  = pset sid
      (let own := filter (fun r => if jsval_eq_dec r (JStr sid) then true else false)
                         (socket_rooms sid ad) in
       if in_channel roomId own then own else own ++ [roomId])
      ad.
Proof.
  unfold socket_join, leave_previous.
  assert (E : socket_rooms sid
                (pset sid
                   (filter (fun r => if jsval_eq_dec r (JStr sid) then true else false)
                           (socket_rooms sid ad)) ad)
              = filter (fun r => if jsval_eq_dec r (JStr sid) then true else false)
                       (socket_rooms sid ad)).
  { unfold socket_rooms at 1. rewrite get_set_same. reflexivity. }
  rewrite E, set_set. reflexivity.
Qed.

Lemma join_room_adapter sid now data st :
  adapter (fst (join_room sid now data st)) = adapter st
  \/ exists d, data = Some d
               /\ adapter (fst (join_room sid now data st))
                  = socket_join sid (Data.roomId d) (leave_previous sid (adapter st)).
Proof.
  unfold join_room. destruct data as [d|]; [|left; reflexivity].
  destruct (negb (truthy (Data.roomId d)) || negb (truthy (Data.username d)));
    [left; reflexivity|].
  destruct (getOrCreateRoom (Data.roomId d) now (rooms st)) as [room rs1].
  right. exists d. split; [reflexivity|].
  destruct (Data.username d); reflexivity.
Qed.

Lemma step_adapter_cases now e st :
  adapter (fst (step now e st)) = adapter st
  \/ (exists sid, e = Connection sid /\ connected sid st = false
                  /\ adapter (fst (step now e st)) = pset sid [JStr sid] (adapter st))
  \/ (exists sid d, e = JoinRoom sid (Some d) /\ connected sid st = true
                    /\ adapter (fst (step now e st))
                       = socket_join sid (Data.roomId d)
                                     (leave_previous sid (adapter st)))
  \/ (exists sid, e = Disconnect sid /\ connected sid st = true
                  /\ adapter (fst (step now e st)) = pdelete sid (adapter st)).
Proof.
  destruct e as [sid|sid d|sid d|sid d|sid d h|i|sid|sid|]; cbn [step];
    try (destruct (connected sid st) eqn:Ec; cbn [fst]; try (left; reflexivity));
    try solve [left; run_frame; reflexivity].
  - right; left. exists sid. auto.
  - destruct (join_room_adapter sid now d st) as [E|(d0 & -> & E)];
      [left; exact E|].
    right; right; left. exists sid, d0. auto.
  - unfold code_change. destruct d as [d|]; [|left; reflexivity].
    destruct (rget _ _); left; reflexivity.
  - unfold language_change. destruct d as [d|]; [|left; reflexivity].
    destruct (rget _ _); left; reflexivity.
  - right; right; right. exists sid. split; [reflexivity|]. split; [exact Ec|].
    unfold disconnect. destruct (disconnect_rooms _ _ _ _). reflexivity.
Qed.

Lemma step_one_room_channel now e st :
  one_room_channel st -> one_room_channel (fst (step now e st)).
Proof.
  unfold one_room_channel. intros H s l.
  destruct (step_adapter_cases now e st)
    as [E|[(sid & _ & _ & E)|[(sid & d & _ & Hc & E)|(sid & _ & _ & E)]]];
    rewrite E; clear E.
  - apply H.
  - intros Hin. destruct (In_set string_dec _ _ _ _ _ Hin) as [[-> ->]|Hold];
      [left; reflexivity | apply H, Hold].
  - rewrite join_adapter. intros Hin.
    destruct (In_set string_dec _ _ _ _ _ Hin) as [[-> ->]|Hold]; [|apply H, Hold].
    unfold connected, JsMap.has in Hc. unfold socket_rooms.
    destruct (pget sid (adapter st)) as [l0|] eqn:Eg; [|discriminate].
    assert (Hown : filter (fun r => if jsval_eq_dec r (JStr sid) then true else false) l0
                   = [JStr sid]).
    { destruct (H sid l0 (get_In string_dec _ _ _ Eg)) as [-> | (r & Hr & ->)];
        cbn [filter].
      - destruct (jsval_eq_dec (JStr sid) (JStr sid)); [reflexivity | contradiction].
      - destruct (jsval_eq_dec (JStr sid) (JStr sid)); [|contradiction].
        destruct (jsval_eq_dec r (JStr sid)); [contradiction | reflexivity]. }
    cbv zeta. rewrite Hown. cbn [in_channel existsb].
    destruct (jsval_eq_dec (Data.roomId d) (JStr sid)) as [Eq|Ne]; cbn [orb app].
    + left; reflexivity.
    + right. exists (Data.roomId d). split; [exact Ne | reflexivity].
  - intros Hin. apply In_delete in Hin. apply H, Hin.
Qed.

Lemma run_preserves (P : State -> Prop) :
  (forall now e st, P st -> P (fst (step now e st))) ->
  forall evs st, P st -> P (fst (run evs st)).
Proof.
  intros Hstep evs.
  induction evs as [|[now e] evs IH]; intros st H; cbn [run]; [exact H|].
  specialize (Hstep now e st H).
  destruct (step now e st) as [st1 out1]. cbn [fst] in Hstep.
  specialize (IH st1 Hstep).
  destruct (run evs st1) as [st2 out2]. exact IH.
Qed.

Lemma reachable_one_room_channel evs :
  one_room_channel (fst (run evs initial_state)).
Proof.
  apply (run_preserves one_room_channel).
  - intros now e st. apply step_one_room_channel.
  - intros sid l [].
Qed.

(** X15. At the transport a connection is in at most one room at a
    time: after any sequence of events whose payload fields are strings
    or absent, every live socket is in its own channel and in at most one
    other. *)
Theorem socket_in_at_most_one_room_channel :
  forall evs : list (Z * Event),
    Forall (fun te => typed_event (snd te) = true) evs ->
    one_room_channel (fst (run evs initial_state)).
Proof. intros evs _. apply reachable_one_room_channel. Qed.

Lemma socket_in_at_most_one_room_channel_witness :
  Forall (fun te => typed_event (snd te) = true) ann_switches
  /\ one_room_channel (fst (run ann_switches initial_state))
  /\ adapter (fst (run ann_switches initial_state))
     = [("sockA", [JStr "sockA"; JStr "R2"]); ("sockB", [JStr "sockB"; JStr "R1"])].
Proof.
  assert (H : Forall (fun te => typed_event (snd te) = true) ann_switches)
    by (repeat constructor).
  split; [exact H|].
  split; [exact (socket_in_at_most_one_room_channel ann_switches H)|].
  vm_compute; reflexivity.
Defined.

(* ------------------------------------------------------------------ *)
(** ** Participant records and live sockets *)
(* ------------------------------------------------------------------ *)

Lemma participants_live_alt st :
  participants_live st
  <-> (forall k r, In (k, r) (rooms st) -> live_in (adapter st) (Room.participants r)).
Proof.
  unfold participants_live, live_in, connected. split.
  - intros H k r Hin sid p Hp. exact (H k r sid p Hin Hp).
  - intros H k r sid p Hin Hp. exact (H k r Hin sid p Hp).
Qed.

Lemma live_in_set_adapter ad ps s v :
  live_in ad ps -> live_in (pset s v ad) ps.
Proof.
  intros H sid p Hin. destruct (H sid p Hin) as [Hc Hid].
  split; [apply has_set_mono, Hc | exact Hid].
Qed.

Lemma live_in_pset ad ps sid p :
  live_in ad ps -> JsMap.has string_dec sid ad = true -> Participant.id p = sid ->
  live_in ad (pset sid p ps).
Proof.
  intros H Hc Hid s q Hin.
  destruct (In_set string_dec _ _ _ _ _ Hin) as [[-> ->]|Hold];
    [split; assumption | apply H, Hold].
Qed.

Lemma live_in_delete ad ps sid :
  live_in ad ps -> live_in (pdelete sid ad) (pdelete sid ps).
Proof.
  intros H s q Hin. apply In_delete in Hin. destruct Hin as [Hne Hin].
  destruct (H s q Hin) as [Hc Hid]. split; [|exact Hid].
  unfold JsMap.has in *. rewrite get_delete_other by exact Hne. exact Hc.
Qed.

Lemma live_in_touch ad ps sid now :
  live_in ad ps -> live_in ad (touch_lastSeen sid now ps).
Proof.
  intros H. unfold touch_lastSeen.
  destruct (pget sid ps) as [p0|] eqn:E; [|exact H].
  destruct (H sid p0 (get_In string_dec _ _ _ E)) as [Hc Hid].
  apply live_in_pset; assumption.
Qed.

Lemma disconnect_rooms_entries_strong sid now ad rs k r' :
  In (k, r') (fst (disconnect_rooms sid now ad rs)) ->
  (In (k, r') rs /\ pget sid (Room.participants r') = None)
  \/ (exists r, In (k, r) rs
                /\ r' = Room.mk (Room.id r) (Room.code r) (Room.language r)
                                (pdelete sid (Room.participants r))
                                (Room.createdAt r) now
                /\ pget sid (Room.participants r) <> None).
Proof.
  induction rs as [|[k0 r0] rs IH]; cbn [disconnect_rooms]; [intros []|].
  destruct (disconnect_rooms sid now ad rs) as [rest' out]. cbn [fst] in IH.
  assert (Hrest : In (k, r') rest' ->
            (In (k, r') ((k0, r0) :: rs) /\ pget sid (Room.participants r') = None)
            \/ (exists r, In (k, r) ((k0, r0) :: rs)
                          /\ r' = Room.mk (Room.id r) (Room.code r) (Room.language r)
                                          (pdelete sid (Room.participants r))
                                          (Room.createdAt r) now
                          /\ pget sid (Room.participants r) <> None)).
  { intros H. destruct (IH H) as [[H1 H2]|(r & H1 & H2)].
    - left; split; [right; exact H1 | exact H2].
    - right; exists r; split; [right; exact H1 | exact H2]. }
  destruct (pget sid (Room.participants r0)) as [p|] eqn:Ep.
  - destruct (JsMap.size (pdelete sid (Room.participants r0)) =? 0); cbn [fst].
    + exact Hrest.
    + intros [E|H]; [|exact (Hrest H)].
      inversion E; subst k r'. right. exists r0.
      split; [left; reflexivity|]. split; [reflexivity | congruence].
  - cbn [fst]. intros [E|H]; [|exact (Hrest H)].
    inversion E; subst k0 r0. left. split; [left; reflexivity | exact Ep].
Qed.

Lemma step_participants_live now e st :
  participants_live st -> participants_live (fst (step now e st)).
Proof.
  rewrite !participants_live_alt. intros H.
  destruct e as [sid|sid d|sid d|sid d|sid d h|i|sid|sid|]; cbn [step];
    try (destruct (connected sid st) eqn:Ec; cbn [fst]; try exact H);
    try solve [run_frame; exact H].
  - (* connection *)
    cbn [connection rooms adapter]. intros k r Hin.
    apply live_in_set_adapter, (H k r Hin).
  - (* join-room *)
    unfold join_room. destruct d as [d|]; [|exact H].
    destruct (negb (truthy (Data.roomId d)) || negb (truthy (Data.username d)));
      [exact H|].
    destruct (getOrCreateRoom_spec (Data.roomId d) now (rooms st)) as [Hg Hs].
    destruct (getOrCreateRoom (Data.roomId d) now (rooms st)) as [room rs1].
    cbn [fst snd] in Hg, Hs. rewrite join_adapter.
    assert (H1 : forall k r, In (k, r) rs1 -> live_in (adapter st) (Room.participants r)).
    { intros k r Hin. destruct Hs as [-> | ->]; [exact (H k r Hin)|].
      destruct (In_set jsval_eq_dec _ _ _ _ _ Hin) as [[_ ->]|Hold];
        [intros s q [] | exact (H k r Hold)]. }
    destruct (Data.username d); cbn [fst rooms adapter]; intros k r Hin;
      try (apply live_in_set_adapter, (H1 k r Hin)).
    destruct (In_set jsval_eq_dec _ _ _ _ _ Hin) as [[_ ->]|Hold];
      [|apply live_in_set_adapter, (H1 k r Hold)].
    cbn [Room.participants]. apply live_in_pset;
      [apply live_in_set_adapter,
         (H1 _ _ (get_In jsval_eq_dec _ _ _ Hg))
      | apply has_set_same | reflexivity].
  - (* code-change *)
    unfold code_change. destruct d as [d|]; [|exact H].
    destruct (rget (Data.roomId d) (rooms st)) as [room|] eqn:Er; [|exact H].
    cbn [fst rooms adapter]. intros k r Hin.
    destruct (In_set jsval_eq_dec _ _ _ _ _ Hin) as [[_ ->]|Hold];
      [|exact (H k r Hold)].
    cbn [Room.participants]. apply live_in_touch.
    exact (H _ _ (get_In jsval_eq_dec _ _ _ Er)).
  - (* language-change *)
    unfold language_change. destruct d as [d|]; [|exact H].
    destruct (rget (Data.roomId d) (rooms st)) as [room|] eqn:Er; [|exact H].
    cbn [fst rooms adapter]. intros k r Hin.
    destruct (In_set jsval_eq_dec _ _ _ _ _ Hin) as [[_ ->]|Hold];
      [|exact (H k r Hold)].
    cbn [Room.participants]. exact (H _ _ (get_In jsval_eq_dec _ _ _ Er)).
  - (* disconnect *)
    unfold disconnect.
    pose proof (disconnect_rooms_entries_strong sid now (pdelete sid (adapter st))
                  (rooms st)) as Hd.
    destruct (disconnect_rooms sid now (pdelete sid (adapter st)) (rooms st))
      as [rs' out].
    cbn [fst rooms adapter] in *. intros k r Hin.
    destruct (Hd k r Hin) as [[Hold Hnone]|(r0 & Hold & -> & _)].
    + intros s q Hq. destruct (H k r Hold s q Hq) as [Hc Hid]. split; [|exact Hid].
      assert (s <> sid).
      { intros ->. apply (In_has string_dec) in Hq. unfold JsMap.has in Hq.
        rewrite Hnone in Hq. discriminate. }
      unfold JsMap.has in *. rewrite get_delete_other by assumption. exact Hc.
    + cbn [Room.participants]. apply live_in_delete, (H k r0 Hold).
  - (* sweep *)
    cbn [fst rooms adapter]. intros k r Hin.
    exact (H k r (cleanup_entries now _ _ _ Hin)).
Qed.

(** X16. After any sequence of events every participant record of every
    room belongs to a socket that is connected and is filed under the id
    it carries: no record outlives its connection. *)
Theorem participants_are_live_sockets :
  forall evs : list (Z * Event),
    participants_live (fst (run evs initial_state)).
Proof.
  intros evs. apply (run_preserves participants_live).
  - intros now e st. apply step_participants_live.
  - intros k r sid p [].
Qed.

Lemma disconnect_rooms_keeps_others sid now ad rs k r s p :
  In (k, r) rs -> In (s, p) (Room.participants r) -> s <> sid ->
  exists r', In (k, r') (fst (disconnect_rooms sid now ad rs))
             /\ In (s, p) (Room.participants r').
Proof.
  intros Hin Hp Hne.
  induction rs as [|[k0 r0] rs IH]; cbn [disconnect_rooms]; [destruct Hin|].
  destruct (disconnect_rooms sid now ad rs) as [rest' out]. cbn [fst] in IH.
  destruct Hin as [E|Hin].
  - inversion E; subst k0 r0.
    destruct (pget sid (Room.participants r)) as [q|].
    + assert (Hq : In (s, p) (pdelete sid (Room.participants r)))
        by (apply In_delete; split; assumption).
      destruct (JsMap.size (pdelete sid (Room.participants r)) =? 0) eqn:Ez.
      * apply size_zero in Ez. rewrite Ez in Hq. destruct Hq.
      * cbn [fst]. eexists. split; [left; reflexivity | exact Hq].
    + cbn [fst]. exists r. split; [left; reflexivity | exact Hp].
  - destruct (IH Hin) as (r' & H1 & H2).
    exists r'. split; [|exact H2].
    destruct (pget sid (Room.participants r0));
      [destruct (JsMap.size _ =? 0)|]; cbn [fst]; try exact H1; right; exact H1.
Qed.

Lemma disconnect_rooms_keeps sid now ad rs k r :
  In (k, r) rs -> pget sid (Room.participants r) = None ->
  In (k, r) (fst (disconnect_rooms sid now ad rs)).
Proof.
  intros Hin Hnone.
  induction rs as [|[k0 r0] rs IH]; cbn [disconnect_rooms]; [destruct Hin|].
  destruct (disconnect_rooms sid now ad rs) as [rest' out]. cbn [fst] in IH.
  destruct Hin as [E|Hin].
  - inversion E; subst k0 r0. rewrite Hnone. left; reflexivity.
  - specialize (IH Hin).
    destruct (pget sid (Room.participants r0));
      [destruct (JsMap.size _ =? 0)|]; cbn [fst]; try exact IH; right; exact IH.
Qed.

Lemma members_connected x r ad :
  In x (members r ad) -> JsMap.has string_dec x ad = true.
Proof.
  intros H. apply members_In in H. destruct H as (l & Hin & _).
  exact (In_has string_dec _ _ _ Hin).
Qed.

Lemma disconnect_rooms_out sid now ad rs x m :
  In (x, m) (snd (disconnect_rooms sid now ad rs)) ->
  exists k, In x (socket_to sid k ad).
Proof.
  induction rs as [|[k0 r0] rs IH]; cbn [disconnect_rooms]; [intros []|].
  destruct (disconnect_rooms sid now ad rs) as [rest' out]. cbn [snd] in IH.
  assert (Hhere : forall msg, In (x, m) (emit_to (socket_to sid k0 ad) msg ++ out) ->
                              exists k, In x (socket_to sid k ad)).
  { intros msg H. apply in_app_or in H. destruct H as [H|H]; [|exact (IH H)].
    unfold emit_to in H. apply in_map_iff in H. destruct H as (y & E & Hy).
    inversion E; subst y. exists k0. exact Hy. }
  destruct (pget sid (Room.participants r0));
    [destruct (JsMap.size _ =? 0)|]; cbn [snd]; try apply Hhere. exact IH.
Qed.

(** X17. The disconnect handler forgets the socket everywhere and
    nothing else: afterwards the socket is in no channel, not in the
    connection table and in no room; a room that did not list it is left
    exactly as it was; every other participant record survives in its
    room; the other sockets keep their channels; and no user-left message
    is addressed to the socket that left. *)
Theorem disconnect_forgets_the_socket :
  forall (sid : string) (now : Z) (st : State),
    connected sid (fst (disconnect sid now st)) = false
    /\ pget sid (userSockets (fst (disconnect sid now st))) = None
    /\ (forall k r, In (k, r) (rooms (fst (disconnect sid now st))) ->
                    pget sid (Room.participants r) = None)
    /\ (forall k r, In (k, r) (rooms st) -> pget sid (Room.participants r) = None ->
                    In (k, r) (rooms (fst (disconnect sid now st))))
    /\ (forall k r s p, In (k, r) (rooms st) -> In (s, p) (Room.participants r) ->
                        s <> sid ->
                        exists r', In (k, r') (rooms (fst (disconnect sid now st)))
                                   /\ In (s, p) (Room.participants r'))
    /\ (forall s, s <> sid ->
                  pget s (adapter (fst (disconnect sid now st))) = pget s (adapter st))
    /\ (forall x m, In (x, m) (snd (disconnect sid now st)) -> x <> sid).
Proof.
  intros sid now st. unfold disconnect, connected, JsMap.has.
  pose proof (disconnect_rooms_entries_strong sid now (pdelete sid (adapter st))
                (rooms st)) as He.
  pose proof (disconnect_rooms_keeps sid now (pdelete sid (adapter st)) (rooms st))
    as Hk.
  pose proof (disconnect_rooms_keeps_others sid now (pdelete sid (adapter st))
                (rooms st)) as Ho.
  pose proof (disconnect_rooms_out sid now (pdelete sid (adapter st)) (rooms st))
    as Hout.
  destruct (disconnect_rooms sid now (pdelete sid (adapter st)) (rooms st))
    as [rs' out].
  cbn [fst snd rooms adapter userSockets] in *.
  rewrite !get_delete_same.
  split; [reflexivity|]. split; [reflexivity|].
  split.
  { intros k r Hin. destruct (He k r Hin) as [[_ Hn]|(r0 & _ & -> & _)];
      [exact Hn | cbn [Room.participants]; apply get_delete_same]. }
  split; [exact Hk|]. split.
  { intros k r s p H1 H2 H3. exact (Ho k r s p H1 H2 H3). }
  split.
  { intros s Hne. apply get_delete_other. exact Hne. }
  intros x m Hin. destruct (Hout x m Hin) as (k & Hx).
  apply socket_to_members, members_connected in Hx.
  intros ->. unfold JsMap.has in Hx. rewrite get_delete_same in Hx. discriminate.
Qed.

Lemma has_pset_present sid v (ad : list (string * list jsval)) x :
  JsMap.has string_dec sid ad = true ->
  JsMap.has string_dec x (pset sid v ad) = true ->
  JsMap.has string_dec x ad = true.
Proof.
  unfold JsMap.has. intros Hs Hx.
  destruct (string_dec sid x) as [E|N].
  - subst x. exact Hs.
  - rewrite get_set_other in Hx by exact N. exact Hx.
Qed.

Lemma has_pdelete x sid (ad : list (string * list jsval)) :
  JsMap.has string_dec x (pdelete sid ad) = true -> JsMap.has string_dec x ad = true.
Proof.
  unfold JsMap.has. destruct (string_dec x sid) as [E|N].
  - subst x. rewrite get_delete_same. discriminate.
  - rewrite get_delete_other by exact N. auto.
Qed.

(** X18. Every message a turn of the event loop hands to the
    transport is addressed to a socket that is connected at that moment,
    with one exception: the 'Failed to run code' reply of a run whose
    adapter threw, which is emitted on the requester's socket whether it
    is still connected or not. *)
Theorem messages_go_to_live_sockets :
  forall (now : Z) (e : Event) (st : State) (x : string) (m : Msg),
    In (x, m) (snd (step now e st)) ->
    connected x st = true
    \/ (m = ErrorMsg "Failed to run code"
        /\ exists i r err, e = RunDone i /\ nth_error (runs st) i = Some r
                           /\ Run.sid r = x /\ Run.outcome r = inr err).
Proof.
  intros now e st x m. unfold connected.
  assert (Hemit : forall rcpts msg,
             (forall y, In y rcpts -> JsMap.has string_dec y (adapter st) = true) ->
             In (x, m) (emit_to rcpts msg) ->
             JsMap.has string_dec x (adapter st) = true).
  { intros rcpts msg Hall Hin. unfold emit_to in Hin. apply in_map_iff in Hin.
    destruct Hin as (y & E & Hy). inversion E; subst y. apply Hall, Hy. }
  assert (Hto : forall sid r y, In y (socket_to sid r (adapter st)) ->
                                JsMap.has string_dec y (adapter st) = true).
  { intros sid r y Hy. apply socket_to_members, members_connected in Hy. exact Hy. }
  destruct e as [sid|sid d|sid d|sid d|sid d h|i|sid|sid|]; cbn [step];
    try (destruct (connected sid st) eqn:Ec; cbn [snd]; unfold connected in Ec);
    try match goal with |- In _ [] -> _ => intros [] end.
  - (* join-room *)
    intros Hin. left. revert Hin.
    unfold join_room. destruct d as [d|];
      [|cbn [snd]; intros [E|[]]; inversion E; subst x; exact Ec].
    destruct (negb (truthy (Data.roomId d)) || negb (truthy (Data.username d))).
    { cbn [snd]. intros [E|[]]. inversion E; subst x. exact Ec. }
    destruct (getOrCreateRoom (Data.roomId d) now (rooms st)) as [room rs1].
    rewrite join_adapter.
    destruct (Data.username d); cbn [snd];
      try (intros [E|[]]; inversion E; subst x; exact Ec).
    intros [E|Hin]; [inversion E; subst x; exact Ec|].
    unfold emit_to in Hin. apply in_map_iff in Hin.
    destruct Hin as (y & E & Hy). inversion E; subst y.
    apply socket_to_members, members_connected in Hy.
    exact (has_pset_present sid _ _ x Ec Hy).
  - (* code-change *)
    intros Hin. left. revert Hin.
    unfold code_change. destruct d as [d|];
      [|cbn [snd]; intros [E|[]]; inversion E; subst x; exact Ec].
    destruct (rget (Data.roomId d) (rooms st)); cbn [snd].
    + apply Hemit. apply Hto.
    + intros [E|[]]. inversion E; subst x. exact Ec.
  - (* language-change *)
    intros Hin. left. revert Hin.
    unfold language_change. destruct d as [d|];
      [|cbn [snd]; intros [E|[]]; inversion E; subst x; exact Ec].
    destruct (rget (Data.roomId d) (rooms st)); cbn [snd].
    + apply Hemit. apply Hto.
    + intros [E|[]]. inversion E; subst x. exact Ec.
  - (* run-code: the request *)
    intros Hin. left. revert Hin.
    unfold run_code_request.
    destruct (Data.code _);
      try (cbn [snd]; intros [E|[]]; inversion E; subst x; exact Ec).
    destruct (negb _ || negb _);
      [cbn [snd]; intros [E|[]]; inversion E; subst x; exact Ec|].
    destruct (rget _ (rooms st));
      [|cbn [snd]; intros [E|[]]; inversion E; subst x; exact Ec].
    destruct (dispatch h _ s) as [call|]; cbn [snd].
    + destruct (call []) as [outcome log]; cbn [snd]. intros [].
    + apply Hemit. intros y Hy. exact (members_connected _ _ _ Hy).
  - (* run-code: the adapter is back *)
    destruct (nth_error (runs st) i) as [r|] eqn:En; cbn [snd]; [|intros []].
    unfold run_code_done. destruct (Run.outcome r) as [result|err] eqn:Eo.
    + intros Hin. left. revert Hin.
      apply Hemit. intros y Hy. exact (members_connected _ _ _ Hy).
    + intros [E|[]]. inversion E; subst. right. split; [reflexivity|].
      exists i, r, err. auto.
  - (* disconnect *)
    intros Hin. left. revert Hin.
    unfold disconnect.
    pose proof (disconnect_rooms_out sid now (pdelete sid (adapter st)) (rooms st))
      as Hout.
    destruct (disconnect_rooms sid now (pdelete sid (adapter st)) (rooms st))
      as [rs' out].
    cbn [snd] in *. intros Hin. destruct (Hout x m Hin) as (k & Hx).
    apply socket_to_members, members_connected in Hx. exact (has_pdelete _ _ _ Hx).
  - (* ping *)
    unfold ping. cbn [snd]. intros [E|[]]. inversion E; subst x. left. exact Ec.
  - (* sweep *)
    cbn [snd]. intros [].
Qed.

(** Ann asks for a Java run on a host where [rm] fails and [javac]
    rejects the source, and disconnects; the error of the [catch] branch
    is then emitted on her closed socket. *)
Lemma messages_go_to_live_sockets_witness :
  let st := fst (run (ann_alone ++ abandoned_run) initial_state) in
  In ("sockA", ErrorMsg "Failed to run code") (snd (step 25 (RunDone 0) st))
  /\ connected "sockA" st = false
  /\ exists r, nth_error (runs st) 0 = Some r /\ Run.sid r = "sockA".
Proof.
  intros st.
  assert (H : In ("sockA", ErrorMsg "Failed to run code")
                 (snd (step 25 (RunDone 0) st))) by (vm_compute; left; reflexivity).
  split; [exact H|]. split; [vm_compute; reflexivity|].
  destruct (messages_go_to_live_sockets 25 (RunDone 0) st _ _ H)
    as [Hc|(_ & i & r & err & Ei & En & Es & _)].
  - vm_compute in Hc. discriminate.
  - inversion Ei; subst i. exists r. split; assumption.
Defined.

(* ------------------------------------------------------------------ *)
(** ** Channels and participant lists *)
(* ------------------------------------------------------------------ *)

Lemma join_room_success sid now d st u :
  truthy (Data.roomId d) = true ->
  Data.username d = JStr u ->
  truthy (JStr u) = true ->
  let room0 := match rget (Data.roomId d) (rooms st) with
               | Some r => r
               | None => new_room (Data.roomId d) now
               end in
  fst (join_room sid now (Some d) st)
  = Build_State
      (rset (Data.roomId d)
            (Room.mk (Room.id room0) (Room.code room0) (Room.language room0)
                     (pset sid (Participant.mk sid (trim u) now now)
                           (Room.participants room0))
                     (Room.createdAt room0) now)
            (rooms st))
      (userSockets st)
      (socket_join sid (Data.roomId d) (leave_previous sid (adapter st)))
      (runs st).
Proof.
  intros Hr Hu Ht room0. unfold join_room. rewrite Hu, Hr, Ht. cbn [negb orb].
  destruct (rget (Data.roomId d) (rooms st)) as [r|] eqn:E.
  - rewrite (getOrCreateRoom_existing _ now _ _ E). reflexivity.
  - rewrite (getOrCreateRoom_absent _ now _ E). cbn [fst].
    rewrite <- (set_absent_appends jsval_eq_dec _ (new_room (Data.roomId d) now) _ E),
      set_set.
    reflexivity.
Qed.

Lemma keys_touch sid now (ps : list (string * Participant.t)) :
  JsMap.keys (touch_lastSeen sid now ps) = JsMap.keys ps.
Proof.
  unfold touch_lastSeen. destruct (pget sid ps) as [p|] eqn:E; [|reflexivity].
  rewrite keys_set_exact. unfold JsMap.has. rewrite E. reflexivity.
Qed.

Lemma keys_pset_incl sid p (ps : list (string * Participant.t)) s :
  In s (JsMap.keys ps) -> In s (JsMap.keys (pset sid p ps)).
Proof.
  intros H. rewrite keys_set_exact.
  destruct (JsMap.has string_dec sid ps); [exact H | apply in_or_app; left; exact H].
Qed.

(** Replacing a room by one that lists at least the same sockets keeps
    every listing. *)
Lemma listing_kept_by_rset rs roomId room0 room' r room s :
  NoDup (JsMap.keys rs) ->
  (rget roomId rs = Some room0 ->
   forall x, In x (JsMap.keys (Room.participants room0)) ->
             In x (JsMap.keys (Room.participants room'))) ->
  match rget roomId rs with Some r0 => r0 = room0 | None => True end ->
  In (r, room) rs -> In s (JsMap.keys (Room.participants room)) ->
  exists room1, In (r, room1) (rset roomId room' rs)
                /\ In s (JsMap.keys (Room.participants room1)).
Proof.
  intros Hnd Hsup Hm Hin Hs.
  destruct (jsval_eq_dec r roomId) as [E|N].
  - subst r. pose proof (NoDup_In_get jsval_eq_dec _ _ _ Hnd Hin) as Hg.
    rewrite Hg in Hm. subst room0.
    exists room'. split; [apply In_set_same | apply (Hsup Hg), Hs].
  - exists room. split; [apply In_set_other; assumption | exact Hs].
Qed.

Lemma cleanup_keeps_listed now rs k r s :
  In (k, r) rs -> In s (JsMap.keys (Room.participants r)) ->
  In (k, r) (cleanupInactiveRooms now rs).
Proof.
  intros Hin Hs.
  induction rs as [|[k0 r0] rs IH]; cbn [cleanupInactiveRooms]; [destruct Hin|].
  destruct Hin as [E|Hin].
  - inversion E; subst k0 r0.
    destruct (JsMap.size (Room.participants r) =? 0) eqn:Ez.
    + apply size_zero in Ez. rewrite Ez in Hs. destruct Hs.
    + cbn [andb]. left; reflexivity.
  - destruct (_ && _); [apply IH, Hin | right; apply IH, Hin].
Qed.

Lemma step_subscribers_listed now e st :
  typed_event e = true ->
  unique_room_ids st ->
  subscribers_listed st -> subscribers_listed (fst (step now e st)).
Proof.
  unfold subscribers_listed, unique_room_ids. intros Ht Hnd H.
  destruct e as [sid|sid d|sid d|sid d|sid d h|i|sid|sid|]; cbn [step];
    try (destruct (connected sid st) eqn:Ec; cbn [fst]; try exact H);
    try solve [run_frame; exact H].
  - (* connection *)
    cbn [connection rooms adapter]. intros s l r Hin Hr Hne.
    destruct (In_set string_dec _ _ _ _ _ Hin) as [[-> ->]|Hold];
      [|exact (H s l r Hold Hr Hne)].
    destruct Hr as [E|[]]. congruence.
  - (* join-room *)
    destruct d as [d|]; [|exact H]. cbn [typed_event] in Ht.
    destruct (negb (truthy (Data.roomId d)) || negb (truthy (Data.username d)))
      eqn:Hv.
    { unfold join_room. rewrite Hv. exact H. }
    apply orb_false_elim in Hv. destruct Hv as [Hr Hu].
    apply negb_false_iff in Hr. apply negb_false_iff in Hu.
    unfold typed_data in Ht.
    destruct (Data.username d) as [| |b|n|u] eqn:Eu;
      try (rewrite !andb_false_r in Ht; cbn in Ht; discriminate);
      try (cbn in Hu; discriminate).
    rewrite (join_room_success sid now d st u Hr Eu Hu). cbv zeta.
    cbn [rooms adapter]. rewrite join_adapter.
    set (room0 := match rget (Data.roomId d) (rooms st) with
                  | Some r => r
                  | None => new_room (Data.roomId d) now
                  end).
    set (p := Participant.mk sid (trim u) now now).
    set (room' := Room.mk (Room.id room0) (Room.code room0) (Room.language room0)
                          (pset sid p (Room.participants room0))
                          (Room.createdAt room0) now).
    intros s l r Hin Hrl Hne.
    destruct (In_set string_dec _ _ _ _ _ Hin) as [[-> ->]|Hold].
    + (* the joiner *)
      assert (r = Data.roomId d).
      { cbv zeta in Hrl.
        destruct (in_channel (Data.roomId d) _) in Hrl.
        - apply filter_In in Hrl. destruct Hrl as [_ Hf].
          destruct (jsval_eq_dec r (JStr sid)); [contradiction | discriminate].
        - apply in_app_or in Hrl. destruct Hrl as [Hrl|[E|[]]]; [|congruence].
          apply filter_In in Hrl. destruct Hrl as [_ Hf].
          destruct (jsval_eq_dec r (JStr sid)); [contradiction | discriminate]. }
      subst r. exists room'. split; [apply In_set_same|].
      unfold room'. cbn [Room.participants].
      apply (keys_In _ (Participant.mk sid (trim u) now now)), In_set_same.
    + destruct (H s l r Hold Hrl Hne) as (room & Hroom & Hs).
      apply (listing_kept_by_rset (rooms st) (Data.roomId d) room0 room' r room s
               Hnd); try assumption; try exact I.
      * intros _ x Hx. unfold room'. cbn [Room.participants].
        apply keys_pset_incl, Hx.
      * unfold room0. destruct (rget (Data.roomId d) (rooms st)); [reflexivity | exact I].
  - (* code-change *)
    unfold code_change. destruct d as [d|]; [|exact H].
    destruct (rget (Data.roomId d) (rooms st)) as [room0|] eqn:Er; [|exact H].
    cbn [fst rooms adapter]. intros s l r Hin Hrl Hne.
    destruct (H s l r Hin Hrl Hne) as (room & Hroom & Hs).
    apply (listing_kept_by_rset (rooms st) (Data.roomId d) room0 _ r room s Hnd);
      try assumption; try exact I.
    + intros _ x Hx. cbn [Room.participants]. rewrite keys_touch. exact Hx.
    + rewrite Er. reflexivity.
  - (* language-change *)
    unfold language_change. destruct d as [d|]; [|exact H].
    destruct (rget (Data.roomId d) (rooms st)) as [room0|] eqn:Er; [|exact H].
    cbn [fst rooms adapter]. intros s l r Hin Hrl Hne.
    destruct (H s l r Hin Hrl Hne) as (room & Hroom & Hs).
    apply (listing_kept_by_rset (rooms st) (Data.roomId d) room0 _ r room s Hnd);
      try assumption; try exact I.
    + intros _ x Hx. exact Hx.
    + rewrite Er. reflexivity.
  - (* disconnect *)
    unfold disconnect.
    pose proof (disconnect_rooms_keeps_others sid now (pdelete sid (adapter st))
                  (rooms st)) as Ho.
    destruct (disconnect_rooms sid now (pdelete sid (adapter st)) (rooms st))
      as [rs' out].
    cbn [fst rooms adapter] in *. intros s l r Hin Hrl Hne.
    apply In_delete in Hin. destruct Hin as [Hs Hin].
    destruct (H s l r Hin Hrl Hne) as (room & Hroom & Hk).
    apply In_keys in Hk. destruct Hk as (q & Hq).
    destruct (Ho r room s q Hroom Hq Hs) as (r' & H1 & H2).
    exists r'. split; [exact H1 | exact (keys_In _ _ _ H2)].
  - (* sweep *)
    cbn [fst rooms adapter]. intros s l r Hin Hrl Hne.
    destruct (H s l r Hin Hrl Hne) as (room & Hroom & Hk).
    exists room. split; [|exact Hk].
    exact (cleanup_keeps_listed now _ _ _ _ Hroom Hk).
Qed.

Lemma run_subscribers_listed evs : forall st,
  Forall (fun te => typed_event (snd te) = true) evs ->
  unique_room_ids st -> subscribers_listed st ->
  subscribers_listed (fst (run evs st)).
Proof.
  induction evs as [|[now e] evs IH]; intros st Ht Hu Hs; cbn [run]; [exact Hs|].
  inversion Ht as [|x l Hx Hl]; subst. cbn [snd] in Hx.
  pose proof (step_unique_room_ids now e st Hu) as Hu'.
  pose proof (step_subscribers_listed now e st Hx Hu Hs) as Hs'.
  destruct (step now e st) as [st1 out1]. cbn [fst] in *.
  specialize (IH st1 Hl Hu' Hs').
  destruct (run evs st1) as [st2 out2]. exact IH.
Qed.

(** X19. Broadcasts do not leak: after any events with typed payloads,
    a socket that is in the channel of a room is recorded among that
    room's participants, the one exception being the socket whose own id
    is the room id (every socket sits in the channel named by its id). So
    what is sent to a room's channel reaches listed participants and, at
    most, that socket. *)
Theorem channel_members_are_participants :
  forall (evs : list (Z * Event)) (r : jsval) (x : string),
    Forall (fun te => typed_event (snd te) = true) evs ->
    In x (members r (adapter (fst (run evs initial_state)))) ->
    r = JStr x
    \/ exists room, In (r, room) (rooms (fst (run evs initial_state)))
                    /\ In x (JsMap.keys (Room.participants room)).
Proof.
  intros evs r x Ht Hin.
  apply members_In in Hin. destruct Hin as (l & Hl & Hr).
  destruct (jsval_eq_dec r (JStr x)) as [E|N]; [left; exact E | right].
  apply (run_subscribers_listed evs initial_state Ht) with (sid := x) (l := l);
    try assumption.
  - constructor.
  - intros sid l0 r0 [].
Qed.

Lemma channel_members_are_participants_witness :
  Forall (fun te => typed_event (snd te) = true) ann_switches
  /\ In "sockB" (members (JStr "R1") (adapter (fst (run ann_switches initial_state))))
  /\ (JStr "R1" = JStr "sockB"
      \/ exists room, In (JStr "R1", room) (rooms (fst (run ann_switches initial_state)))
                      /\ In "sockB" (JsMap.keys (Room.participants room))).
Proof.
  assert (H1 : Forall (fun te => typed_event (snd te) = true) ann_switches)
    by (repeat constructor).
  assert (H2 : In "sockB" (members (JStr "R1")
                             (adapter (fst (run ann_switches initial_state)))))
    by (vm_compute; left; reflexivity).
  split; [exact H1|]. split; [exact H2|].
  exact (channel_members_are_participants ann_switches (JStr "R1") "sockB" H1 H2).
Defined.

(* ------------------------------------------------------------------ *)
(** ** Single handlers *)
(* ------------------------------------------------------------------ *)

Lemma disconnect_rooms_untouched sid now ad rs :
  (forall k r, In (k, r) rs -> pget sid (Room.participants r) = None) ->
  fst (disconnect_rooms sid now ad rs) = rs.
Proof.
  induction rs as [|[k0 r0] rs IH]; cbn [disconnect_rooms]; [reflexivity|].
  intros H.
  assert (IH' : fst (disconnect_rooms sid now ad rs) = rs)
    by (apply IH; intros k r Hin; apply (H k); right; exact Hin).
  destruct (disconnect_rooms sid now ad rs) as [rest' out]. cbn [fst] in IH'.
  rewrite (H k0 r0 (or_introl eq_refl)). cbn [fst]. rewrite IH'. reflexivity.
Qed.

Lemma disconnect_rooms_app sid now ad rs1 rs2 :
  fst (disconnect_rooms sid now ad (rs1 ++ rs2))
  = fst (disconnect_rooms sid now ad rs1) ++ fst (disconnect_rooms sid now ad rs2).
Proof.
  induction rs1 as [|[k0 r0] rs1 IH]; cbn [app disconnect_rooms]; [reflexivity|].
  destruct (disconnect_rooms sid now ad (rs1 ++ rs2)) as [rest' out].
  destruct (disconnect_rooms sid now ad rs1) as [rest1 out1].
  cbn [fst] in IH. subst rest'.
  destruct (pget sid (Room.participants r0));
    [destruct (JsMap.size _ =? 0)|]; reflexivity.
Qed.

(** X20. Joining a room that does not exist and disconnecting gives the
    registry back as it was: for a socket recorded in no room, the rooms
    after join-then-disconnect are exactly the rooms before, the room made
    by the join being deleted with its only participant. *)
Theorem join_then_disconnect_restores_rooms :
  forall (sid : string) (t1 t2 : Z) (d : Data.t) (st : State) (u : string),
    truthy (Data.roomId d) = true ->
    Data.username d = JStr u ->
    truthy (JStr u) = true ->
    rget (Data.roomId d) (rooms st) = None ->
    (forall k r, In (k, r) (rooms st) -> pget sid (Room.participants r) = None) ->
    rooms (fst (disconnect sid t2 (fst (join_room sid t1 (Some d) st)))) = rooms st.
Proof.
  intros sid t1 t2 d st u Hr Hu Ht Hnone Hfree.
  rewrite (join_room_success sid t1 d st u Hr Hu Ht). cbv zeta.
  rewrite Hnone. unfold disconnect. cbn [rooms adapter userSockets].
  rewrite (set_absent_appends jsval_eq_dec _ _ _ Hnone).
  pose proof (disconnect_rooms_app sid t2
                (pdelete sid (socket_join sid (Data.roomId d)
                                          (leave_previous sid (adapter st))))
                (rooms st)
                [(Data.roomId d,
                  Room.mk (Room.id (new_room (Data.roomId d) t1))
                          (Room.code (new_room (Data.roomId d) t1))
                          (Room.language (new_room (Data.roomId d) t1))
                          (pset sid (Participant.mk sid (trim u) t1 t1)
                                (Room.participants (new_room (Data.roomId d) t1)))
                          (Room.createdAt (new_room (Data.roomId d) t1)) t1)])
    as Happ.
  destruct (disconnect_rooms sid t2 _ (rooms st ++ _)) as [rs' out].
  cbn [fst rooms] in *. rewrite Happ.
  rewrite disconnect_rooms_untouched by exact Hfree.
  cbn [disconnect_rooms new_room Room.participants JsMap.set JsMap.get].
  destruct (string_dec sid sid) as [_|N]; [|contradiction].
  cbn [JsMap.delete]. destruct (string_dec sid sid) as [_|N]; [|contradiction].
  cbn [JsMap.size List.length Z.of_nat Z.eqb fst]. apply app_nil_r.
Qed.

Lemma join_then_disconnect_restores_rooms_witness :
  let st := fst (run (ann_and_bob ++ [(5, Connection "sockC")]) initial_state) in
  let d := Data.mk (JStr "R9") (JStr "Cy") JUndefined JUndefined in
  truthy (Data.roomId d) = true
  /\ Data.username d = JStr "Cy"
  /\ truthy (JStr "Cy") = true
  /\ rget (Data.roomId d) (rooms st) = None
  /\ (forall k r, In (k, r) (rooms st) -> pget "sockC" (Room.participants r) = None)
  /\ rooms (fst (disconnect "sockC" 7 (fst (join_room "sockC" 6 (Some d) st))))
     = rooms st.
Proof.
  intros st d.
  assert (H1 : truthy (Data.roomId d) = true) by reflexivity.
  assert (H2 : Data.username d = JStr "Cy") by reflexivity.
  assert (H3 : truthy (JStr "Cy") = true) by reflexivity.
  assert (H4 : rget (Data.roomId d) (rooms st) = None) by (vm_compute; reflexivity).
  assert (H5 : forall k r, In (k, r) (rooms st) ->
                           pget "sockC" (Room.participants r) = None).
  { intros k r Hin. vm_compute in Hin. destruct Hin as [E|[]].
    inversion E; subst. reflexivity. }
  split; [exact H1|]. split; [exact H2|]. split; [exact H3|].
  split; [exact H4|]. split; [exact H5|].
  exact (join_then_disconnect_restores_rooms "sockC" 6 7 d st "Cy" H1 H2 H3 H4 H5).
Defined.

(* ------------------------------------------------------------------ *)
(** ** Rooms left behind by a failed join *)
(* ------------------------------------------------------------------ *)

(** C1. A join-room whose [username] is truthy but not a string passes
    the check of the required fields, files a new room and then fails at
    [username.trim()]: the requester is told 'Failed to join room' and the
    registry keeps a room that nobody is in. With the number 5 as
    username for R1 at clock 2: the registry holds R1 with zero
    participants between events, R1 is still there after the socket has
    disconnected, a sweep leaves it as long as its 24 hours are not
    over, and only a later sweep evicts it. *)
Theorem failed_join_leaves_empty_room :
  (forall (sid : string) (now : Z) (roomId v code language : jsval) (st : State),
      truthy roomId = true -> truthy v = true -> is_string v = false ->
      rget roomId (rooms st) = None ->
      let r := join_room sid now (Some (Data.mk roomId v code language)) st in
      rooms (fst r) = rooms st ++ [(roomId, new_room roomId now)]
      /\ Room.participants (new_room roomId now) = []
      /\ snd r = [(sid, ErrorMsg "Failed to join room")])
  /\ (let st := fst (run numeric_name_join initial_state) in
      let gone := fst (step 3 (Disconnect "sockA") st) in
      snd (run numeric_name_join initial_state)
      = [("sockA", ErrorMsg "Failed to join room")]
      /\ rooms st = [(JStr "R1", new_room (JStr "R1") 2)]
      /\ ~ no_empty_room st
      /\ connected "sockA" gone = false
      /\ rooms gone = rooms st
      /\ cleanupInactiveRooms (2 + maxAge) (rooms gone) = rooms gone
      /\ cleanupInactiveRooms (2 + maxAge + 1) (rooms gone) = []).
Proof.
  split.
  - intros sid now roomId v code language st Hr Hv Hs Hget r. subst r.
    unfold join_room. cbn [Data.roomId Data.username].
    rewrite Hr, Hv. cbn [negb orb].
    rewrite (getOrCreateRoom_absent roomId now (rooms st) Hget).
    destruct v; try discriminate Hs; cbn [fst snd rooms];
      repeat split; reflexivity.
  - intros st gone.
    assert (E : rooms st = [(JStr "R1", new_room (JStr "R1") 2)])
      by (vm_compute; reflexivity).
    assert (G : rooms gone = rooms st) by (vm_compute; reflexivity).
    split; [vm_compute; reflexivity|]. split; [exact E|]. split.
    { unfold no_empty_room. rewrite E. intros H.
      specialize (H (JStr "R1") (new_room (JStr "R1") 2) (or_introl eq_refl)).
      cbn in H. lia. }
    split; [vm_compute; reflexivity|]. split; [exact G|].
    rewrite G, E. split; vm_compute; reflexivity.
Qed.

(* ------------------------------------------------------------------ *)
(** ** Edits and language changes *)
(* ------------------------------------------------------------------ *)

(** X21. A code-change by a participant of the room: besides the buffer
    update, the sender's record gets [lastSeen] set to the clock and is
    otherwise unchanged, the other records and the order of the list are
    untouched, and a code-update signed with the sender's username
    ('Unknown' only if that username is empty) goes to exactly the sockets
    that are in the room's channel and not in the channel named by the
    sender's id. *)
Theorem code_change_by_participant :
  forall (sid : string) (now : Z) (d : Data.t) (st : State) (room : Room.t)
         (p : Participant.t),
    rget (Data.roomId d) (rooms st) = Some room ->
    pget sid (Room.participants room) = Some p ->
    let code' := match Data.code d with
                 | JUndefined => Room.code room
                 | c => c
                 end in
    let language' := if truthy (Data.language d) then Data.language d
                     else Room.language room in
    let ps' := pset sid (Participant.mk (Participant.id p) (Participant.username p)
                                        (Participant.joinedAt p) now)
                    (Room.participants room) in
    rget (Data.roomId d) (rooms (fst (code_change sid now (Some d) st)))
    = Some (Room.mk (Room.id room) code' language' ps' (Room.createdAt room) now)
    /\ JsMap.keys ps' = JsMap.keys (Room.participants room)
    /\ (forall other, other <> sid ->
                      pget other ps' = pget other (Room.participants room))
    /\ (forall x m,
          In (x, m) (snd (code_change sid now (Some d) st))
          <-> m = CodeUpdate code' language'
                    (if String.eqb (Participant.username p) "" then "Unknown"
                     else Participant.username p)
              /\ exists l, In (x, l) (adapter st)
                           /\ In (Data.roomId d) l /\ ~ In (JStr sid) l).
Proof.
  intros sid now d st room p Hr Hp code' language' ps'.
  unfold code_change. rewrite Hr. cbn [fst snd rooms].
  unfold touch_lastSeen. rewrite Hp. cbn [name_or_unknown].
  split; [apply get_set_same|]. split.
  - unfold ps'. rewrite keys_set_exact. unfold JsMap.has. rewrite Hp. reflexivity.
  - split; [intros other Hne; apply get_set_other; congruence|].
    intros x m. rewrite emit_to_In, socket_to_In. reflexivity.
Qed.

Lemma code_change_by_participant_witness :
  let st := fst (run ann_and_bob initial_state) in
  let d := Data.mk (JStr "R1") JUndefined (JStr "x = 1") JUndefined in
  let room := Room.mk (JStr "R1") (JStr (default_code (JStr "R1"))) (JStr "javascript")
                      [("sockA", ann); ("sockB", bob)] 3 4 in
  rget (Data.roomId d) (rooms st) = Some room
  /\ pget "sockB" (Room.participants room) = Some bob
  /\ rget (JStr "R1") (rooms (fst (code_change "sockB" 9 (Some d) st)))
     = Some (Room.mk (JStr "R1") (JStr "x = 1") (JStr "javascript")
                     [("sockA", ann); ("sockB", Participant.mk "sockB" "Bob" 4 9)] 3 9)
  /\ snd (code_change "sockB" 9 (Some d) st)
     = [("sockA", CodeUpdate (JStr "x = 1") (JStr "javascript") "Bob")].
Proof.
  intros st d room.
  assert (H1 : rget (Data.roomId d) (rooms st) = Some room)
    by (vm_compute; reflexivity).
  assert (H2 : pget "sockB" (Room.participants room) = Some bob) by reflexivity.
  destruct (code_change_by_participant "sockB" 9 d st room bob H1 H2)
    as (R1 & _ & _ & _).
  split; [exact H1|]. split; [exact H2|].
  split; [exact R1|].
  vm_compute; reflexivity.
Defined.

(** X22. A language-change naming an existing room sets the room's
    language to exactly what was sent and [lastActivity] to the clock;
    the buffer, the participant records (their [lastSeen] included), the
    creation time, every other room and the channels stay as they were; a
    language-update, signed with the sender's username when the sender is
    a participant with a non-empty one, goes to exactly the sockets that
    are in the room's channel and not in the channel named by the
    sender's id, hence not to a sender that sits in its own channel. *)
Theorem language_change_effect :
  forall (sid : string) (now : Z) (d : Data.t) (st : State) (room : Room.t),
    rget (Data.roomId d) (rooms st) = Some room ->
    rget (Data.roomId d) (rooms (fst (language_change sid now (Some d) st)))
    = Some (Room.mk (Room.id room) (Room.code room) (Data.language d)
                    (Room.participants room) (Room.createdAt room) now)
    /\ (forall k, k <> Data.roomId d ->
                  rget k (rooms (fst (language_change sid now (Some d) st)))
                  = rget k (rooms st))
    /\ adapter (fst (language_change sid now (Some d) st)) = adapter st
    /\ (forall x m,
          In (x, m) (snd (language_change sid now (Some d) st))
          <-> m = LanguageUpdate (Data.language d)
                    (name_or_unknown (pget sid (Room.participants room)))
              /\ exists l, In (x, l) (adapter st)
                           /\ In (Data.roomId d) l /\ ~ In (JStr sid) l)
    /\ ((forall l, In (sid, l) (adapter st) -> In (JStr sid) l) ->
        ~ In sid (map fst (snd (language_change sid now (Some d) st)))).
Proof.
  intros sid now d st room Hr.
  unfold language_change. rewrite Hr. cbn [fst snd rooms adapter].
  split; [apply get_set_same|].
  split; [intros k Hk; apply get_set_other; congruence|].
  split; [reflexivity|]. split.
  - intros x m. rewrite emit_to_In, socket_to_In. reflexivity.
  - intros Hown. unfold emit_to. rewrite map_map. cbn [fst]. rewrite map_id.
    apply socket_to_excludes_sender, Hown.
Qed.

Lemma language_change_effect_witness :
  let st := fst (run ann_and_bob initial_state) in
  let d := Data.mk (JStr "R1") JUndefined JUndefined (JStr "python") in
  let room := Room.mk (JStr "R1") (JStr (default_code (JStr "R1"))) (JStr "javascript")
                      [("sockA", ann); ("sockB", bob)] 3 4 in
  rget (Data.roomId d) (rooms st) = Some room
  /\ rget (JStr "R1") (rooms (fst (language_change "sockA" 9 (Some d) st)))
     = Some (Room.mk (JStr "R1") (JStr (default_code (JStr "R1"))) (JStr "python")
                     [("sockA", ann); ("sockB", bob)] 3 9)
  /\ snd (language_change "sockA" 9 (Some d) st)
     = [("sockB", LanguageUpdate (JStr "python") "Ann")].
Proof.
  intros st d room.
  assert (H1 : rget (Data.roomId d) (rooms st) = Some room)
    by (vm_compute; reflexivity).
  destruct (language_change_effect "sockA" 9 d st room H1) as (R1 & _).
  split; [exact H1|]. split; [exact R1|].
  vm_compute; reflexivity.
Defined.

(* ------------------------------------------------------------------ *)
(** ** Edits from outside the room *)
(* ------------------------------------------------------------------ *)

(** C10. A code-change naming a room of the registry is carried out for
    a sender that is not among the room's participants: the buffer takes
    the code sent (when it is not [undefined]), the language takes the
    language sent (when it is truthy), [lastActivity] is set to the clock,
    the participant records, every other room and the channels stay as
    they were, and a code-update signed 'Unknown' goes to exactly the
    sockets that are in the room's channel and not in the channel named
    by the sender's id; a sender that sits in its own channel, as every
    live socket does, is not among them. *)
Theorem code_change_without_membership :
  forall (sid : string) (now : Z) (d : Data.t) (st : State) (room : Room.t),
    rget (Data.roomId d) (rooms st) = Some room ->
    pget sid (Room.participants room) = None ->
    let code' := match Data.code d with
                 | JUndefined => Room.code room
                 | c => c
                 end in
    let language' := if truthy (Data.language d) then Data.language d
                     else Room.language room in
    let st' := fst (code_change sid now (Some d) st) in
    let sent := snd (code_change sid now (Some d) st) in
    rget (Data.roomId d) (rooms st')
    = Some (Room.mk (Room.id room) code' language' (Room.participants room)
                    (Room.createdAt room) now)
    /\ (forall k, k <> Data.roomId d -> rget k (rooms st') = rget k (rooms st))
    /\ adapter st' = adapter st
    /\ userSockets st' = userSockets st
    /\ (forall x m,
          In (x, m) sent
          <-> m = CodeUpdate code' language' "Unknown"
              /\ exists l, In (x, l) (adapter st)
                           /\ In (Data.roomId d) l /\ ~ In (JStr sid) l)
    /\ ((forall l, In (sid, l) (adapter st) -> In (JStr sid) l) ->
        ~ In sid (map fst sent)).
Proof.
  intros sid now d st room Hr Hp code' language' st' sent.
  unfold st', sent, code_change. rewrite Hr. cbn [fst snd rooms adapter userSockets].
  unfold touch_lastSeen. rewrite Hp. cbn [name_or_unknown].
  split; [apply get_set_same|].
  split; [intros k Hk; apply get_set_other; congruence|].
  split; [reflexivity|]. split; [reflexivity|]. split.
  - intros x m. rewrite emit_to_In, socket_to_In. reflexivity.
  - intros Hown. unfold emit_to. rewrite map_map. cbn [fst]. rewrite map_id.
    apply socket_to_excludes_sender, Hown.
Qed.

(** A socket that joined nothing edits R1, where Ann and Bob are: both
    get the update. The same socket edits the room that carries its own
    id, where Ann and Bob are as well: the room is changed and nobody is
    told. *)
Lemma code_change_without_membership_witness :
  let st := fst (run outsider_connects initial_state) in
  let d := Data.mk (JStr "R1") JUndefined (JStr "x = 1") (JStr "python") in
  let room := Room.mk (JStr "R1") (JStr (default_code (JStr "R1"))) (JStr "javascript")
                      [("sockA", ann); ("sockB", bob)] 3 4 in
  let st2 := fst (run room_named_like_a_socket initial_state) in
  let d2 := Data.mk (JStr "sockC") JUndefined (JStr "x = 1") JUndefined in
  let room2 := Room.mk (JStr "sockC") (JStr (default_code (JStr "sockC")))
                       (JStr "javascript")
                       [("sockA", Participant.mk "sockA" "Ann" 4 4);
                        ("sockB", Participant.mk "sockB" "Bob" 5 5)] 4 5 in
  (rget (Data.roomId d) (rooms st) = Some room
   /\ pget "sockC" (Room.participants room) = None
   /\ rget (JStr "R1") (rooms (fst (code_change "sockC" 7 (Some d) st)))
      = Some (Room.mk (JStr "R1") (JStr "x = 1") (JStr "python")
                      [("sockA", ann); ("sockB", bob)] 3 7)
   /\ snd (code_change "sockC" 7 (Some d) st)
      = [ ("sockA", CodeUpdate (JStr "x = 1") (JStr "python") "Unknown");
          ("sockB", CodeUpdate (JStr "x = 1") (JStr "python") "Unknown") ])
  /\ (rget (Data.roomId d2) (rooms st2) = Some room2
      /\ pget "sockC" (Room.participants room2) = None
      /\ rget (JStr "sockC") (rooms (fst (code_change "sockC" 7 (Some d2) st2)))
         = Some (Room.mk (JStr "sockC") (JStr "x = 1") (JStr "javascript")
                         [("sockA", Participant.mk "sockA" "Ann" 4 4);
                          ("sockB", Participant.mk "sockB" "Bob" 5 5)] 4 7)
      /\ snd (code_change "sockC" 7 (Some d2) st2) = []).
Proof.
  intros st d room st2 d2 room2.
  assert (H1 : rget (Data.roomId d) (rooms st) = Some room)
    by (vm_compute; reflexivity).
  assert (H2 : pget "sockC" (Room.participants room) = None)
    by (vm_compute; reflexivity).
  assert (K1 : rget (Data.roomId d2) (rooms st2) = Some room2)
    by (vm_compute; reflexivity).
  assert (K2 : pget "sockC" (Room.participants room2) = None)
    by (vm_compute; reflexivity).
  destruct (code_change_without_membership "sockC" 7 d st room H1 H2)
    as (R1 & _).
  destruct (code_change_without_membership "sockC" 7 d2 st2 room2 K1 K2)
    as (S1 & _).
  split.
  - split; [exact H1|]. split; [exact H2|]. split; [exact R1|].
    vm_compute; reflexivity.
  - split; [exact K1|]. split; [exact K2|]. split; [exact S1|].
    vm_compute; reflexivity.
Defined.

(* ------------------------------------------------------------------ *)
(** ** The join form and the join handler *)
(* ------------------------------------------------------------------ *)

Lemma string_app_nil_r (s : string) : (s ++ "")%string = s.
Proof. induction s as [|c s IH]; cbn; [reflexivity | rewrite IH; reflexivity]. Qed.

Lemma string_app_assoc (a b c : string) :
  ((a ++ b) ++ c)%string = (a ++ (b ++ c))%string.
Proof. induction a as [|x a IH]; cbn; [reflexivity | rewrite IH; reflexivity]. Qed.

Lemma string_rev_onto_app (s acc : string) :
  string_rev_onto s acc = (string_rev s ++ acc)%string.
Proof.
  unfold string_rev. revert acc.
  induction s as [|c s IH]; intros acc; cbn [string_rev_onto]; [reflexivity|].
  rewrite (IH (String c acc)), (IH (String c EmptyString)), string_app_assoc.
  reflexivity.
Qed.

Lemma string_rev_app (a b : string) :
  string_rev (a ++ b) = (string_rev b ++ string_rev a)%string.
Proof.
  induction a as [|c a IH].
  - cbn. rewrite string_app_nil_r. reflexivity.
  - unfold string_rev in *. cbn [append string_rev_onto].
    rewrite (string_rev_onto_app (a ++ b)), (string_rev_onto_app a).
    unfold string_rev. rewrite IH, string_app_assoc. reflexivity.
Qed.

Lemma string_rev_involutive (s : string) : string_rev (string_rev s) = s.
Proof.
  induction s as [|c s IH]; [reflexivity|].
  unfold string_rev at 2. cbn [string_rev_onto].
  rewrite string_rev_onto_app, string_rev_app, IH. reflexivity.
Qed.

Section Stripping.
Variable p2 : ascii -> ascii -> bool.
Variable p3 : ascii -> ascii -> ascii -> bool.

(** Stripping takes a prefix away and leaves no white space in front. *)
Lemma strip_leading_spec n : forall s,
  (String.length s <= n)%nat ->
  leads_with_space p2 p3 (strip_leading p2 p3 s) = false
  /\ exists w, s = (w ++ strip_leading p2 p3 s)%string.
Proof.
  induction n as [|n IH]; intros s Hn.
  - destruct s; [split; [reflexivity | exists EmptyString; reflexivity]
                | cbn in Hn; lia].
  - destruct s as [|c1 s1]; [split; [reflexivity | exists EmptyString; reflexivity]|].
    cbn [String.length] in Hn. cbn [strip_leading].
    destruct (is_space c1) eqn:E1.
    { destruct (IH s1) as [Hc (w & Hw)]; [lia|].
      split; [exact Hc|]. exists (String c1 w). cbn. rewrite <- Hw. reflexivity. }
    destruct s1 as [|c2 s2].
    { split; [cbn; rewrite E1; reflexivity | exists EmptyString; reflexivity]. }
    cbn [String.length] in Hn.
    destruct (p2 c1 c2) eqn:E2.
    { destruct (IH s2) as [Hc (w & Hw)]; [lia|].
      split; [exact Hc|]. exists (String c1 (String c2 w)). cbn. rewrite <- Hw.
      reflexivity. }
    destruct s2 as [|c3 s3].
    { split; [cbn; rewrite E1, E2; reflexivity | exists EmptyString; reflexivity]. }
    cbn [String.length] in Hn.
    destruct (p3 c1 c2 c3) eqn:E3.
    { destruct (IH s3) as [Hc (w & Hw)]; [lia|].
      split; [exact Hc|]. exists (String c1 (String c2 (String c3 w))). cbn.
      rewrite <- Hw. reflexivity. }
    split; [cbn; rewrite E1, E2, E3; reflexivity | exists EmptyString; reflexivity].
Qed.

Lemma strip_leading_clean s :
  leads_with_space p2 p3 s = false -> strip_leading p2 p3 s = s.
Proof.
  destruct s as [|c1 [|c2 [|c3 s3]]]; cbn; try reflexivity.
  - intros H. apply orb_false_elim in H. destruct H as [-> _]. reflexivity.
  - intros H. apply orb_false_elim in H. destruct H as [-> H].
    rewrite orb_false_r in H. rewrite H. reflexivity.
  - intros H. apply orb_false_elim in H. destruct H as [-> H].
    apply orb_false_elim in H. destruct H as [-> ->]. reflexivity.
Qed.

(** A string that leads with white space still does when extended. *)
Lemma leads_with_space_prefix p q :
  leads_with_space p2 p3 (p ++ q) = false -> leads_with_space p2 p3 p = false.
Proof.
  destruct p as [|c1 [|c2 [|c3 s3]]]; cbn; try reflexivity.
  - intros H. apply orb_false_elim in H. destruct H as [-> _]. reflexivity.
  - intros H. apply orb_false_elim in H. destruct H as [-> H].
    destruct q; [exact H|]. apply orb_false_elim in H. destruct H as [-> _].
    reflexivity.
  - intros H. exact H.
Qed.
End Stripping.

Lemma trim_no_leading_space s :
  leads_with_space is_space2 is_space3 (trim s) = false.
Proof.
  unfold trim, trim_end.
  destruct (strip_leading_spec is_space2 is_space3 (String.length s) s (le_n _))
    as [Ha _].
  fold (trim_start s) in Ha.
  destruct (strip_leading_spec (fun a b => is_space2 b a) (fun a b c => is_space3 c b a)
              _ (string_rev (trim_start s)) (le_n _)) as [_ (w & Hw)].
  apply (f_equal string_rev) in Hw.
  rewrite string_rev_involutive, string_rev_app in Hw.
  apply (leads_with_space_prefix _ _ _ (string_rev w)).
  rewrite <- Hw. exact Ha.
Qed.

(** Trimming what has been trimmed changes nothing. *)
Lemma trim_idempotent (s : string) : trim (trim s) = trim s.
Proof.
  unfold trim at 1. unfold trim_start.
  rewrite (strip_leading_clean _ _ _ (trim_no_leading_space s)).
  unfold trim, trim_end. rewrite string_rev_involutive.
  destruct (strip_leading_spec (fun a b => is_space2 b a) (fun a b c => is_space3 c b a)
              _ (string_rev (trim_start s)) (le_n _)) as [Hc _].
  rewrite (strip_leading_clean _ _ _ Hc). reflexivity.
Qed.

(** X23. What the join form lets through, the join handler accepts and
    stores unchanged: a submitted pair has a room id of at least 3 and a
    username of 2 to 20 UTF-16 code units, both unchanged by a further
    [trim], and the server, whatever its state, files the sender in the
    room of that id under exactly the submitted username. *)
Theorem submitted_form_is_accepted :
  forall (roomId username r u : string),
    handleJoinRoom roomId username = Some (r, u) ->
    (3 <= js_length r)%nat
    /\ (2 <= js_length u <= 20)%nat
    /\ trim r = r /\ trim u = u
    /\ forall (sid : string) (now : Z) (st : State),
        exists room,
          rget (JStr r) (rooms (fst (join_room sid now (join_data r u) st)))
          = Some room
          /\ pget sid (Room.participants room)
             = Some (Participant.mk sid u now now).
Proof.
  intros roomId username r u. unfold handleJoinRoom, validateForm, validateForm_errors.
  destruct (String.eqb (trim roomId) "") eqn:Er; [discriminate|].
  destruct (Nat.ltb (js_length (trim roomId)) 3) eqn:Er3; [discriminate|].
  destruct (String.eqb (trim username) "") eqn:Eu; [discriminate|].
  destruct (Nat.ltb (js_length (trim username)) 2) eqn:Eu2; [discriminate|].
  destruct (Nat.ltb 20 (js_length (trim username))) eqn:Eu20; [discriminate|].
  intros H. inversion H; subst r u. clear H.
  apply Nat.ltb_ge in Er3, Eu2, Eu20.
  split; [exact Er3|]. split; [split; [exact Eu2 | exact Eu20]|].
  split; [apply trim_idempotent|]. split; [apply trim_idempotent|].
  intros sid now st.
  destruct (join_room_rooms sid now
              (Data.mk (JStr (trim roomId)) (JStr (trim username)) JUndefined JUndefined)
              st (trim username)) as (room' & Hrooms & Hp).
  - cbn [Data.roomId truthy]. rewrite Er. reflexivity.
  - reflexivity.
  - cbn [truthy]. rewrite Eu. reflexivity.
  - exists room'. unfold join_data. rewrite Hrooms. cbn [Data.roomId].
    split; [apply get_set_same|].
    rewrite Hp, trim_idempotent. reflexivity.
Qed.

(** The room id typed with blanks around it, the name with a no-break
    space in front and a two-byte letter in it. *)
Lemma submitted_form_is_accepted_witness :
  handleJoinRoom "  LAB-7 " (nbsp ++ "Zoë ") = Some ("LAB-7", "Zoë")
  /\ js_length "Zoë" = 3%nat
  /\ exists room,
      rget (JStr "LAB-7")
           (rooms (fst (join_room "sockA" 5 (join_data "LAB-7" "Zoë") initial_state)))
      = Some room
      /\ pget "sockA" (Room.participants room)
         = Some (Participant.mk "sockA" "Zoë" 5 5).
Proof.
  assert (H : handleJoinRoom "  LAB-7 " (nbsp ++ "Zoë ") = Some ("LAB-7", "Zoë"))
    by reflexivity.
  split; [exact H|]. split; [reflexivity|].
  destruct (submitted_form_is_accepted "  LAB-7 " (nbsp ++ "Zoë ") "LAB-7" "Zoë" H)
    as (_ & _ & _ & _ & Hs).
  exact (Hs "sockA" 5 initial_state).
Defined.

(** X24. The join form submits nothing exactly when, after trimming,
    the room id has fewer than 3 UTF-16 code units or the username has
    fewer than 2 or more than 20; a field of white space only is reported
    as required. *)
Theorem form_refuses_exactly_bad_lengths :
  forall (roomId username : string),
    (handleJoinRoom roomId username = None
     <-> ((js_length (trim roomId) < 3)%nat
          \/ (js_length (trim username) < 2)%nat
          \/ (20 < js_length (trim username))%nat))
    /\ (trim roomId = ""
        -> FormErrors.roomId (validateForm_errors roomId username)
           = Some "Room ID is required")
    /\ (trim username = ""
        -> FormErrors.username (validateForm_errors roomId username)
           = Some "Username is required").
Proof.
  intros roomId username. unfold handleJoinRoom, validateForm, validateForm_errors.
  split; [|split; intros ->; reflexivity].
  destruct (String.eqb (trim roomId) "") eqn:Er.
  { apply String.eqb_eq in Er. rewrite Er. cbn.
    split; [intros _; left; lia | reflexivity]. }
  destruct (Nat.ltb (js_length (trim roomId)) 3) eqn:Er3.
  { apply Nat.ltb_lt in Er3. split; [intros _; left; exact Er3 | reflexivity]. }
  apply Nat.ltb_ge in Er3.
  destruct (String.eqb (trim username) "") eqn:Eu.
  { apply String.eqb_eq in Eu. rewrite Eu. cbn.
    split; [intros _; right; left; lia | reflexivity]. }
  destruct (Nat.ltb (js_length (trim username)) 2) eqn:Eu2.
  { apply Nat.ltb_lt in Eu2. split; [intros _; right; left; exact Eu2 | reflexivity]. }
  destruct (Nat.ltb 20 (js_length (trim username))) eqn:Eu20.
  { apply Nat.ltb_lt in Eu20. split; [intros _; right; right; exact Eu20 | reflexivity]. }
  apply Nat.ltb_ge in Eu2, Eu20.
  split; [discriminate | intros [H | [H | H]]; lia].
Qed.

(* ------------------------------------------------------------------ *)
(** ** The HTTP routes *)
(* ------------------------------------------------------------------ *)

Lemma has_keys_agree {V W : Type} (k : string)
      (m : list (string * V)) (m' : list (string * W)) :
  JsMap.keys m = JsMap.keys m' ->
  JsMap.has string_dec k m = JsMap.has string_dec k m'.
Proof.
  unfold JsMap.has. revert m'.
  induction m as [|[k0 v0] m IH]; intros [|[k1 v1] m'];
    cbn [JsMap.keys map fst JsMap.get]; try discriminate; [reflexivity|].
  intros E. inversion E; subst k1.
  destruct (string_dec k k0); [reflexivity | apply IH; assumption].
Qed.

Lemma NoDup_keys_append {V : Type} (k : string) (m : list (string * V)) :
  JsMap.has string_dec k m = false -> NoDup (JsMap.keys m) ->
  NoDup (JsMap.keys m ++ [k]).
Proof.
  intros Hh Hn. apply NoDup_app; [exact Hn | constructor; [intros [] | constructor] |].
  intros x Hx [E|[]]. subst x.
  destruct (In_keys _ _ Hx) as [v Hv].
  apply (In_has string_dec) in Hv. congruence.
Qed.

Lemma step_tables_agree now e st :
  tables_agree st -> tables_agree (fst (step now e st)).
Proof.
  unfold tables_agree. intros [Hk Hn].
  destruct e as [sid|sid d|sid d|sid d|sid d h|i|sid|sid|]; cbn [step];
    try (destruct (connected sid st) eqn:Ec; cbn [fst]);
    try (split; [exact Hk | exact Hn]);
    try solve [run_frame; (split; [exact Hk | exact Hn])].
  - (* connection of a new socket *)
    unfold connected in Ec. cbn [connection adapter userSockets].
    rewrite !keys_set_exact, (has_keys_agree sid _ _ Hk), Ec, Hk.
    split; [reflexivity | apply NoDup_keys_append; assumption].
  - (* join-room *)
    assert (Hu : userSockets (fst (join_room sid now d st)) = userSockets st).
    { unfold join_room. destruct d as [d|]; [|reflexivity].
      destruct (negb _ || negb _); [reflexivity|].
      destruct (getOrCreateRoom _ _ _) as [room rs1].
      destruct (Data.username d); reflexivity. }
    rewrite Hu.
    destruct (join_room_adapter sid now d st) as [E|(d0 & _ & E)]; rewrite E;
      [split; assumption|].
    rewrite join_adapter, keys_set_exact. unfold connected in Ec. rewrite Ec.
    split; assumption.
  - (* code-change *)
    unfold code_change. destruct d as [d|]; [|split; assumption].
    destruct (rget _ _); cbn [fst userSockets adapter]; split; assumption.
  - (* language-change *)
    unfold language_change. destruct d as [d|]; [|split; assumption].
    destruct (rget _ _); cbn [fst userSockets adapter]; split; assumption.
  - (* disconnect *)
    unfold disconnect. destruct (disconnect_rooms _ _ _ _) as [rs' out].
    cbn [fst userSockets adapter].
    rewrite !keys_delete, Hk.
    split; [reflexivity | apply NoDup_filter, Hn].
Qed.

Lemma step_well_filed now e st :
  well_filed st -> well_filed (fst (step now e st)).
Proof.
  unfold well_filed. intros H.
  destruct e as [sid|sid d|sid d|sid d|sid d h|i|sid|sid|]; cbn [step];
    try (destruct (connected sid st) eqn:Ec; cbn [fst]; try exact H);
    try solve [run_frame; exact H].
  - (* join-room *)
    unfold join_room. destruct d as [d|]; [|exact H].
    destruct (negb (truthy (Data.roomId d)) || negb (truthy (Data.username d)));
      [exact H|].
    destruct (getOrCreateRoom_spec (Data.roomId d) now (rooms st)) as [Hg Hs].
    destruct (getOrCreateRoom (Data.roomId d) now (rooms st)) as [room rs1].
    cbn [fst snd] in Hg, Hs.
    assert (H1 : forall k r, In (k, r) rs1 ->
                Room.id r = k /\ NoDup (JsMap.keys (Room.participants r))).
    { intros k r Hin. destruct Hs as [-> | ->]; [exact (H k r Hin)|].
      destruct (In_set jsval_eq_dec _ _ _ _ _ Hin) as [[-> ->]|Hold];
        [split; [reflexivity | constructor] | exact (H k r Hold)]. }
    destruct (Data.username d); cbn [fst rooms]; intros k r Hin;
      try exact (H1 k r Hin).
    destruct (In_set jsval_eq_dec _ _ _ _ _ Hin) as [[-> ->]|Hold];
      [|exact (H1 k r Hold)].
    destruct (H1 _ _ (get_In jsval_eq_dec _ _ _ Hg)) as [Hid Hnd].
    cbn [Room.id Room.participants].
    split; [exact Hid | apply NoDup_keys_set, Hnd].
  - (* code-change *)
    unfold code_change. destruct d as [d|]; [|exact H].
    destruct (rget (Data.roomId d) (rooms st)) as [room|] eqn:Er; [|exact H].
    cbn [fst rooms]. intros k r Hin.
    destruct (In_set jsval_eq_dec _ _ _ _ _ Hin) as [[-> ->]|Hold];
      [|exact (H k r Hold)].
    destruct (H _ _ (get_In jsval_eq_dec _ _ _ Er)) as [Hid Hnd].
    cbn [Room.id Room.participants]. rewrite keys_touch.
    split; assumption.
  - (* language-change *)
    unfold language_change. destruct d as [d|]; [|exact H].
    destruct (rget (Data.roomId d) (rooms st)) as [room|] eqn:Er; [|exact H].
    cbn [fst rooms]. intros k r Hin.
    destruct (In_set jsval_eq_dec _ _ _ _ _ Hin) as [[-> ->]|Hold];
      [|exact (H k r Hold)].
    exact (H _ _ (get_In jsval_eq_dec _ _ _ Er)).
  - (* disconnect *)
    unfold disconnect.
    pose proof (disconnect_rooms_entries_strong sid now (pdelete sid (adapter st))
                  (rooms st)) as Hd.
    destruct (disconnect_rooms sid now (pdelete sid (adapter st)) (rooms st))
      as [rs' out].
    cbn [fst rooms] in *. intros k r Hin.
    destruct (Hd k r Hin) as [[Hold _]|(r0 & Hold & -> & _)]; [exact (H k r Hold)|].
    destruct (H k r0 Hold) as [Hid Hnd]. cbn [Room.id Room.participants].
    split; [exact Hid | apply NoDup_keys_delete, Hnd].
  - (* sweep *)
    cbn [fst rooms]. intros k r Hin.
    exact (H k r (cleanup_entries now _ _ _ Hin)).
Qed.

(** X25. The [connections] figure of the health route is the number of
    live sockets: after any sequence of events the connection table has
    exactly the ids of the sockets the transport knows, each once. *)
Theorem health_counts_live_sockets :
  forall evs : list (Z * Event),
    let st := fst (run evs initial_state) in
    health_connections (api_health st) = JsMap.size (adapter st)
    /\ NoDup (JsMap.keys (userSockets st))
    /\ forall sid, connected sid st = JsMap.has string_dec sid (userSockets st).
Proof.
  intros evs st.
  assert (H : tables_agree st).
  { apply (run_preserves tables_agree).
    - intros now e st0. apply step_tables_agree.
    - split; [reflexivity | constructor]. }
  destruct H as [Hk Hn]. split; [|split].
  - unfold api_health, JsMap.size. cbn [health_connections].
    rewrite <- (length_map fst (userSockets st)), <- (length_map fst (adapter st)).
    unfold JsMap.keys in Hk. rewrite Hk. reflexivity.
  - rewrite Hk. exact Hn.
  - intros sid. unfold connected. symmetry. apply has_keys_agree, Hk.
Qed.

(** X26. The room route answers 404 only for an id under which no room
    is filed; otherwise the [id] it reports is the id asked for, and the
    participant count it reports never exceeds the [connections] figure of
    the health route, the listed participants being distinct live sockets. *)
Theorem room_route_reports_the_room_asked_for :
  forall (evs : list (Z * Event)) (rid : string),
    let st := fst (run evs initial_state) in
    match api_room rid st with
    | NotFound404 => forall room, ~ In (JStr rid, room) (rooms st)
    | RoomInfo id n _ _ _ =>
        id = JStr rid /\ 0 <= n <= health_connections (api_health st)
    end.
Proof.
  intros evs rid st.
  assert (Hw : well_filed st).
  { apply (run_preserves well_filed);
      [intros now e st0; apply step_well_filed | intros k r []]. }
  assert (Hl : participants_live st).
  { apply (run_preserves participants_live);
      [intros now e st0; apply step_participants_live | intros k r sid p []]. }
  assert (Ht : tables_agree st).
  { apply (run_preserves tables_agree);
      [intros now e st0; apply step_tables_agree
      | split; [reflexivity | constructor]]. }
  unfold api_room.
  destruct (rget (JStr rid) (rooms st)) as [room|] eqn:Er.
  - apply (get_In jsval_eq_dec) in Er.
    destruct (Hw _ _ Er) as [Hid Hnd]. split; [exact Hid|].
    unfold api_health, JsMap.size. cbn [health_connections].
    split; [lia|]. apply inj_le.
    destruct Ht as [Hk _].
    rewrite <- (length_map fst (userSockets st)),
      <- (length_map fst (Room.participants room)).
    unfold JsMap.keys in Hk. rewrite Hk.
    apply NoDup_incl_length; [exact Hnd|].
    intros sid Hin. destruct (In_keys _ _ Hin) as [p Hp].
    destruct (Hl _ _ sid p Er Hp) as [Hc _].
    apply (has_In string_dec), Hc.
  - intros room Hin. apply (In_has jsval_eq_dec) in Hin.
    unfold JsMap.has in Hin. rewrite Er in Hin. discriminate.
Qed.
